(** * Microsoft-Rewards-Farmer: scheduling and orchestration core

    A shallow embedding of the TypeScript sources

    - [util/Utils.ts]        ([Util.humanizedWait], [Util.chunkArray],
                              [Util.randomNumber], [Util.shuffleArray]),
    - [util/FinalWebhook.ts] ([createAccountResult], [createFinalSummary],
                              [createSecureDiscordEmbed], [maskEmail]),
    - [index.ts]             ([MicrosoftRewardsBot.runTasks], [runAllAccounts],
                              [Desktop], [Mobile], [runMaster]),
    - [util/Scheduler.ts]    ([DailyScheduler]),
    - [util/HumanBehavior.ts] ([HumanBehavior.humanWait], [humanScroll]),
    - the scheduler manager  ([enableScheduler], [setRandomDelay],
                              [setDailyRetries]),

    followed by the properties of the specification that concern them and
    by further properties of the same code.

    Conventions.

    - Numbers.  JavaScript numbers that hold counts, points, configuration
      values and epoch milliseconds are integers ([Z], or [nat] for array
      indices); the few places that compute with fractions ([Math.random],
      the division before [Math.round] or [Math.floor]) use exact rationals
      ([Q]).  NaN and the infinities are not represented.
    - Randomness.  [Math.random()] is a rational [rand] with
      [0 <= rand < 1], passed in.
    - Time.  The clock reads ([Date.now()], [new Date()]) made by one
      synchronous stretch of code are one instant [clock], passed in.
    - Collaborators.  What the browser, the file system and the reward
      script do is an input of the model: it says which calls throw and
      which numbers are read.
    - Exceptions.  A function that can throw returns an outcome, [Ok] or
      [Throw]; for an [async] method [Throw] is a rejected promise.
    - Asynchrony.  An [async] method is cut at its [await] on a
      collaborator: the part before and the part after each run without
      interruption.
    - Strings.  A string is a sequence of one-byte characters; its length
      is their number. *)

From Stdlib Require Import String Ascii.
From Stdlib Require Import ZArith QArith Qround Qminmax Qabs List Bool Arith Lia.
From Stdlib Require Import Permutation Lqa.
From Equations Require Import Equations.
Import ListNotations.

Set Implicit Arguments.

(** ** JavaScript arithmetic helpers *)

Module JS.

Local Open Scope Q_scope.

(** [Math.round]: nearest integer, halves rounded towards +infinity. *)
Definition Math_round (x : Q) : Z := Qfloor (x + (1 # 2)).

(** [Math.floor]. *)
Definition Math_floor (x : Q) : Z := Qfloor x.

(** [Math.max] on two numbers. *)
Definition Math_max (x y : Q) : Q := Qmax x y.

End JS.

(** ** util/Utils.ts *)

Module Util.

Section HumanizedWait.

Local Open Scope Q_scope.

(** [humanizedWait(baseMs, variationPercent)]: the value handed to
    [this.wait].  [rand] is the draw of [Math.random()]. *)
Definition humanizedWait (rand baseMs variationPercent : Q) : Q :=
  let variation := baseMs * (variationPercent / 100) in
  let actualWait := baseMs + (rand - (1 # 2)) * variation in
  let clampedWait := JS.Math_max 100 (inject_Z (JS.Math_round actualWait)) in
  clampedWait.

(** The default value of the second parameter. *)
Definition humanizedWait_default (rand baseMs : Q) : Q :=
  humanizedWait rand baseMs 20.

End HumanizedWait.

Section ChunkArray.

Variable A : Type.

(** [arr.slice(i, j)] for indices [0 <= i <= j]. *)
Definition slice (arr : list A) (i j : nat) : list A :=
  firstn (j - i) (skipn i arr).

(** [Math.ceil(len / numChunks)].  For [numChunks = 0] the quotient is
    [Infinity] (or [NaN] when [len = 0], and then the loop below is not
    entered): a chunk size of [len] behaves in the loop exactly as
    [Infinity] does, one slice that takes the whole array. *)
Definition ceilDiv (len numChunks : nat) : nat :=
  match numChunks with
  | O => len
  | S _ => (len / numChunks + (if len mod numChunks =? 0 then 0 else 1))%nat
  end.

(** The [for (let i = 0; i < arr.length; i += chunkSize)] loop, from index
    [i].  [None] stands for a loop that never ends (a step of 0 with
    elements left). *)
Equations? chunkLoop (arr : list A) (chunkSize i : nat) : option (list (list A))
  by wf (length arr - i)%nat lt :=
  chunkLoop arr chunkSize i with lt_dec i (length arr) => {
    | right _ := Some [];
    | left _ with chunkSize => {
        | O := None;
        | S c := option_map (cons (slice arr i (i + S c)))
                            (chunkLoop arr (S c) (i + S c)) } }.
Proof. lia. Qed.

(** [chunkArray(arr, numChunks)]. *)
Definition chunkArray (arr : list A) (numChunks : nat) : option (list (list A)) :=
  let chunkSize := ceilDiv (length arr) numChunks in
  chunkLoop arr chunkSize 0.

End ChunkArray.

Section Random.

(** [randomNumber(min, max)] on whole numbers; [rand] is the draw of
    [Math.random()]. *)
Definition randomNumber (rand : Q) (min max : Z) : Z :=
  (JS.Math_floor (rand * inject_Z (max - min + 1))%Q + min)%Z.

End Random.

Section ShuffleArray.

Variable A : Type.

(** [Array.prototype.sort] with the comparator [(a, b) => a.sort - b.sort].
    The sort is stable, so the result is determined by the keys: it is the
    one that insertion from the right computes, an entry going in front of
    the first entry whose key is not smaller. *)
Fixpoint insertByKey (x : A * Q) (sorted : list (A * Q)) : list (A * Q) :=
  match sorted with
  | [] => [x]
  | y :: rest =>
      if Qle_bool (snd x) (snd y) then x :: sorted else y :: insertByKey x rest
  end.

Fixpoint sortByKey (entries : list (A * Q)) : list (A * Q) :=
  match entries with
  | [] => []
  | x :: rest => insertByKey x (sortByKey rest)
  end.

(** [array.map(value => ({ value, sort: Math.random() }))], the element at
    index [i] taking the draw number [first + i]. *)
Fixpoint withKeys (random : nat -> Q) (first : nat) (array : list A) : list (A * Q) :=
  match array with
  | [] => []
  | value :: rest => (value, random first) :: withKeys random (S first) rest
  end.

(** [shuffleArray(array)]. *)
Definition shuffleArray (random : nat -> Q) (array : list A) : list A :=
  map fst (sortByKey (withKeys random 0 array)).

End ShuffleArray.

End Util.

(** ** util/FinalWebhook.ts and interface/FinalSummary.ts *)

Module FinalWebhook.

Local Open Scope Z_scope.

Record AccountResult : Type := {
  email : string;
  pointsBefore : Z;
  pointsAfter : Z;
  pointsGained : Z;
  tasksCompleted : Z;
  executionDuration : Z;      (* in seconds *)
  success : bool;
  errorMessage : option string
}.

Record FinalSummary : Type := {
  totalAccounts : Z;
  successfulAccounts : Z;
  failedAccounts : Z;
  totalPointsGained : Z;
  retryPassesUsed : Z;
  totalExecutionTime : Z;     (* in seconds *)
  startTime : Z;
  endTime : Z;
  accountResults : list AccountResult
}.

(** [createAccountResult]; callers that rely on the parameter defaults pass
    them explicitly. *)
Definition createAccountResult (email : string)
    (pointsBefore pointsAfter tasksCompleted executionDuration : Z)
    (success : bool) (errorMessage : option string) : AccountResult :=
  {| email := email;
     pointsBefore := pointsBefore;
     pointsAfter := pointsAfter;
     pointsGained := Z.max 0 (pointsAfter - pointsBefore);
     tasksCompleted := tasksCompleted;
     executionDuration := executionDuration;
     success := success;
     errorMessage := errorMessage |}.

(** [createFinalSummary]. *)
Definition createFinalSummary (accountResults : list AccountResult)
    (retryPassesUsed startTime endTime : Z) : FinalSummary :=
  let successfulAccounts :=
    Z.of_nat (List.length (filter (fun account => success account) accountResults)) in
  let failedAccounts := Z.of_nat (List.length accountResults) - successfulAccounts in
  let totalPointsGained :=
    fold_left (fun sum account => sum + pointsGained account) accountResults 0 in
  let totalExecutionTime :=
    JS.Math_round (inject_Z (endTime - startTime) / 1000)%Q in
  {| totalAccounts := Z.of_nat (List.length accountResults);
     successfulAccounts := successfulAccounts;
     failedAccounts := failedAccounts;
     totalPointsGained := totalPointsGained;
     retryPassesUsed := retryPassesUsed;
     totalExecutionTime := totalExecutionTime;
     startTime := startTime;
     endTime := endTime;
     accountResults := accountResults |}.

(** *** The embed *)

(** [config.finalWebhook.security]; [None] is a key that is absent. *)
Record Security : Type := {
  enableDataMasking : option bool;
  maxAccountsDisplayed : option Z;
  maxFailedAccountsDisplayed : option Z
}.

(** [x || d] on a number that may be absent. *)
Definition or_default (x : option Z) (d : Z) : Z :=
  match x with
  | Some 0 | None => d
  | Some v => v
  end.

(** [list.slice(0, end)] for a whole number [end]: a negative [end] counts
    from the end of the list. *)
Definition slice0 {A : Type} (l : list A) (stop : Z) : list A :=
  if stop <? 0
  then firstn (Z.to_nat (Z.max 0 (Z.of_nat (List.length l) + stop))) l
  else firstn (Z.to_nat stop) l.

Definition green : Z := 65280.       (* 0x00ff00 *)
Definition orange : Z := 16753920.   (* 0xffa500 *)
Definition red : Z := 16711680.      (* 0xff0000 *)

(** What [createSecureDiscordEmbed] computes before it formats the text:
    the numbers shown, the colour, and the accounts listed in the two
    optional fields ([None] when the field is not pushed). *)
Record Embed : Type := {
  color : Z;
  duration : Z;                                  (* minutes *)
  successRate : Z;
  successfulField : option (list AccountResult);
  failedField : option (list AccountResult)
}.

(** [createSecureDiscordEmbed(summary, config)]; [security] is
    [config.finalWebhook?.security].  A field value is the join of one
    non-empty line per listed account, so it is the empty string, and the
    field is left out, exactly when no account is listed. *)
Definition createSecureDiscordEmbed (summary : FinalSummary) (security : option Security)
    : Embed :=
  let maxAccounts := or_default (match security with
                                 | Some s => maxAccountsDisplayed s
                                 | None => None
                                 end) 8 in
  let maxFailedAccounts := or_default (match security with
                                       | Some s => maxFailedAccountsDisplayed s
                                       | None => None
                                       end) 3 in
  let duration := JS.Math_round (inject_Z (totalExecutionTime summary) / 60)%Q in
  let successRate :=
    if totalAccounts summary >? 0
    then JS.Math_round (inject_Z (successfulAccounts summary)
                        / inject_Z (totalAccounts summary) * 100)%Q
    else 0 in
  let embedColor :=
    if successRate >=? 90 then green
    else if successRate >=? 70 then orange
    else red in
  let successfulField :=
    if successfulAccounts summary >? 0 then
      let accountDetails :=
        slice0 (filter (fun account => success account) (accountResults summary))
               maxAccounts in
      match accountDetails with
      | [] => None
      | _ => Some accountDetails
      end
    else None in
  let failedField :=
    if failedAccounts summary >? 0 then
      let failedCount := Z.min (failedAccounts summary) maxFailedAccounts in
      let failedDetails :=
        slice0 (filter (fun account => negb (success account)) (accountResults summary))
               failedCount in
      match failedDetails with
      | [] => None
      | _ => Some failedDetails
      end
    else None in
  {| color := embedColor;
     duration := duration;
     successRate := successRate;
     successfulField := successfulField;
     failedField := failedField |}.

(** *** Masking *)

(** [s.split(sep)] for a separator of one character. *)
Fixpoint split (sep : ascii) (s : string) : list string :=
  match s with
  | EmptyString => [EmptyString]
  | String c rest =>
      if Ascii.eqb c sep then EmptyString :: split sep rest
      else match split sep rest with
           | part :: parts => String c part :: parts
           | [] => [String c EmptyString]
           end
  end.

(** [maskEmail(email)].  The destructuring [[localPart, domain]] takes the
    first two parts and leaves a missing one undefined. *)
Definition maskEmail (email : string) : string :=
  let parts := split "@" email in
  match nth_error parts 0, nth_error parts 1 with
  | Some localPart, Some domain =>
      if String.eqb localPart "" || String.eqb domain "" then "***@***.com"%string
      else
        let maskedLocal :=
          if (3 <? String.length localPart)%nat
          then String.append (substring 0 2 localPart) "***"
          else "***"%string in
        String.append maskedLocal (String.append "@" domain)
  | _, _ => "***@***.com"%string
  end.

End FinalWebhook.

(** ** index.ts: the pass orchestrator *)

Module Bot.

Module FW := FinalWebhook.

Local Open Scope Z_scope.

Record Account : Type := { email : string }.

Record ConfigWorkers : Type := {
  doDailySet : bool;
  doMorePromotions : bool;
  doPunchCards : bool;
  doDesktopSearch : bool;
  doMobileSearch : bool;
  doDailyCheckIn : bool;
  doReadToEarn : bool
}.

(** The part of [Config] read by the orchestrator.  [None] is a key that is
    absent from config.json.  Only the sequential branch of
    [runAllAccounts] ([config.parallel] false) is modelled. *)
Record Config : Type := {
  runOnZeroPoints : bool;
  workers : ConfigWorkers;
  retryMobileSearchAmount : Z;      (* searchSettings.retryMobileSearchAmount *)
  dailyRetries : option Z;
  retryDelayMinutes : option Z;
  finalWebhookEnabled : bool        (* finalWebhook?.enabled *)
}.

(** The mutable fields of [MicrosoftRewardsBot] that decide what the passes
    record ([isMobile], [pointsCanCollect], [accessToken] and the page
    handles only serve logging and the collaborators). *)
Record State : Type := {
  pointsInitial : Z;
  mobileRetryAttempts : Z;
  accountResults : list FW.AccountResult;
  executionStartTime : Z
}.

Definition set_pointsInitial (v : Z) (b : State) : State :=
  {| pointsInitial := v;
     mobileRetryAttempts := mobileRetryAttempts b;
     accountResults := accountResults b;
     executionStartTime := executionStartTime b |}.

Definition set_mobileRetryAttempts (v : Z) (b : State) : State :=
  {| pointsInitial := pointsInitial b;
     mobileRetryAttempts := v;
     accountResults := accountResults b;
     executionStartTime := executionStartTime b |}.

Definition set_accountResults (v : list FW.AccountResult) (b : State) : State :=
  {| pointsInitial := pointsInitial b;
     mobileRetryAttempts := mobileRetryAttempts b;
     accountResults := v;
     executionStartTime := executionStartTime b |}.

(** [x || d] on a number that may be absent. *)
Definition or_default (x : option Z) (d : Z) : Z :=
  match x with
  | Some 0 | None => d
  | Some v => v
  end.

(** How a call of an async method ends. *)
Inductive Completion : Type :=
| Returned
| Threw (error : string).

(** What the browser, login and worker collaborators do during one call of
    [Desktop]: where it throws, if it does, and the numbers it reads. *)
Inductive DesktopRun : Type :=
| DesktopThrowsBeforeDashboard (error : string)
    (* createBrowser, login, goHome or getDashboardData throws *)
| DesktopThrowsAfterDashboard (availablePoints : Z) (error : string)
    (* a later call throws, up to and including getCurrentPoints *)
| DesktopRuns (availablePoints earnable pointsAfter : Z) (saveError : option string).
    (* getCurrentPoints is reached; saveSessionData / closeBrowser may throw *)

(** The same for [Mobile].  [mobileSearch] is [None] when the dashboard has
    no mobile search counter, and [Some incomplete] otherwise, [incomplete]
    telling whether search points remain after [doSearch].  [again]
    describes the nested call made by the retry branch. *)
Inductive MobileRun : Type :=
| MobileThrows (error : string)
    (* a call throws before the search points are fetched *)
| MobileThrowsAfterSearch (earnable : Z) (incomplete : bool) (error : string)
    (* closeBrowser or getCurrentPoints throws after the search *)
| MobileRuns (earnable : Z) (mobileSearch : option bool) (afterPointAmount : Z)
             (closeError : option string) (again : MobileRun).
    (* getCurrentPoints is reached, or the retry branch is taken *)

Record Work : Type := {
  desktop : DesktopRun;
  mobile : MobileRun;
  elapsedSeconds : Z   (* Math.round((Date.now() - accountStartTime) / 1000) *)
}.

(** Observable steps of a run. *)
Inductive Event : Type :=
| DesktopCalled (account : Account) (passNumber : Z)
| MobileCalled (account : Account) (passNumber : Z)
| ResultPushed (email : string)
| Waited (ms : Z).

(** [accountResults.find(p)] followed by assignments to the record found:
    the first match is changed in place, nothing happens without a match. *)
Fixpoint updateFound (p : FW.AccountResult -> bool)
    (f : FW.AccountResult -> FW.AccountResult)
    (results : list FW.AccountResult) : list FW.AccountResult :=
  match results with
  | [] => []
  | r :: rest => if p r then f r :: rest else r :: updateFound p f rest
  end.

Definition completes (err : option string) : Completion :=
  match err with
  | Some e => Threw e
  | None => Returned
  end.

Section Passes.

Variable config : Config.

(** The external world: what happens when the work for [account] is run in
    pass [passNumber]. *)
Variable world : Z -> Account -> Work.

(** Assignments made by [Desktop] to the record it finds. *)
Definition desktopUpdate (pointsInitial pointsAfter tasksCompleted : Z)
    (r : FW.AccountResult) : FW.AccountResult :=
  {| FW.email := FW.email r;
     FW.pointsBefore := pointsInitial;
     FW.pointsAfter := pointsAfter;
     FW.pointsGained := Z.max 0 (pointsAfter - pointsInitial);
     FW.tasksCompleted := tasksCompleted;
     FW.executionDuration := FW.executionDuration r;
     FW.success := FW.success r;
     FW.errorMessage := FW.errorMessage r |}.

(** Assignments made by [Mobile] to the record it finds. *)
Definition mobileUpdate (afterPointAmount tasksCompleted : Z)
    (r : FW.AccountResult) : FW.AccountResult :=
  {| FW.email := FW.email r;
     FW.pointsBefore := FW.pointsBefore r;
     FW.pointsAfter := afterPointAmount;
     FW.pointsGained := Z.max 0 (afterPointAmount - FW.pointsBefore r);
     FW.tasksCompleted := FW.tasksCompleted r + tasksCompleted;
     FW.executionDuration := FW.executionDuration r;
     FW.success := FW.success r;
     FW.errorMessage := FW.errorMessage r |}.

Definition sameEmail (account : Account) (result : FW.AccountResult) : bool :=
  String.eqb (FW.email result) (email account).

(** [Desktop(account, passNumber)]. *)
Definition Desktop (run : DesktopRun) (account : Account) (passNumber : Z)
    (b : State) : State * Completion :=
  match run with
  | DesktopThrowsBeforeDashboard error => (b, Threw error)
  | DesktopThrowsAfterDashboard availablePoints error =>
      (set_pointsInitial availablePoints b, Threw error)
  | DesktopRuns availablePoints pointsCanCollect pointsAfter saveError =>
      let b := set_pointsInitial availablePoints b in
      if negb (runOnZeroPoints config) && (pointsCanCollect =? 0) then (b, Returned)
      else
        let w := workers config in
        let tasksCompleted := 0 in
        let tasksCompleted := if doDailySet w then tasksCompleted + 1 else tasksCompleted in
        let tasksCompleted := if doMorePromotions w then tasksCompleted + 1 else tasksCompleted in
        let tasksCompleted := if doPunchCards w then tasksCompleted + 1 else tasksCompleted in
        let tasksCompleted := if doDesktopSearch w then tasksCompleted + 1 else tasksCompleted in
        let b :=
          if passNumber =? 1
          then set_accountResults
                 (updateFound (sameEmail account)
                    (desktopUpdate (pointsInitial b) pointsAfter tasksCompleted)
                    (accountResults b)) b
          else b in
        (b, completes saveError)
  end.

(** The tail of [Mobile], from [getCurrentPoints] on. *)
Definition mobileFinish (account : Account) (passNumber afterPointAmount tasksCompleted : Z)
    (closeError : option string) (b : State) : State * Completion :=
  let b :=
    if passNumber =? 1
    then set_accountResults
           (updateFound (sameEmail account)
              (mobileUpdate afterPointAmount tasksCompleted)
              (accountResults b)) b
    else b in
  (b, completes closeError).

(** [Mobile(account, passNumber)]. *)
Fixpoint Mobile (run : MobileRun) (account : Account) (passNumber : Z)
    (b : State) : State * Completion :=
  match run with
  | MobileThrows error => (b, Threw error)
  | MobileThrowsAfterSearch pointsCanCollect incomplete error =>
      if negb (runOnZeroPoints config) && (pointsCanCollect =? 0) then (b, Returned)
      else
        let b := if doMobileSearch (workers config) && incomplete
                 then set_mobileRetryAttempts (mobileRetryAttempts b + 1) b
                 else b in
        (b, Threw error)
  | MobileRuns pointsCanCollect mobileSearch afterPointAmount closeError again =>
      if negb (runOnZeroPoints config) && (pointsCanCollect =? 0) then (b, Returned)
      else
        let w := workers config in
        let tasksCompleted := 0 in
        let tasksCompleted := if doDailyCheckIn w then tasksCompleted + 1 else tasksCompleted in
        let tasksCompleted := if doReadToEarn w then tasksCompleted + 1 else tasksCompleted in
        if doMobileSearch w then
          match mobileSearch with
          | Some incomplete =>
              let tasksCompleted := tasksCompleted + 1 in
              let b := if incomplete
                       then set_mobileRetryAttempts (mobileRetryAttempts b + 1) b
                       else b in
              if mobileRetryAttempts b >? retryMobileSearchAmount config then
                mobileFinish account passNumber afterPointAmount tasksCompleted closeError b
              else if negb (mobileRetryAttempts b =? 0) then
                Mobile again account passNumber b
              else
                mobileFinish account passNumber afterPointAmount tasksCompleted closeError b
          | None =>
              mobileFinish account passNumber afterPointAmount tasksCompleted closeError b
          end
        else
          mobileFinish account passNumber afterPointAmount tasksCompleted closeError b
  end.

(** One round of the [for (const account of accounts)] loop of
    [runAllAccounts]: the guarded work, then the bookkeeping. *)
Definition runAccount (account : Account) (passNumber : Z) (b : State)
    : State * list Event :=
  let work := world passNumber account in
  (* try { await this.Desktop(...); await this.Mobile(...) } catch { ... } *)
  let '(b, outcome, calls) :=
    match Desktop (desktop work) account passNumber b with
    | (b, Threw error) => (b, Threw error, [DesktopCalled account passNumber])
    | (b, Returned) =>
        let '(b, outcome) := Mobile (mobile work) account passNumber b in
        (b, outcome, [DesktopCalled account passNumber; MobileCalled account passNumber])
    end in
  let '(accountSuccess, errorMessage) :=
    match outcome with
    | Returned => (true, None)
    | Threw error => (false, Some error)
    end in
  if passNumber =? 1 then
    let accountResult :=
      FW.createAccountResult (email account)
        (or_default (Some (pointsInitial b)) 0)
        (or_default (Some (pointsInitial b)) 0)
        0
        (elapsedSeconds work)
        accountSuccess errorMessage in
    (set_accountResults (accountResults b ++ [accountResult]) b,
     calls ++ [ResultPushed (email account)])
  else (b, calls).

(** [runAllAccounts(accounts, passNumber, totalPasses)]. *)
Fixpoint runAllAccounts (accounts : list Account) (passNumber : Z) (b : State)
    : State * list Event :=
  match accounts with
  | [] => (b, [])
  | account :: rest =>
      let '(b, t1) := runAccount account passNumber b in
      let '(b, t2) := runAllAccounts rest passNumber b in
      (b, t1 ++ t2)
  end.

(** The [for (let retryNum = 1; retryNum <= additionalRetries; retryNum++)]
    loop of [runTasks], from [retryNum] on. *)
Equations? retryPasses (accounts : list Account) (additionalRetries retryDelay retryNum : Z)
    (b : State) : State * list Event
  by wf (Z.to_nat (additionalRetries + 1 - retryNum)) lt :=
  retryPasses accounts additionalRetries retryDelay retryNum b
    with Z_le_dec retryNum additionalRetries => {
    | left _ :=
        let currentPass := retryNum + 1 in
        let '(b1, t1) := runAllAccounts accounts currentPass b in
        let '(b2, t2) := retryPasses accounts additionalRetries retryDelay (retryNum + 1) b1 in
        (b2, Waited retryDelay :: t1 ++ t2);
    | right _ := (b, []) }.
Proof. lia. Qed.

Record Run : Type := {
  final : State;
  trace : list Event;
  totalPasses : Z;
  summary : option FW.FinalSummary   (* what sendFinalWebhook is given *)
}.

(** [sendFinalNotification(retryPassesUsed)]; [endClock] is [new Date()]. *)
Definition sendFinalNotification (retryPassesUsed endClock : Z) (b : State)
    : option FW.FinalSummary :=
  if finalWebhookEnabled config
  then Some (FW.createFinalSummary (accountResults b) retryPassesUsed
               (executionStartTime b) endClock)
  else None.

(** [runTasks(accounts)], up to the final [process.exit()]. *)
Definition runTasks (accounts : list Account) (clock endClock : Z) (b : State) : Run :=
  let b := {| pointsInitial := pointsInitial b;
              mobileRetryAttempts := mobileRetryAttempts b;
              accountResults := [];
              executionStartTime := clock |} in
  let additionalRetries := or_default (dailyRetries config) 0 in
  let totalPasses := 1 + additionalRetries in
  let retryDelay := or_default (retryDelayMinutes config) 30 * 60 * 1000 in
  let '(b, t1) := runAllAccounts accounts 1 b in
  let '(b, t2) := retryPasses accounts additionalRetries retryDelay 1 b in
  {| final := b;
     trace := t1 ++ t2;
     totalPasses := totalPasses;
     summary := sendFinalNotification totalPasses endClock b |}.

End Passes.

(** *** The primary process *)

Section Cluster.

(** The fields of the primary process that [runMaster] and its exit
    handler use: the counter [activeWorkers], the chunks sent to the forked
    workers, and whether [process.exit] was called. *)
Record Primary : Type := {
  activeWorkers : Z;
  sent : list (list Account);
  exited : bool
}.

(** [runMaster()] up to the registration of the exit handler: one worker is
    forked for each chunk and is sent that chunk.  [activeWorkers] was set
    to [config.clusters] by the constructor.  [None] stands for a
    [chunkArray] that does not return. *)
Definition runMaster (accounts : list Account) (clusters : nat) : option Primary :=
  match Util.chunkArray accounts clusters with
  | Some accountChunks =>
      Some {| activeWorkers := Z.of_nat clusters; sent := accountChunks; exited := false |}
  | None => None
  end.

(** The handler of [cluster.on('exit')], called once for each worker that
    ends; nothing runs after [process.exit]. *)
Definition onExit (p : Primary) : Primary :=
  if exited p then p
  else
    let activeWorkers := activeWorkers p - 1 in
    {| activeWorkers := activeWorkers;
       sent := sent p;
       exited := activeWorkers =? 0 |}.

(** The primary process after [count] workers have ended. *)
Fixpoint afterExits (count : nat) (p : Primary) : Primary :=
  match count with
  | O => p
  | S count => afterExits count (onExit p)
  end.

End Cluster.

End Bot.

(** ** Logging and exceptions *)

Module Eff.

Inductive Level : Type := LevelLog | LevelWarn | LevelError.

(** One call of [log('main', title, message, level)]. *)
Record LogEntry : Type := {
  title : string;
  message : string;
  level : Level
}.

Inductive JSError : Type :=
| ReferenceError (variable : string)   (* Cannot access 'variable' before initialization *)
| SyntaxError (input : string)         (* JSON.parse *)
| SystemError (description : string)   (* fs *)
| RangeError                           (* Maximum call stack size exceeded *)
| InvalidDate                          (* a time of day that is not a number *)
| Error (description : string).

Inductive Outcome (A : Type) : Type :=
| Ok (value : A)
| Throw (error : JSError).
Arguments Ok {A} value.
Arguments Throw {A} error.

(** A computation that writes log lines and returns or throws. *)
Definition t (A : Type) : Type := (list LogEntry * Outcome A)%type.

Definition ret {A} (a : A) : t A := ([], Ok a).

Definition throw {A} (e : JSError) : t A := ([], Throw e).

Definition log (title message : string) (level : Level) : t unit :=
  ([{| title := title; message := message; level := level |}], Ok tt).

Definition bind {A B} (m : t A) (k : A -> t B) : t B :=
  match m with
  | (l1, Ok a) => let '(l2, r) := k a in (l1 ++ l2, r)
  | (l1, Throw e) => (l1, Throw e)
  end.

(** [try { body } catch (error) { handler }]. *)
Definition try_catch {A} (body : t A) (handler : JSError -> t A) : t A :=
  match body with
  | (l1, Throw e) => let '(l2, r) := handler e in (l1 ++ l2, r)
  | done => done
  end.

Definition logs {A} (m : t A) : list LogEntry := fst m.
Definition outcome {A} (m : t A) : Outcome A := snd m.

End Eff.

Declare Scope eff_scope.
Delimit Scope eff_scope with eff.
Notation "x <- m ;; k" := (Eff.bind m (fun x => k))
  (at level 61, m at next level, right associativity) : eff_scope.
Notation "m ;;; k" := (Eff.bind m (fun _ => k))
  (at level 61, right associativity) : eff_scope.

(** ** The host: [Date] *)

Module Host.

Local Open Scope Z_scope.

(** The [Date] operations the scheduler uses, on instants in epoch
    milliseconds. *)
Record t : Type := {
  getMonth : Z -> Z;            (* new Date(i).getMonth() *)
  getTimezoneOffset : Z -> Z;   (* new Date(i).getTimezoneOffset() *)
  setHours : Z -> Z -> Z -> Z;  (* d = new Date(i); d.setHours(h, m, 0, 0); d.getTime() *)
  nextDay : Z -> Z;             (* d = new Date(i); d.setDate(d.getDate() + 1); d.getTime() *)
  toISODate : Z -> string       (* new Date(i).toISOString().split('T')[0] *)
}.

Definition msPerDay : Z := 24 * 60 * 60 * 1000.

(** Year, month (1..12) and day of the proleptic Gregorian calendar from a
    count of days since 1970-01-01. *)
Definition civil (days : Z) : Z * Z * Z :=
  let z := days + 719468 in
  let era := z / 146097 in
  let doe := z - era * 146097 in
  let yoe := (doe - doe / 1460 + doe / 36524 - doe / 146096) / 365 in
  let doy := doe - (365 * yoe + yoe / 4 - yoe / 100) in
  let mp := (5 * doy + 2) / 153 in
  let d := doy - (153 * mp + 2) / 5 + 1 in
  let m := if mp <? 10 then mp + 3 else mp - 9 in
  let y := yoe + era * 400 + (if m <=? 2 then 1 else 0) in
  (y, m, d).

Definition digit (n : Z) : ascii := ascii_of_nat (48 + Z.to_nat (n mod 10)).

(** [n] in decimal, on exactly [width] digits. *)
Fixpoint padded (width : nat) (n : Z) : string :=
  match width with
  | O => EmptyString
  | S w => (padded w (n / 10) ++ String (digit n) EmptyString)%string
  end.

(** The date part of [toISOString()] for a day count. *)
Definition isoDate (days : Z) : string :=
  let '(y, m, d) := civil days in
  let sign : string := if y <? 0 then "-"%string else "+"%string in
  let year : string :=
    if (0 <=? y) && (y <=? 9999) then padded 4 y
    else String.append sign (padded 6 (Z.abs y)) in
  (year ++ "-" ++ padded 2 m ++ "-" ++ padded 2 d)%string.

(** A host whose local zone is a fixed [offset] (the constant value of
    [getTimezoneOffset()], minutes behind UTC) with no daylight saving. *)
Definition fixedOffset (offset : Z) : t :=
  let localDay i := (i - offset * 60000) / msPerDay in
  {| getMonth := fun i => snd (fst (civil (localDay i))) - 1;
     getTimezoneOffset := fun _ => offset;
     setHours := fun i h m =>
       localDay i * msPerDay + h * 3600000 + m * 60000 + offset * 60000;
     nextDay := fun i => i + msPerDay;
     toISODate := fun i => isoDate (i / msPerDay) |}.

(** A host running in UTC. *)
Definition utc : t := fixedOffset 0.

End Host.

(** ** util/Scheduler.ts: configuration, time computation, persisted state *)

Module Scheduler.

Local Open Scope Z_scope.
Local Open Scope eff_scope.

(** *** Data *)

Record SchedulerState : Type := {
  lastRunDate : string;
  nextRunTime : Z;
  consecutiveFailures : Z;
  isRunning : bool;
  lastFailureTime : option Z      (* optional field *)
}.

Module RandomDelayMinutes.
Record t : Type := { min : Z; max : Z }.
End RandomDelayMinutes.

Module RetryOnFailure.
Record t : Type := { enabled : bool; maxRetries : Z; retryDelayMinutes : Z }.
End RetryOnFailure.

(** [ConfigScheduler] of interface/Config.ts. *)
Record ConfigScheduler : Type := {
  enabled : bool;
  dailyRunTime : string;
  timezone : string;
  randomDelayMinutes : RandomDelayMinutes.t;
  retryOnFailure : RetryOnFailure.t
}.

(** *** The time-of-day string *)

Definition charBetween (lo hi c : ascii) : bool :=
  (nat_of_ascii lo <=? nat_of_ascii c)%nat && (nat_of_ascii c <=? nat_of_ascii hi)%nat.

Definition isDigit (c : ascii) : bool := charBetween "0" "9" c.

(** [/^([01]?[0-9]|2[0-3]):[0-5][0-9]$/.test(s)]. *)
Definition timeRegex_test (s : string) : bool :=
  match list_ascii_of_string s with
  | [h; colon; m1; m2] =>
      isDigit h && Ascii.eqb colon ":" && charBetween "0" "5" m1 && isDigit m2
  | [h1; h2; colon; m1; m2] =>
      ((charBetween "0" "1" h1 && isDigit h2)
       || (Ascii.eqb h1 "2" && charBetween "0" "3" h2))
      && Ascii.eqb colon ":" && charBetween "0" "5" m1 && isDigit m2
  | _ => false
  end.

(** [s.split(':')]. *)
Fixpoint split_colon (s : string) : list string :=
  match s with
  | EmptyString => [EmptyString]
  | String c rest =>
      if Ascii.eqb c ":" then EmptyString :: split_colon rest
      else match split_colon rest with
           | part :: parts => String c part :: parts
           | [] => [String c EmptyString]
           end
  end.

(** [Number(s)] on a string of decimal digits ([Number("") = 0]); [None]
    for anything else, which the regular expression above rejects. *)
Fixpoint digitsValue (acc : Z) (s : string) : option Z :=
  match s with
  | EmptyString => Some acc
  | String c rest =>
      if isDigit c
      then digitsValue (acc * 10 + (Z.of_nat (nat_of_ascii c) - 48)) rest
      else None
  end.

Definition Number (s : string) : option Z := digitsValue 0 s.

(** [const [hours, minutes] = dailyRunTime.split(':').map(Number)]. *)
Definition hoursMinutes (dailyRunTime : string) : option (Z * Z) :=
  match split_colon dailyRunTime with
  | h :: m :: _ =>
      match Number h, Number m with
      | Some hours, Some minutes => Some (hours, minutes)
      | _, _ => None
      end
  | _ => None
  end.

(** *** Persisted state *)

(** The fields found in a state file that parses. *)
Record StoredFields : Type := {
  stored_lastRunDate : option string;
  stored_nextRunTime : option Z;
  stored_consecutiveFailures : option Z;
  stored_isRunning : option bool;
  stored_lastFailureTime : option Z
}.

Inductive FileContent : Type :=
| Garbage (text : string)          (* JSON.parse throws a SyntaxError *)
| Json (fields : StoredFields).    (* JSON.parse returns an object *)

(** scheduler-state.json as [existsSync] and [readFileSync] see it. *)
Inductive StateFile : Type :=
| Missing
| Unreadable (description : string)
| Present (content : FileContent).

Definition existsSync (file : StateFile) : bool :=
  match file with
  | Missing => false
  | _ => true
  end.

Definition readFileSync (file : StateFile) : Eff.t FileContent :=
  match file with
  | Present content => Eff.ret content
  | Unreadable description => Eff.throw (Eff.SystemError description)
  | Missing => Eff.throw (Eff.SystemError "ENOENT")
  end.

Definition JSON_parse (content : FileContent) : Eff.t StoredFields :=
  match content with
  | Json fields => Eff.ret fields
  | Garbage text => Eff.throw (Eff.SyntaxError text)
  end.

Definition orElse {A} (x : option A) (d : A) : A :=
  match x with
  | Some v => v
  | None => d
  end.

(** [{ ...defaultState, ...parsed }]. *)
Definition spread (defaultState : SchedulerState) (parsed : StoredFields) : SchedulerState :=
  {| lastRunDate := orElse (stored_lastRunDate parsed) (lastRunDate defaultState);
     nextRunTime := orElse (stored_nextRunTime parsed) (nextRunTime defaultState);
     consecutiveFailures :=
       orElse (stored_consecutiveFailures parsed) (consecutiveFailures defaultState);
     isRunning := orElse (stored_isRunning parsed) (isRunning defaultState);
     lastFailureTime :=
       match stored_lastFailureTime parsed with
       | Some v => Some v
       | None => lastFailureTime defaultState
       end |}.

Definition defaultState : SchedulerState :=
  {| lastRunDate := "";
     nextRunTime := 0;
     consecutiveFailures := 0;
     isRunning := false;
     lastFailureTime := None |}.

(** [loadState()]. *)
Definition loadState (file : StateFile) : Eff.t SchedulerState :=
  if negb (existsSync file) then Eff.ret defaultState
  else
    Eff.try_catch
      (stateData <- readFileSync file ;;
       parsed <- JSON_parse stateData ;;
       Eff.ret (spread defaultState parsed))
      (fun error =>
         Eff.log "SCHEDULER" "Failed to load scheduler state" Eff.LevelWarn ;;;
         Eff.ret defaultState).

(** [JSON.stringify(this.state)]: every field but an undefined
    [lastFailureTime]. *)
Definition stringify (state : SchedulerState) : FileContent :=
  Json {| stored_lastRunDate := Some (lastRunDate state);
          stored_nextRunTime := Some (nextRunTime state);
          stored_consecutiveFailures := Some (consecutiveFailures state);
          stored_isRunning := Some (isRunning state);
          stored_lastFailureTime := lastFailureTime state |}.

(** *** Time computation *)

(** A [const] declared in one clause of a [switch] block: every clause of
    the block sees the binding, and it stays uninitialised until the
    declaring clause has run.  Reading it before that throws. *)
Inductive Binding (A : Type) : Type :=
| Uninitialised
| Initialised (value : A).
Arguments Uninitialised {A}.
Arguments Initialised {A} value.

Definition read {A} (name : string) (binding : Binding A) : Eff.t A :=
  match binding with
  | Initialised value => Eff.ret value
  | Uninitialised => Eff.throw (Eff.ReferenceError name)
  end.

Section Calculator.

Variable host : Host.t.
Variable config : ConfigScheduler.

(** [validateConfig()], the scheduler block being present. *)
Definition validateConfig : Eff.t bool :=
  if negb (timeRegex_test (dailyRunTime config)) then
    Eff.log "SCHEDULER" "Invalid dailyRunTime format. Use HH:MM format" Eff.LevelError ;;;
    Eff.ret false
  else if RandomDelayMinutes.min (randomDelayMinutes config)
          >=? RandomDelayMinutes.max (randomDelayMinutes config) then
    Eff.log "SCHEDULER" "Invalid randomDelayMinutes: min must be less than max"
            Eff.LevelError ;;;
    Eff.ret false
  else Eff.ret true.

(** [getConfiguredTimezoneOffset()].  [clock] is the instant of the call. *)
Definition getConfiguredTimezoneOffset (clock : Z) : Eff.t Z :=
  let configuredTz := timezone config in
  if String.eqb configuredTz "UTC" then
    Eff.ret 0
  else if String.eqb configuredTz "Europe/Paris" || String.eqb configuredTz "CET" then
    (* const now = new Date() *)
    let now := Initialised clock in
    d <- read "now" now ;;
    let isJuly := Host.getMonth host d =? 6 in
    let isDST := isJuly || ((Host.getMonth host d >=? 2) && (Host.getMonth host d <=? 9)) in
    Eff.ret (if isDST then -2 * 60 * 60 * 1000 else -1 * 60 * 60 * 1000)
  else if String.eqb configuredTz "America/New_York" || String.eqb configuredTz "EST" then
    (* the switch jumped over the clause that declares [now] *)
    let now : Binding Z := Uninitialised in
    d <- read "now" now ;;
    let isNYDST := (Host.getMonth host d >=? 2) && (Host.getMonth host d <=? 10) in
    Eff.ret (if isNYDST then 4 * 60 * 60 * 1000 else 5 * 60 * 60 * 1000)
  else
    Eff.log "SCHEDULER"
      (String.append "Unknown timezone "
         (String.append configuredTz ", using system timezone"))
      Eff.LevelWarn ;;;
    Eff.ret (- Host.getTimezoneOffset host clock * 60 * 1000).

(** [getScheduledTimeForDate(date)].  A [dailyRunTime] that is not digits
    around a colon never gets here ([start] returns when [validateConfig]
    fails); the model stops on it with [InvalidDate]. *)
Definition getScheduledTimeForDate (clock date : Z) : Eff.t Z :=
  match hoursMinutes (dailyRunTime config) with
  | Some (hours, minutes) =>
      let scheduledDate := Host.setHours host date hours minutes in
      timezoneOffsetMs <- getConfiguredTimezoneOffset clock ;;
      Eff.ret (scheduledDate + timezoneOffsetMs)
  | None => Eff.throw Eff.InvalidDate
  end.

(** [getTodayScheduledTime()]. *)
Definition getTodayScheduledTime (clock : Z) : Eff.t Z :=
  getScheduledTimeForDate clock clock.

(** [getTomorrowScheduledTime()]. *)
Definition getTomorrowScheduledTime (clock : Z) : Eff.t Z :=
  let tomorrow := Host.nextDay host clock in
  getScheduledTimeForDate clock tomorrow.

(** [getRandomDelay()]. *)
Definition getRandomDelay (rand : Q) : Z :=
  let min := RandomDelayMinutes.min (randomDelayMinutes config) in
  let max := RandomDelayMinutes.max (randomDelayMinutes config) in
  let randomMinutes := JS.Math_floor (rand * inject_Z (max - min + 1))%Q + min in
  randomMinutes * 60 * 1000.

(** [calculateNextRunTime()]. *)
Definition calculateNextRunTime (clock : Z) (rand : Q) : Eff.t Z :=
  todayScheduledTime <- getTodayScheduledTime clock ;;
  targetTime <-
    (if clock >=? todayScheduledTime
     then getTomorrowScheduledTime clock
     else Eff.ret todayScheduledTime) ;;
  let randomDelayMs := getRandomDelay rand in
  Eff.ret (targetTime + randomDelayMs).

(** [getTodayDateString()]. *)
Definition getTodayDateString (clock : Z) : Eff.t string :=
  let dateStr := Host.toISODate host clock in
  if String.eqb dateStr "" then Eff.throw (Eff.Error "Failed to get current date string")
  else Eff.ret dateStr.

(** Truthiness of an optional number. *)
Definition truthy (x : option Z) : bool :=
  match x with
  | Some v => negb (v =? 0)
  | None => false
  end.

(** [shouldRunNow()]. *)
Definition shouldRunNow (state : SchedulerState) (clock : Z) : Eff.t bool :=
  today <- getTodayDateString clock ;;
  let now := clock in
  if String.eqb (lastRunDate state) "" then Eff.ret true
  else
    early <-
      (if negb (String.eqb (lastRunDate state) today) then
         todayScheduledTime <- getTodayScheduledTime clock ;;
         Eff.ret (now >=? todayScheduledTime)
       else Eff.ret false) ;;
    if early : bool then Eff.ret true
    else if RetryOnFailure.enabled (retryOnFailure config)
            && (consecutiveFailures state >? 0)
            && truthy (lastFailureTime state) then
      let retryDelay := RetryOnFailure.retryDelayMinutes (retryOnFailure config) * 60 * 1000 in
      if now >=? orElse (lastFailureTime state) 0 + retryDelay then Eff.ret true
      else Eff.ret false
    else Eff.ret false.

End Calculator.

(** *** The scheduler object *)

Inductive TimerKind : Type :=
| DailyTimer      (* armed by scheduleNext, kept in this.schedulerTimer *)
| RetryTimer.     (* armed by the failure path, no handle kept *)

(** A pending [setTimeout] whose callback is [this.executeWithRetry()]. *)
Record Timer : Type := { kind : TimerKind; fireAt : Z }.

Definition Timer_eqb (a b : Timer) : bool :=
  match kind a, kind b with
  | DailyTimer, DailyTimer | RetryTimer, RetryTimer => fireAt a =? fireAt b
  | _, _ => false
  end.

(** A [DailyScheduler] with the part of the process it acts on.  An
    [executeWithRetry] suspended at [await this.executeMainScript()] is
    [inFlight], holding its local [today] and [startTime]. *)
Record Machine : Type := {
  state : SchedulerState;
  schedulerTimer : option Timer;
  pending : list Timer;
  isShuttingDown : bool;
  stateFile : StateFile;
  inFlight : option (string * Z);
  scriptRuns : list Z;            (* instants at which executeMainScript was called *)
  journal : list Eff.LogEntry;
  draws : nat                     (* calls of Math.random() so far *)
}.

Definition with_state (f : SchedulerState -> SchedulerState) (m : Machine) : Machine :=
  {| state := f (state m); schedulerTimer := schedulerTimer m; pending := pending m;
     isShuttingDown := isShuttingDown m; stateFile := stateFile m;
     inFlight := inFlight m; scriptRuns := scriptRuns m; journal := journal m;
     draws := draws m |}.

Definition with_timers (handle : option Timer) (timers : list Timer) (m : Machine) : Machine :=
  {| state := state m; schedulerTimer := handle; pending := timers;
     isShuttingDown := isShuttingDown m; stateFile := stateFile m;
     inFlight := inFlight m; scriptRuns := scriptRuns m; journal := journal m;
     draws := draws m |}.

Definition with_isShuttingDown (v : bool) (m : Machine) : Machine :=
  {| state := state m; schedulerTimer := schedulerTimer m; pending := pending m;
     isShuttingDown := v; stateFile := stateFile m;
     inFlight := inFlight m; scriptRuns := scriptRuns m; journal := journal m;
     draws := draws m |}.

Definition with_stateFile (v : StateFile) (m : Machine) : Machine :=
  {| state := state m; schedulerTimer := schedulerTimer m; pending := pending m;
     isShuttingDown := isShuttingDown m; stateFile := v;
     inFlight := inFlight m; scriptRuns := scriptRuns m; journal := journal m;
     draws := draws m |}.

Definition with_inFlight (v : option (string * Z)) (runs : list Z) (m : Machine) : Machine :=
  {| state := state m; schedulerTimer := schedulerTimer m; pending := pending m;
     isShuttingDown := isShuttingDown m; stateFile := stateFile m;
     inFlight := v; scriptRuns := runs; journal := journal m;
     draws := draws m |}.

Definition with_journal (v : list Eff.LogEntry) (m : Machine) : Machine :=
  {| state := state m; schedulerTimer := schedulerTimer m; pending := pending m;
     isShuttingDown := isShuttingDown m; stateFile := stateFile m;
     inFlight := inFlight m; scriptRuns := scriptRuns m; journal := v;
     draws := draws m |}.

Definition with_draws (v : nat) (m : Machine) : Machine :=
  {| state := state m; schedulerTimer := schedulerTimer m; pending := pending m;
     isShuttingDown := isShuttingDown m; stateFile := stateFile m;
     inFlight := inFlight m; scriptRuns := scriptRuns m; journal := journal m;
     draws := v |}.

Definition set_lastRunDate (v : string) (s : SchedulerState) : SchedulerState :=
  {| lastRunDate := v; nextRunTime := nextRunTime s;
     consecutiveFailures := consecutiveFailures s; isRunning := isRunning s;
     lastFailureTime := lastFailureTime s |}.

Definition set_nextRunTime (v : Z) (s : SchedulerState) : SchedulerState :=
  {| lastRunDate := lastRunDate s; nextRunTime := v;
     consecutiveFailures := consecutiveFailures s; isRunning := isRunning s;
     lastFailureTime := lastFailureTime s |}.

Definition set_consecutiveFailures (v : Z) (s : SchedulerState) : SchedulerState :=
  {| lastRunDate := lastRunDate s; nextRunTime := nextRunTime s;
     consecutiveFailures := v; isRunning := isRunning s;
     lastFailureTime := lastFailureTime s |}.

Definition set_isRunning (v : bool) (s : SchedulerState) : SchedulerState :=
  {| lastRunDate := lastRunDate s; nextRunTime := nextRunTime s;
     consecutiveFailures := consecutiveFailures s; isRunning := v;
     lastFailureTime := lastFailureTime s |}.

Definition set_lastFailureTime (v : option Z) (s : SchedulerState) : SchedulerState :=
  {| lastRunDate := lastRunDate s; nextRunTime := nextRunTime s;
     consecutiveFailures := consecutiveFailures s; isRunning := isRunning s;
     lastFailureTime := v |}.

(** Methods of the object: they change the machine and return or throw;
    what was changed before a throw stays changed. *)
Definition Method (A : Type) : Type := Machine -> Machine * Eff.Outcome A.

Definition mret {A} (a : A) : Method A := fun m => (m, Eff.Ok a).

Definition mbind {A B} (c : Method A) (k : A -> Method B) : Method B :=
  fun m =>
    match c m with
    | (m1, Eff.Ok a) => k a m1
    | (m1, Eff.Throw e) => (m1, Eff.Throw e)
    end.

Definition get : Method Machine := fun m => (m, Eff.Ok m).

Definition modify (f : Machine -> Machine) : Method unit := fun m => (f m, Eff.Ok tt).

(** Runs a logging computation, its lines going to the journal. *)
Definition lift {A} (c : Eff.t A) : Method A :=
  fun m => (with_journal (journal m ++ Eff.logs c) m, Eff.outcome c).

Definition mlog (message : string) (level : Eff.Level) : Method unit :=
  lift (Eff.log "SCHEDULER" message level).

Declare Scope method_scope.
Delimit Scope method_scope with method.
Notation "x <~ c ;; k" := (mbind c (fun x => k))
  (at level 61, c at next level, right associativity) : method_scope.
Notation "c ;;~ k" := (mbind c (fun _ => k))
  (at level 61, right associativity) : method_scope.
Local Open Scope method_scope.

(** [clearTimeout(timer)]. *)
Fixpoint clearTimeout (timer : Timer) (timers : list Timer) : list Timer :=
  match timers with
  | [] => []
  | t :: rest => if Timer_eqb t timer then rest else t :: clearTimeout timer rest
  end.

Section Object.

Variable host : Host.t.
Variable config : ConfigScheduler.

(** The successive values of [Math.random()]. *)
Variable random : nat -> Q.

Definition Math_random : Method Q :=
  fun m => (with_draws (S (draws m)) m, Eff.Ok (random (draws m))).

(** [saveState()]; the write is taken to succeed. *)
Definition saveState : Method unit :=
  modify (fun m => with_stateFile (Present (stringify (state m))) m).

(** [scheduleNext()], given what its call of [this.executeWithRetry()]
    does. *)
Definition scheduleNext_calling (executeWithRetry : Method unit) (clock : Z) : Method unit :=
  m <~ get ;;
  if isShuttingDown m then mret tt
  else
    rand <~ Math_random ;;
    nextRunTime <~ lift (calculateNextRunTime host config clock rand) ;;
    let delay := nextRunTime - clock in
    if delay <=? 0 then executeWithRetry
    else
      mlog "Next run scheduled" Eff.LevelLog ;;~
      let timer := {| kind := DailyTimer; fireAt := clock + delay |} in
      modify (fun m => with_timers (Some timer) (pending m ++ [timer]) m) ;;~
      modify (with_state (set_nextRunTime nextRunTime)) ;;~
      saveState.

(** [executeWithRetry()] up to [await this.executeMainScript()].  [depth]
    bounds the nesting of calls: [scheduleNext] and [executeWithRetry] call
    each other without suspending. *)
Fixpoint executeWithRetry (depth : nat) (clock : Z) : Method unit :=
  match depth with
  | O => fun m => (m, Eff.Throw Eff.RangeError)
  | S depth =>
      m <~ get ;;
      if isRunning (state m) then
        mlog "Script is already running, skipping execution" Eff.LevelWarn
      else
        today <~ lift (getTodayDateString host clock) ;;
        if String.eqb (lastRunDate (state m)) today
           && (consecutiveFailures (state m) =? 0) then
          mlog "Script already completed successfully today" Eff.LevelLog ;;~
          scheduleNext_calling (executeWithRetry depth clock) clock
        else if RetryOnFailure.enabled (retryOnFailure config)
                && (consecutiveFailures (state m)
                    >=? RetryOnFailure.maxRetries (retryOnFailure config)) then
          mlog "Max retries exceeded for today" Eff.LevelError ;;~
          scheduleNext_calling (executeWithRetry depth clock) clock
        else
          modify (with_state (set_isRunning true)) ;;~
          saveState ;;~
          let startTime := clock in
          mlog "Starting scheduled Microsoft Rewards automation" Eff.LevelLog ;;~
          modify (fun m => with_inFlight (Some (today, startTime)) (scriptRuns m ++ [clock]) m)
  end.

Definition scheduleNext (depth : nat) (clock : Z) : Method unit :=
  scheduleNext_calling (executeWithRetry depth clock) clock.

(** The rest of [executeWithRetry()], when [executeMainScript()] settles at
    [clock]: [failure] is [None] if it resolved and the error if it
    rejected. *)
Definition executeWithRetry_resume (depth : nat) (failure : option string) (clock : Z)
    : Method unit :=
  m <~ get ;;
  match inFlight m with
  | None => mret tt
  | Some (today, startTime) =>
      modify (fun m => with_inFlight None (scriptRuns m) m) ;;~
      match failure with
      | None =>
          modify (with_state (set_lastRunDate today)) ;;~
          modify (with_state (set_consecutiveFailures 0)) ;;~
          modify (with_state (set_lastFailureTime None)) ;;~
          mlog "Scheduled run completed successfully" Eff.LevelLog
      | Some error =>
          modify (with_state (fun s =>
                    set_consecutiveFailures (consecutiveFailures s + 1) s)) ;;~
          modify (with_state (set_lastFailureTime (Some clock))) ;;~
          mlog (String.append "Scheduled run failed: " error) Eff.LevelError ;;~
          m <~ get ;;
          if RetryOnFailure.enabled (retryOnFailure config)
             && (consecutiveFailures (state m)
                 <? RetryOnFailure.maxRetries (retryOnFailure config)) then
            let retryDelay := RetryOnFailure.retryDelayMinutes (retryOnFailure config) in
            mlog "Retry scheduled" Eff.LevelWarn ;;~
            let timer := {| kind := RetryTimer; fireAt := clock + retryDelay * 60 * 1000 |} in
            modify (fun m => with_timers (schedulerTimer m) (pending m ++ [timer]) m)
          else mret tt
      end ;;~
      (* finally *)
      modify (with_state (set_isRunning false)) ;;~
      saveState ;;~
      m <~ get ;;
      if (consecutiveFailures (state m) =? 0)
         || (consecutiveFailures (state m)
             >=? RetryOnFailure.maxRetries (retryOnFailure config)) then
        scheduleNext depth clock
      else mret tt
  end.

(** A pending timer fires at [clock]. *)
Definition timerFires (depth : nat) (timer : Timer) (clock : Z) : Method unit :=
  modify (fun m => with_timers (schedulerTimer m) (clearTimeout timer (pending m)) m) ;;~
  executeWithRetry depth clock.

(** [start()]. *)
Definition start (depth : nat) (clock : Z) : Method unit :=
  if negb (enabled config) then
    mlog "Scheduler is disabled in config" Eff.LevelWarn
  else
    mlog "Starting daily scheduler system" Eff.LevelLog ;;~
    valid <~ lift (validateConfig config) ;;
    if negb valid then
      mlog "Invalid scheduler configuration. Scheduler disabled." Eff.LevelError
    else
      m <~ get ;;
      due <~ lift (shouldRunNow host config (state m) clock) ;;
      if due : bool then
        mlog "Immediate run required" Eff.LevelLog ;;~
        executeWithRetry depth clock
      else scheduleNext depth clock.

(** [stop()]. *)
Definition stop : Method unit :=
  mlog "Stopping scheduler" Eff.LevelWarn ;;~
  m <~ get ;;
  match schedulerTimer m with
  | Some timer =>
      modify (fun m => with_timers None (clearTimeout timer (pending m)) m)
  | None => mret tt
  end ;;~
  saveState.

(** [shutdown()]. *)
Definition shutdown : Method unit :=
  m <~ get ;;
  if isShuttingDown m then mret tt
  else
    modify (with_isShuttingDown true) ;;~
    mlog "Shutting down scheduler gracefully" Eff.LevelLog ;;~
    stop.

End Object.

(** [new DailyScheduler(config)] in a process whose state file is [file]. *)
Definition create (file : StateFile) : Machine :=
  let loaded := loadState file in
  {| state := match Eff.outcome loaded with
              | Eff.Ok s => s
              | Eff.Throw _ => defaultState
              end;
     schedulerTimer := None;
     pending := [];
     isShuttingDown := false;
     stateFile := file;
     inFlight := None;
     scriptRuns := [];
     journal := Eff.logs loaded;
     draws := 0 |}.

End Scheduler.

(** ** util/HumanBehavior.ts *)

Module Human.

Local Open Scope Q_scope.

Inductive Context : Type := Thinking | Reading | Typing | Loading | Scanning.

Inductive Direction : Type := Up | Down | Random.

(** [a < b] on numbers. *)
Definition Qlt_bool (a b : Q) : bool := negb (Qle_bool b a).

(** [randomInRange(min, max)]; [rand] is the draw of [Math.random()]. *)
Definition randomInRange (rand min max : Q) : Q := rand * (max - min) + min.

(** [calculateContextualWait(minMs, maxMs, context)]: the first draw gives
    the multiplier, the second the base time. *)
Definition calculateContextualWait (r1 r2 minMs maxMs : Q) (context : Context) : Z :=
  let multiplier :=
    match context with
    | Reading => randomInRange r1 (8 # 10) (14 # 10)
    | Thinking => randomInRange r1 (9 # 10) (16 # 10)
    | Typing => randomInRange r1 (7 # 10) (12 # 10)
    | Scanning => randomInRange r1 (5 # 10) (9 # 10)
    | Loading => randomInRange r1 1 (13 # 10)
    end in
  let baseTime := randomInRange r2 minMs maxMs in
  JS.Math_round (baseTime * multiplier).

(** [applyFatigue(waitTime)]; [now] is [Date.now()] and [executionStartTime]
    the bot's field, [None] before the first run. *)
Definition applyFatigue (now : Z) (executionStartTime : option Z) (waitTime : Q) : Q :=
  let sessionStart :=
    match executionStartTime with
    | Some 0%Z | None => now
    | Some t => t
    end in
  let sessionMinutes := inject_Z (now - sessionStart) / 60000 in
  if Qlt_bool 45 sessionMinutes then
    let fatigueMultiplier := 1 + (sessionMinutes - 45) * (1 # 100) in
    waitTime * Qmin fatigueMultiplier (15 # 10)
  else waitTime.

(** [humanWait(minMs, maxMs, context)]: the delay handed to [utils.wait].
    [random i] is the draw number [i] of [Math.random()] made by the
    call. *)
Definition humanWait (isEnabled : bool) (random : nat -> Q) (now : Z)
    (executionStartTime : option Z) (minMs maxMs : Q) (context : Context) : Q :=
  if negb isEnabled then
    let baseTime := (minMs + maxMs) / 2 in
    let variance := (maxMs - minMs) * (2 # 10) in
    let actualTime := baseTime + (random 0%nat - (1 # 2)) * variance in
    JS.Math_max minMs (Qmin maxMs actualTime)
  else
    let waitTime :=
      inject_Z (calculateContextualWait (random 0%nat) (random 1%nat) minMs maxMs context) in
    let waitTime := applyFatigue now executionStartTime waitTime in
    if Qlt_bool (random 2%nat) (5 # 100)
    then waitTime + randomInRange (random 3%nat) 2000 8000
    else waitTime.

(** [humanScroll(page, direction)] when no call throws: the vertical deltas
    of the [page.mouse.wheel] calls, in order.  [coin] is the draw that
    picks the direction (made only for ['random']) and [rand] the draw of
    the scroll amount. *)
Definition humanScroll (isEnabled : bool) (coin rand : Q) (direction : Direction)
    : list Q :=
  if negb isEnabled then []
  else
    let up :=
      match direction with
      | Random => Qlt_bool (7 # 10) coin
      | Up => true
      | Down => false
      end in
    let scrollAmount := randomInRange rand 100 400 in
    let actualScroll := if up then - scrollAmount else scrollAmount in
    let increments := Qceiling (Qabs actualScroll / 50) in
    let increment := actualScroll / inject_Z increments in
    repeat increment (Z.to_nat increments).

End Human.

(** ** The scheduler manager (the command-line tool that edits config.json) *)

Module Manager.

Import Scheduler.

Local Open Scope Z_scope.

(** The keys of config.json that the scheduler commands read or write;
    [None] is a key that is absent. *)
Record ConfigFile : Type := {
  scheduler : option ConfigScheduler;
  dailyRetries : option Z;
  retryDelayMinutes : option Z
}.

Definition with_scheduler (s : ConfigScheduler) (config : ConfigFile) : ConfigFile :=
  {| scheduler := Some s;
     dailyRetries := dailyRetries config;
     retryDelayMinutes := retryDelayMinutes config |}.

(** The block that [enableScheduler] writes when there is none. *)
Definition initialScheduler : ConfigScheduler :=
  {| enabled := false;
     dailyRunTime := "06:00";
     timezone := "UTC";
     randomDelayMinutes := {| RandomDelayMinutes.min := 5; RandomDelayMinutes.max := 50 |};
     retryOnFailure := {| RetryOnFailure.enabled := true;
                          RetryOnFailure.maxRetries := 3;
                          RetryOnFailure.retryDelayMinutes := 30 |} |}.

(** Each command is given the configuration that [loadConfig] returned and
    yields the configuration handed to [saveConfig], or throws before
    anything is saved. *)

(** [enableScheduler(time, timezone)]. *)
Definition enableScheduler (time timezone : string) (config : ConfigFile)
    : Eff.Outcome ConfigFile :=
  if negb (timeRegex_test time) then
    Eff.Throw (Eff.Error "Invalid time format. Use HH:MM (e.g., 06:00, 14:30)")
  else
    let block := match scheduler config with
                 | Some s => s
                 | None => initialScheduler
                 end in
    let dailyRetries := match dailyRetries config with
                        | None => Some 0
                        | Some k => Some k
                        end in
    let retryDelayMinutes := match retryDelayMinutes config with
                             | Some 0 | None => Some 30
                             | Some d => Some d
                             end in
    Eff.Ok {| scheduler := Some {| enabled := true;
                                   dailyRunTime := time;
                                   timezone := timezone;
                                   randomDelayMinutes := randomDelayMinutes block;
                                   retryOnFailure := retryOnFailure block |};
              dailyRetries := dailyRetries;
              retryDelayMinutes := retryDelayMinutes |}.

(** [setRandomDelay(min, max)] on whole numbers. *)
Definition setRandomDelay (min max : Z) (config : ConfigFile) : Eff.Outcome ConfigFile :=
  if (min <? 0) || (max <=? min) then
    Eff.Throw (Eff.Error
      "Invalid delay values. Min and max must be positive numbers with min < max")
  else
    match scheduler config with
    | None =>
        Eff.Throw (Eff.Error
          "Scheduler not configured. Enable it first with the enable command")
    | Some s =>
        Eff.Ok (with_scheduler
                  {| enabled := enabled s;
                     dailyRunTime := dailyRunTime s;
                     timezone := timezone s;
                     randomDelayMinutes := {| RandomDelayMinutes.min := min;
                                              RandomDelayMinutes.max := max |};
                     retryOnFailure := retryOnFailure s |} config)
    end.



End Manager.

(** * Properties *)

(** ** util/Utils.ts *)

Module UtilFacts.

Import Util.

(** [Math.round] returns the nearest integer. *)
Lemma Math_round_nearest (x : Q) :
  (x - (1 # 2) < inject_Z (JS.Math_round x) /\ inject_Z (JS.Math_round x) <= x + (1 # 2))%Q.
Proof.
  unfold JS.Math_round. split.
  - pose proof (Qlt_floor (x + (1 # 2))) as H.
    rewrite inject_Z_plus in H.
    apply Qplus_lt_l with (z := 1%Q). 
    eapply Qle_lt_trans; [| exact H].
    ring_simplify. apply Qle_refl.
  - apply Qfloor_le.
Qed.



Section ChunkFacts.

Variable A : Type.
Implicit Types arr : list A.

Lemma chunkLoop_unfold arr c i :
  chunkLoop arr c i =
  if lt_dec i (length arr)
  then match c with
       | O => None
       | S c' => option_map (cons (slice arr i (i + S c'))) (chunkLoop arr (S c') (i + S c'))
       end
  else Some [].
Proof.
  simp chunkLoop. destruct (lt_dec i (length arr)); simpl.
  - destruct c; reflexivity.
  - reflexivity.
Qed.

Lemma ceilDiv_zero c : ceilDiv 0 (S c) = 0%nat.
Proof.
  unfold ceilDiv. rewrite Nat.Div0.div_0_l, Nat.Div0.mod_0_l. reflexivity.
Qed.

(** [ceilDiv a n] is the least [q] with [a <= q * n]. *)
Lemma ceilDiv_upper a n : (0 < n)%nat -> (a <= ceilDiv a n * n)%nat.
Proof.
  intros Hn. unfold ceilDiv. destruct n as [| n']; [lia |].
  pose proof (Nat.div_mod_eq a (S n')) as E.
  pose proof (Nat.mod_upper_bound a (S n') ltac:(lia)) as B.
  destruct (a mod S n' =? 0)%nat eqn:M.
  - apply Nat.eqb_eq in M. nia.
  - nia.
Qed.

Lemma ceilDiv_least a n q : (0 < n)%nat -> (a <= q * n)%nat -> (ceilDiv a n <= q)%nat.
Proof.
  intros Hn Hq. unfold ceilDiv. destruct n as [| n']; [lia |].
  pose proof (Nat.div_mod_eq a (S n')) as E.
  pose proof (Nat.mod_upper_bound a (S n') ltac:(lia)) as B.
  destruct (a mod S n' =? 0)%nat eqn:M.
  - apply Nat.eqb_eq in M. nia.
  - apply Nat.eqb_neq in M. nia.
Qed.

Lemma ceilDiv_pos a n : (0 < n)%nat -> (0 < a)%nat -> (0 < ceilDiv a n)%nat.
Proof.
  intros Hn Ha. pose proof (ceilDiv_upper a Hn). nia.
Qed.

Lemma ceilDiv_tight a n : (0 < n)%nat -> (0 < a)%nat -> ((ceilDiv a n - 1) * n < a)%nat.
Proof.
  intros Hn Ha. unfold ceilDiv. destruct n as [| n']; [lia |].
  pose proof (Nat.div_mod_eq a (S n')) as E.
  pose proof (Nat.mod_upper_bound a (S n') ltac:(lia)) as B.
  destruct (a mod S n' =? 0)%nat eqn:M.
  - apply Nat.eqb_eq in M.
    assert (0 < a / S n')%nat by nia. nia.
  - apply Nat.eqb_neq in M. nia.
Qed.

Lemma ceilDiv_step a c : (0 < a)%nat -> ceilDiv a (S c) = S (ceilDiv (a - S c) (S c)).
Proof.
  intros Ha. apply Nat.le_antisymm.
  - apply ceilDiv_least; [lia |].
    pose proof (@ceilDiv_upper (a - S c) (S c) ltac:(lia)). nia.
  - destruct (le_lt_dec a (S c)) as [Hle | Hgt].
    + replace (a - S c)%nat with 0%nat by lia. rewrite ceilDiv_zero.
      apply (@ceilDiv_pos a (S c)); lia.
    + pose proof (@ceilDiv_tight (a - S c) (S c) ltac:(lia) ltac:(lia)) as T.
      pose proof (@ceilDiv_upper a (S c) ltac:(lia)) as U.
      pose proof (@ceilDiv_pos (a - S c) (S c) ltac:(lia) ltac:(lia)) as P.
      nia.
Qed.

Lemma slice_length arr i j :
  length (slice arr i j) = Nat.min (j - i) (length arr - i).
Proof.
  unfold slice. rewrite length_firstn, length_skipn. reflexivity.
Qed.

(** What the loop builds from index [i] on. *)
Definition chunked arr (c i : nat) (chunks : list (list A)) : Prop :=
  concat chunks = skipn i arr
  /\ length chunks = ceilDiv (length arr - i) c
  /\ (forall k, (k + 1 < length chunks)%nat -> length (nth k chunks []) = c)
  /\ (chunks <> [] ->
      (1 <= length (last chunks []))%nat /\ (length (last chunks []) <= c)%nat).

Lemma chunkLoop_chunked arr c :
  forall n i, (length arr - i <= n)%nat ->
  exists chunks, chunkLoop arr (S c) i = Some chunks /\ chunked arr (S c) i chunks.
Proof.
  induction n as [| n IH]; intros i Hn.
  - exists []. rewrite chunkLoop_unfold.
    destruct (lt_dec i (length arr)); [lia |]. split; [reflexivity |].
    unfold chunked. replace (length arr - i)%nat with 0%nat by lia.
    rewrite ceilDiv_zero, skipn_all2 by lia.
    repeat split; simpl; try lia; congruence.
  - rewrite chunkLoop_unfold.
    destruct (lt_dec i (length arr)) as [Hlt | Hge].
    + destruct (IH (i + S c)%nat ltac:(lia)) as (rest & Hrest & Hcat & Hlen & Hfull & Hlast).
      rewrite Hrest. simpl option_map.
      exists (slice arr i (i + S c) :: rest). split; [reflexivity |].
      unfold chunked. repeat split.
      * rewrite concat_cons, Hcat. unfold slice.
        replace (i + S c - i)%nat with (S c) by lia.
        rewrite <- (firstn_skipn (S c) (skipn i arr)) at 2.
        rewrite skipn_skipn. f_equal. f_equal. lia.
      * cbn [length]. rewrite Hlen.
        rewrite (@ceilDiv_step (length arr - i) c) by lia.
        do 2 f_equal. lia.
      * intros k Hk. cbn [length] in Hk. destruct k as [| k].
        -- cbn [nth]. rewrite slice_length.
           assert (0 < length rest)%nat as Hpos by lia.
           rewrite Hlen in Hpos.
           destruct (Nat.eq_dec (length arr - (i + S c)) 0) as [Z0 | NZ].
           ++ rewrite Z0, ceilDiv_zero in Hpos. lia.
           ++ lia.
        -- cbn [nth]. apply Hfull. lia.
      * destruct rest as [| r rest'].
        -- cbn [last]. rewrite slice_length. lia.
        -- change (last (slice arr i (i + S c) :: r :: rest') [])
             with (last (r :: rest') []).
           apply Hlast. congruence.
      * destruct rest as [| r rest'].
        -- cbn [last]. rewrite slice_length. lia.
        -- change (last (slice arr i (i + S c) :: r :: rest') [])
             with (last (r :: rest') []).
           apply Hlast. congruence.
    + exists []. split; [reflexivity |].
      unfold chunked. replace (length arr - i)%nat with 0%nat by lia.
      rewrite ceilDiv_zero, skipn_all2 by lia.
      repeat split; simpl; try lia; congruence.
Qed.

(** [chunkArray] returns for every array and every [numChunks]. *)
Lemma chunkArray_total arr n : exists chunks, chunkArray arr n = Some chunks.
Proof.
  unfold chunkArray.
  destruct (ceilDiv (length arr) n) as [| c] eqn:E.
  - destruct arr as [| a arr'].
    + exists []. rewrite chunkLoop_unfold. reflexivity.
    + exfalso. destruct n as [| n'].
      * cbn in E. discriminate.
      * pose proof (@ceilDiv_pos (length (a :: arr')) (S n') ltac:(lia) ltac:(cbn; lia)).
        lia.
  - destruct (@chunkLoop_chunked arr c (length arr) 0%nat ltac:(lia)) as (chunks & H & _).
    eauto.
Qed.

(** The scenario of the specification: 7 accounts over 3 clusters. *)
Lemma chunkArray_7_over_3 arr :
  length arr = 7%nat ->
  exists chunks, chunkArray arr 3 = Some chunks /\ map (@length A) chunks = [3; 3; 1]%nat.
Proof.
  intros H.
  do 8 (destruct arr as [| ? arr]; try discriminate H).
  eexists. split; [vm_compute; reflexivity | reflexivity].
Qed.

(** The property as the specification words it: exactly [n] chunks. *)
Definition splits_into_exactly arr (n : nat) : Prop :=
  exists chunks,
    chunkArray arr n = Some chunks
    /\ length chunks = n
    /\ concat chunks = arr
    /\ Forall (fun chunk => (length chunk <= ceilDiv (length arr) n)%nat) chunks.

(** C5 (as the code has it): a non-empty array is split, for [n >= 1],
    into contiguous chunks whose concatenation is the array; there are
    [ceil(len / chunkSize)] of them with [chunkSize = ceil(len / n)], which
    is at least one and at most [n]; every chunk but the last has
    [chunkSize] elements and the last has between 1 and [chunkSize]; 7
    accounts over 3 clusters give chunks of sizes 3, 3 and 1. *)
Theorem chunkArray_ceiling_partition arr (n : nat) :
  arr <> [] -> (1 <= n)%nat ->
  let chunkSize := ceilDiv (length arr) n in
  exists chunks,
    chunkArray arr n = Some chunks
    /\ concat chunks = arr
    /\ length chunks = ceilDiv (length arr) chunkSize
    /\ (1 <= length chunks)%nat /\ (length chunks <= n)%nat
    /\ (forall k, (k + 1 < length chunks)%nat -> length (nth k chunks []) = chunkSize)
    /\ (1 <= length (last chunks []))%nat /\ (length (last chunks []) <= chunkSize)%nat
    /\ (length arr = 7%nat -> n = 3%nat -> map (@length A) chunks = [3; 3; 1]%nat).
Proof.
  intros Hne Hn chunkSize.
  assert (0 < length arr)%nat as Hlen by (destruct arr; [congruence | cbn; lia]).
  assert (0 < chunkSize)%nat as Hc by (apply ceilDiv_pos; lia).
  assert (exists chunks, chunkArray arr n = Some chunks /\ chunked arr chunkSize 0 chunks)
    as (chunks & Hrun & Hcat & Hcount & Hfull & Hlast).
  { unfold chunkArray. fold chunkSize. destruct chunkSize as [| c]; [lia |].
    apply (@chunkLoop_chunked arr c (length arr) 0%nat). lia. }
  rewrite Nat.sub_0_r in Hcount. cbn [skipn] in Hcat.
  exists chunks.
  assert (1 <= length chunks)%nat as Hpos.
  { rewrite Hcount. apply ceilDiv_pos; lia. }
  assert (chunks <> []) as Hnonempty by (destruct chunks; [cbn in Hpos; lia | congruence]).
  repeat split; try assumption; try (apply Hlast; assumption).
  - rewrite Hcount. apply ceilDiv_least; [lia |].
    pose proof (@ceilDiv_upper (length arr) n ltac:(lia)) as U.
    fold chunkSize in U. lia.
  - intros H7 H3. subst n.
    destruct (chunkArray_7_over_3 arr H7) as (chunks' & Hrun' & Hsizes).
    congruence.
Qed.

End ChunkFacts.

Lemma chunkArray_ceiling_partition_witness :
  exists chunks,
    chunkArray [1; 2; 3; 4; 5; 6; 7]%nat 3 = Some chunks
    /\ concat chunks = [1; 2; 3; 4; 5; 6; 7]%nat
    /\ length chunks = 3%nat.
Proof.
  destruct (@chunkArray_ceiling_partition nat [1; 2; 3; 4; 5; 6; 7]%nat 3)
    as (chunks & H1 & H2 & H3 & _).
  - discriminate.
  - lia.
  - exists chunks. repeat split; assumption.
Defined.

(** Counterexample to C5 as stated: 5 accounts over 4 clusters give 3
    chunks of sizes 2, 2 and 1. *)
Lemma chunkArray_not_exactly_n : ~ splits_into_exactly [1; 2; 3; 4; 5]%nat 4.
Proof.
  intros (chunks & Hrun & Hlen & _).
  vm_compute in Hrun. injection Hrun as <-. discriminate Hlen.
Qed.

End UtilFacts.

(** ** util/FinalWebhook.ts *)

Module FinalWebhookFacts.

Import FinalWebhook.

Local Open Scope Z_scope.

(** A record whose [pointsGained] is the clamped difference of its two
    point counts. *)
Definition consistent (r : AccountResult) : Prop :=
  pointsGained r = Z.max 0 (pointsAfter r - pointsBefore r).

Definition sumPointsGained (results : list AccountResult) : Z :=
  fold_right Z.add 0 (map pointsGained results).

Lemma fold_left_pointsGained (results : list AccountResult) (start : Z) :
  fold_left (fun sum account => sum + pointsGained account) results start
  = start + sumPointsGained results.
Proof.
  revert start. induction results as [| r rest IH]; intros start; cbn.
  - lia.
  - rewrite IH. unfold sumPointsGained. cbn. lia.
Qed.

Lemma filter_length_le {A} (p : A -> bool) (l : list A) :
  (length (filter p l) <= length l)%nat.
Proof.
  induction l as [| a l IH]; cbn; [lia |]. destruct (p a); cbn; lia.
Qed.

Lemma sumPointsGained_nonneg (results : list AccountResult) :
  Forall consistent results -> 0 <= sumPointsGained results.
Proof.
  induction 1 as [| r rest Hr _ IH]; unfold sumPointsGained in *; cbn; [lia |].
  unfold consistent in Hr. lia.
Qed.

Lemma createAccountResult_consistent email before after tasks duration ok err :
  consistent (createAccountResult email before after tasks duration ok err).
Proof. reflexivity. Qed.

(** C9: for every list of account records the summary counts add up
    (successful + failed = total, both non-negative) and its total is the
    sum of the records' [pointsGained]; a record built by
    [createAccountResult] has [pointsGained = max(0, after - before)], which
    is never negative, and so the total over such records is never
    negative. *)
Theorem createFinalSummary_invariants
    (results : list AccountResult) (retryPassesUsed startTime endTime : Z) :
  let summary := createFinalSummary results retryPassesUsed startTime endTime in
  successfulAccounts summary + failedAccounts summary = totalAccounts summary
  /\ 0 <= successfulAccounts summary
  /\ 0 <= failedAccounts summary
  /\ totalPointsGained summary = sumPointsGained results
  /\ (forall email before after tasks duration ok err,
        let r := createAccountResult email before after tasks duration ok err in
        pointsGained r = Z.max 0 (after - before) /\ 0 <= pointsGained r)
  /\ (Forall consistent results -> 0 <= totalPointsGained summary).
Proof.
  cbn. repeat split.
  - lia.
  - lia.
  - pose proof (filter_length_le (fun account => success account) results). lia.
  - apply fold_left_pointsGained.
  - apply Z.le_max_l.
  - intros H. rewrite fold_left_pointsGained.
    pose proof (sumPointsGained_nonneg H). lia.
Qed.

Lemma createFinalSummary_invariants_witness :
  0 <= totalPointsGained
         (createFinalSummary
            [createAccountResult "a@example.com" 100 150 4 60 true None;
             createAccountResult "b@example.com" 200 180 0 30 false (Some "Error: login"%string)]
            1 0 90000).
Proof.
  apply (createFinalSummary_invariants
           [createAccountResult "a@example.com" 100 150 4 60 true None;
            createAccountResult "b@example.com" 200 180 0 30 false (Some "Error: login"%string)]
           1 0 90000).
  repeat constructor.
Defined.

End FinalWebhookFacts.

(** ** index.ts *)

Module BotFacts.

Import Bot.

Local Open Scope Z_scope.

(** The invocations of the per-account work recorded in a trace: each entry
    into the guarded block of [runAllAccounts] starts with a call of
    [Desktop]. *)
Definition invocations (t : list Event) : list (Account * Z) :=
  flat_map (fun e => match e with
                     | DesktopCalled account passNumber => [(account, passNumber)]
                     | _ => []
                     end) t.

(** The pass numbers [first], [first + 1], ... ([count] of them). *)
Definition passNumbers (first : Z) (count : nat) : list Z :=
  map (fun i => first + Z.of_nat i) (seq 0 count).

(** One pass over [accounts], in order. *)
Definition onePass (accounts : list Account) (passNumber : Z) : list (Account * Z) :=
  map (fun account => (account, passNumber)) accounts.

Definition hasEmail (a : Account) (x : Account) : bool := String.eqb (email x) (email a).

(** How often the work of the account [a] was invoked. *)
Definition callsFor (a : Account) (t : list Event) : nat :=
  length (filter (fun call => hasEmail a (fst call)) (invocations t)).

Section PassFacts.

Variable config : Config.
Variable world : Z -> Account -> Work.

Lemma invocations_app t1 t2 : invocations (t1 ++ t2) = invocations t1 ++ invocations t2.
Proof. unfold invocations. apply flat_map_app. Qed.

Lemma runAccount_invocations account passNumber b :
  invocations (snd (runAccount config world account passNumber b)) = [(account, passNumber)].
Proof.
  unfold runAccount.
  destruct (Desktop config (desktop (world passNumber account)) account passNumber b)
    as [b1 [| error]].
  - destruct (Mobile config (mobile (world passNumber account)) account passNumber b1)
      as [b2 [| error]];
      destruct (passNumber =? 1); reflexivity.
  - destruct (passNumber =? 1); reflexivity.
Qed.

Lemma runAllAccounts_invocations accounts passNumber b :
  invocations (snd (runAllAccounts config world accounts passNumber b))
  = onePass accounts passNumber.
Proof.
  revert b. induction accounts as [| account rest IH]; intros b; cbn [runAllAccounts].
  - reflexivity.
  - pose proof (runAccount_invocations account passNumber b) as H1.
    destruct (runAccount config world account passNumber b) as [b1 t1].
    specialize (IH b1).
    destruct (runAllAccounts config world rest passNumber b1) as [b2 t2].
    cbn [snd] in *. rewrite invocations_app, H1, IH. reflexivity.
Qed.

Lemma retryPasses_unfold accounts additionalRetries retryDelay retryNum b :
  retryPasses config world accounts additionalRetries retryDelay retryNum b =
  if Z_le_dec retryNum additionalRetries then
    let '(b1, t1) := runAllAccounts config world accounts (retryNum + 1) b in
    let '(b2, t2) :=
      retryPasses config world accounts additionalRetries retryDelay (retryNum + 1) b1 in
    (b2, Waited retryDelay :: t1 ++ t2)
  else (b, []).
Proof.
  simp retryPasses. destruct (Z_le_dec retryNum additionalRetries); reflexivity.
Qed.

Lemma passNumbers_succ first count :
  passNumbers first (S count) = first :: passNumbers (first + 1) count.
Proof.
  unfold passNumbers. cbn [seq map]. f_equal.
  - lia.
  - rewrite <- seq_shift, map_map. apply map_ext. intros i. lia.
Qed.

Lemma retryPasses_invocations accounts additionalRetries retryDelay :
  forall (count : nat) retryNum b,
    count = Z.to_nat (additionalRetries + 1 - retryNum) ->
    invocations (snd (retryPasses config world accounts additionalRetries retryDelay retryNum b))
    = flat_map (onePass accounts) (passNumbers (retryNum + 1) count).
Proof.
  induction count as [| count IH]; intros retryNum b Hcount;
    rewrite retryPasses_unfold;
    destruct (Z_le_dec retryNum additionalRetries) as [Hle | Hgt]; try lia.
  - reflexivity.
  - pose proof (runAllAccounts_invocations accounts (retryNum + 1) b) as H1.
    destruct (runAllAccounts config world accounts (retryNum + 1) b) as [b1 t1].
    specialize (IH (retryNum + 1) b1 ltac:(lia)).
    destruct (retryPasses config world accounts additionalRetries retryDelay (retryNum + 1) b1)
      as [b2 t2].
    cbn [snd] in *.
    change (Waited retryDelay :: t1 ++ t2) with ([Waited retryDelay] ++ t1 ++ t2).
    rewrite !invocations_app, H1, IH, passNumbers_succ. reflexivity.
Qed.

Lemma onePass_calls a accounts passNumber :
  length (filter (fun call => hasEmail a (fst call)) (onePass accounts passNumber))
  = length (filter (hasEmail a) accounts).
Proof.
  unfold onePass. induction accounts as [| x rest IH]; cbn; [reflexivity |].
  destruct (hasEmail a x); cbn; rewrite IH; reflexivity.
Qed.

Lemma passes_calls a accounts passes :
  length (filter (fun call => hasEmail a (fst call)) (flat_map (onePass accounts) passes))
  = (length passes * length (filter (hasEmail a) accounts))%nat.
Proof.
  induction passes as [| p rest IH]; cbn [flat_map length]; [reflexivity |].
  rewrite filter_app, length_app, onePass_calls, IH. lia.
Qed.

(** C4 (as the code has it): for every integer [dailyRetries = k] (absent
    counts as 0) a run executes [1 + max(0, k)] passes, each invoking the
    work of every account once, in account order, whatever the invocations
    do (return or throw): every account is invoked [1 + max(0, k)] times,
    which is [k + 1] when [k >= 0].  The value [totalPasses] that is logged
    and reported is [1 + k]. *)
Theorem runTasks_invocations (accounts : list Account) (clock endClock : Z) (b : State) :
  let k := or_default (dailyRetries config) 0 in
  let run := runTasks config world accounts clock endClock b in
  totalPasses run = 1 + k
  /\ invocations (trace run)
     = flat_map (onePass accounts) (passNumbers 1 (Z.to_nat (1 + Z.max 0 k)))
  /\ (forall a, Z.of_nat (callsFor a (trace run))
                = (1 + Z.max 0 k) * Z.of_nat (length (filter (hasEmail a) accounts))).
Proof.
  intros k run.
  assert (invocations (trace run)
          = flat_map (onePass accounts) (passNumbers 1 (Z.to_nat (1 + Z.max 0 k)))) as Htrace.
  { subst run. unfold runTasks. fold k.
    set (b0 := {| pointsInitial := pointsInitial b;
                  mobileRetryAttempts := mobileRetryAttempts b;
                  accountResults := [];
                  executionStartTime := clock |}).
    pose proof (runAllAccounts_invocations accounts 1 b0) as H1.
    destruct (runAllAccounts config world accounts 1 b0) as [b1 t1].
    pose proof (@retryPasses_invocations accounts k
                  (or_default (retryDelayMinutes config) 30 * 60 * 1000)
                  (Z.to_nat (k + 1 - 1)) 1 b1 eq_refl) as H2.
    destruct (retryPasses config world accounts k
                (or_default (retryDelayMinutes config) 30 * 60 * 1000) 1 b1) as [b2 t2].
    cbn [snd trace] in *.
    rewrite invocations_app, H1, H2.
    replace (Z.to_nat (1 + Z.max 0 k)) with (S (Z.to_nat (k + 1 - 1))) by lia.
    rewrite passNumbers_succ. reflexivity. }
  split; [| split].
  - subst run. unfold runTasks. fold k.
    repeat match goal with |- context [let '(_, _) := ?x in _] => destruct x end.
    reflexivity.
  - exact Htrace.
  - intros a. unfold callsFor. rewrite Htrace, passes_calls.
    unfold passNumbers. rewrite length_map, length_seq. lia.
Qed.

End PassFacts.

(** *** A run on concrete data *)

Definition alice : Account := {| email := "alice@example.com" |}.

Definition everyWorker : ConfigWorkers :=
  {| doDailySet := true; doMorePromotions := true; doPunchCards := true;
     doDesktopSearch := true; doMobileSearch := true; doDailyCheckIn := true;
     doReadToEarn := true |}.

Definition configWith (dailyRetries : option Z) : Config :=
  {| runOnZeroPoints := false;
     workers := everyWorker;
     retryMobileSearchAmount := 2;
     dailyRetries := dailyRetries;
     retryDelayMinutes := Some 30;
     finalWebhookEnabled := true |}.

(** Every call succeeds: the dashboard shows 100 points, the desktop tasks
    bring them to 150 and the mobile tasks to 180. *)
Definition smoothWorld (passNumber : Z) (account : Account) : Work :=
  {| desktop := DesktopRuns 100 30 150 None;
     mobile := MobileRuns 20 (Some false) 180 None (MobileThrows "unused");
     elapsedSeconds := 240 |}.

Definition freshBot : State :=
  {| pointsInitial := 0; mobileRetryAttempts := 0; accountResults := [];
     executionStartTime := 0 |}.

(** The statement of the specification for [dailyRetries = k]: every
    account is invoked exactly [k + 1] times. *)
Definition invoked_k_plus_1 (k : Z) (accounts : list Account) (run : Run) : Prop :=
  forall a, In a accounts -> Z.of_nat (callsFor a (trace run)) = k + 1.

(** Counterexample to C4 as stated: with [dailyRetries = -1] the account is
    still invoked once, not [k + 1 = 0] times, and [totalPasses] is 0, not
    [1 + max(0, k) = 1]. *)
Lemma negative_dailyRetries_runs_one_pass :
  let run := runTasks (configWith (Some (-1))) smoothWorld [alice] 0 300000 freshBot in
  ~ invoked_k_plus_1 (-1) [alice] run
  /\ totalPasses run <> 1 + Z.max 0 (-1).
Proof.
  split.
  - intros H. specialize (H alice (or_introl eq_refl)). vm_compute in H. discriminate H.
  - vm_compute. discriminate.
Qed.

(** C1: on pass 1 the record of an account is created only after its work
    has ended, from the bot's [pointsInitial] and not from 0, and the
    updates that [Desktop] and [Mobile] make look for a record that does
    not exist yet: with one account whose points go from 100 to 180 over
    seven tasks, there is still no record when [Desktop] and [Mobile] have
    returned, and the run ends with a record of 100 points before and
    after, 0 gained and 0 tasks. *)
Theorem pass1_record_is_pushed_after_the_work :
  let run := runTasks (configWith (Some 0)) smoothWorld [alice] 0 300000 freshBot in
  trace run
  = [DesktopCalled alice 1; MobileCalled alice 1; ResultPushed "alice@example.com"]
  /\ accountResults
       (fst (Mobile (configWith (Some 0)) (mobile (smoothWorld 1 alice)) alice 1
               (fst (Desktop (configWith (Some 0)) (desktop (smoothWorld 1 alice)) alice 1
                       freshBot))))
     = []
  /\ accountResults (final run)
     = [FW.createAccountResult "alice@example.com" 100 100 0 240 true None]
  /\ map FW.pointsAfter (accountResults (final run)) = [100]
  /\ map FW.pointsGained (accountResults (final run)) = [0]
  /\ map FW.tasksCompleted (accountResults (final run)) = [0].
Proof. vm_compute. repeat split. Qed.

(** Every call of [Desktop] throws at login. *)
Definition brokenWorld (passNumber : Z) (account : Account) : Work :=
  {| desktop := DesktopThrowsBeforeDashboard "Error: login failed";
     mobile := MobileThrows "unused";
     elapsedSeconds := 12 |}.

(** With two additional passes and work that always throws, the work is
    still invoked in each of the three passes; pass 1 pushes a failed
    record with the error text, passes 2 and 3 push nothing. *)
Example throwing_work_is_invoked_and_recorded :
  let run := runTasks (configWith (Some 2)) brokenWorld [alice] 0 4000000 freshBot in
  trace run
  = [DesktopCalled alice 1; ResultPushed "alice@example.com";
     Waited 1800000; DesktopCalled alice 2;
     Waited 1800000; DesktopCalled alice 3]
  /\ accountResults (final run)
     = [FW.createAccountResult "alice@example.com" 0 0 0 12 false
          (Some "Error: login failed"%string)]
  /\ totalPasses run = 3.
Proof. vm_compute. repeat split. Qed.

End BotFacts.
Module RecordFacts.

Import Bot.

Local Open Scope Z_scope.

(** No record carries the e-mail address of [account]. *)
Definition unrecorded (account : Account) (results : list FW.AccountResult) : Prop :=
  Forall (fun r => FW.email r <> email account) results.


Section RecordLifecycle.

Variable config : Config.
Variable world : Z -> Account -> Work.

Lemma updateFound_unrecorded account f results :
  unrecorded account results -> updateFound (sameEmail account) f results = results.
Proof.
  induction 1 as [| r rest Hr _ IH]; cbn; [reflexivity |].
  unfold sameEmail at 1. destruct (String.eqb_spec (FW.email r) (email account)).
  - contradiction.
  - now rewrite IH.
Qed.

Lemma Desktop_leaves_results run account passNumber b :
  unrecorded account (accountResults b) \/ passNumber <> 1 ->
  accountResults (fst (Desktop config run account passNumber b)) = accountResults b.
Proof.
  intros H. destruct run as [error | available error | available earnable after saveError];
    cbn; try reflexivity.
  destruct (negb (runOnZeroPoints config) && (earnable =? 0)); cbn; [reflexivity |].
  destruct (Z.eqb_spec passNumber 1) as [-> | Hp]; cbn; [| reflexivity].
  destruct H as [H | H]; [| congruence].
  now apply updateFound_unrecorded.
Qed.

Lemma mobileFinish_leaves_results account passNumber after tasks closeError b :
  unrecorded account (accountResults b) \/ passNumber <> 1 ->
  accountResults (fst (mobileFinish account passNumber after tasks closeError b))
  = accountResults b.
Proof.
  intros H. unfold mobileFinish.
  destruct (Z.eqb_spec passNumber 1) as [-> | Hp]; cbn; [| reflexivity].
  destruct H as [H | H]; [| congruence].
  now apply updateFound_unrecorded.
Qed.

Lemma Mobile_leaves_results run account passNumber :
  forall b,
    unrecorded account (accountResults b) \/ passNumber <> 1 ->
    accountResults (fst (Mobile config run account passNumber b)) = accountResults b.
Proof.
  induction run as [error | earnable incomplete error
                   | earnable mobileSearch after closeError again IH]; intros b H;
    cbn [Mobile]; [reflexivity | |].
  { destruct (negb (runOnZeroPoints config) && (earnable =? 0)); [reflexivity |].
    now destruct (doMobileSearch (workers config) && incomplete). }
  destruct (negb (runOnZeroPoints config) && (earnable =? 0)); [reflexivity |].
  destruct (doMobileSearch (workers config));
    [| now apply mobileFinish_leaves_results].
  destruct mobileSearch as [incomplete |];
    [| now apply mobileFinish_leaves_results].
  set (b' := if incomplete then set_mobileRetryAttempts (mobileRetryAttempts b + 1) b else b).
  assert (accountResults b' = accountResults b) as E by (subst b'; now destruct incomplete).
  destruct (mobileRetryAttempts b' >? retryMobileSearchAmount config).
  - rewrite mobileFinish_leaves_results; [exact E | now rewrite E].
  - destruct (negb (mobileRetryAttempts b' =? 0)).
    + rewrite IH; [exact E | now rewrite E].
    + rewrite mobileFinish_leaves_results; [exact E | now rewrite E].
Qed.



Lemma runAccount_later_pass account passNumber b :
  passNumber <> 1 ->
  accountResults (fst (runAccount config world account passNumber b)) = accountResults b.
Proof.
  intros Hp. unfold runAccount.
  pose proof (@Desktop_leaves_results (desktop (world passNumber account)) account
                passNumber b (or_intror Hp)) as HD.
  destruct (Desktop config (desktop (world passNumber account)) account passNumber b)
    as [b1 [| error]]; cbn [fst] in HD.
  - pose proof (@Mobile_leaves_results (mobile (world passNumber account)) account
                  passNumber b1 (or_intror Hp)) as HM.
    destruct (Mobile config (mobile (world passNumber account)) account passNumber b1)
      as [b2 outcome]; cbn [fst] in HM.
    destruct (Z.eqb_spec passNumber 1); [contradiction |].
    destruct outcome; cbn; congruence.
  - destruct (Z.eqb_spec passNumber 1); [contradiction |]. cbn. exact HD.
Qed.

Lemma runAllAccounts_later_pass accounts passNumber :
  forall b,
    passNumber <> 1 ->
    accountResults (fst (runAllAccounts config world accounts passNumber b))
    = accountResults b.
Proof.
  induction accounts as [| account rest IH]; intros b Hp; cbn [runAllAccounts];
    [reflexivity |].
  pose proof (@runAccount_later_pass account passNumber b Hp) as H1.
  destruct (runAccount config world account passNumber b) as [b1 t1].
  specialize (IH b1 Hp).
  destruct (runAllAccounts config world rest passNumber b1) as [b2 t2].
  cbn [fst] in *. congruence.
Qed.

Lemma retryPasses_leaves_results accounts additionalRetries retryDelay :
  forall (count : nat) retryNum b,
    count = Z.to_nat (additionalRetries + 1 - retryNum) ->
    1 <= retryNum ->
    accountResults
      (fst (retryPasses config world accounts additionalRetries retryDelay retryNum b))
    = accountResults b.
Proof.
  induction count as [| count IH]; intros retryNum b Hcount Hpos;
    rewrite BotFacts.retryPasses_unfold;
    destruct (Z_le_dec retryNum additionalRetries) as [Hle | Hgt]; try lia;
    try reflexivity.
  pose proof (@runAllAccounts_later_pass accounts (retryNum + 1) b ltac:(lia)) as H1.
  destruct (runAllAccounts config world accounts (retryNum + 1) b) as [b1 t1].
  specialize (IH (retryNum + 1) b1 ltac:(lia) ltac:(lia)).
  destruct (retryPasses config world accounts additionalRetries retryDelay (retryNum + 1) b1)
    as [b2 t2].
  cbn [fst] in *. congruence.
Qed.


End RecordLifecycle.

End RecordFacts.

(** *** Every record of a run is consistent *)

Module ConsistencyFacts.

Import Bot.

Local Open Scope Z_scope.

Import FinalWebhookFacts.

Section Consistency.

Variable config : Config.
Variable world : Z -> Account -> Work.

Lemma updateFound_Forall (P : FW.AccountResult -> Prop) p f results :
  (forall r, P r -> P (f r)) ->
  Forall P results -> Forall P (updateFound p f results).
Proof.
  intros Hf. induction 1 as [| r rest Hr Hrest IH]; cbn; [constructor |].
  destruct (p r); constructor; auto.
Qed.

Lemma Desktop_consistent run account passNumber b :
  Forall consistent (accountResults b) ->
  Forall consistent (accountResults (fst (Desktop config run account passNumber b))).
Proof.
  intros H. destruct run as [error | available error | available earnable after saveError];
    cbn; try assumption.
  destruct (negb (runOnZeroPoints config) && (earnable =? 0)); cbn; [assumption |].
  destruct (passNumber =? 1); cbn; [| assumption].
  apply updateFound_Forall; [| assumption]. intros r _. reflexivity.
Qed.

Lemma mobileFinish_consistent account passNumber after tasks closeError b :
  Forall consistent (accountResults b) ->
  Forall consistent
    (accountResults (fst (mobileFinish account passNumber after tasks closeError b))).
Proof.
  intros H. unfold mobileFinish. destruct (passNumber =? 1); cbn; [| assumption].
  apply updateFound_Forall; [| assumption]. intros r _. reflexivity.
Qed.

Lemma Mobile_consistent run account passNumber :
  forall b,
    Forall consistent (accountResults b) ->
    Forall consistent (accountResults (fst (Mobile config run account passNumber b))).
Proof.
  induction run as [error | earnable incomplete error
                   | earnable mobileSearch after closeError again IH]; intros b H;
    cbn [Mobile]; [assumption | |].
  { destruct (negb (runOnZeroPoints config) && (earnable =? 0)); [assumption |].
    now destruct (doMobileSearch (workers config) && incomplete). }
  destruct (negb (runOnZeroPoints config) && (earnable =? 0)); [assumption |].
  destruct (doMobileSearch (workers config)); [| now apply mobileFinish_consistent].
  destruct mobileSearch as [incomplete |]; [| now apply mobileFinish_consistent].
  set (b' := if incomplete then set_mobileRetryAttempts (mobileRetryAttempts b + 1) b else b).
  assert (Forall consistent (accountResults b')) as H' by (subst b'; now destruct incomplete).
  destruct (mobileRetryAttempts b' >? retryMobileSearchAmount config);
    [now apply mobileFinish_consistent |].
  destruct (negb (mobileRetryAttempts b' =? 0));
    [now apply IH | now apply mobileFinish_consistent].
Qed.

Lemma runAccount_consistent account passNumber b :
  Forall consistent (accountResults b) ->
  Forall consistent (accountResults (fst (runAccount config world account passNumber b))).
Proof.
  intros H. unfold runAccount.
  pose proof (@Desktop_consistent (desktop (world passNumber account)) account
                passNumber b H) as HD.
  destruct (Desktop config (desktop (world passNumber account)) account passNumber b)
    as [b1 [| error]]; cbn [fst] in HD.
  - pose proof (@Mobile_consistent (mobile (world passNumber account)) account
                  passNumber b1 HD) as HM.
    destruct (Mobile config (mobile (world passNumber account)) account passNumber b1)
      as [b2 outcome]; cbn [fst] in HM.
    destruct outcome; destruct (passNumber =? 1); cbn; try assumption;
      (apply Forall_app; split; [assumption | repeat constructor]).
  - destruct (passNumber =? 1); cbn; try assumption.
    apply Forall_app; split; [assumption | repeat constructor].
Qed.

Lemma runAllAccounts_consistent accounts passNumber :
  forall b,
    Forall consistent (accountResults b) ->
    Forall consistent
      (accountResults (fst (runAllAccounts config world accounts passNumber b))).
Proof.
  induction accounts as [| account rest IH]; intros b H; cbn [runAllAccounts];
    [assumption |].
  pose proof (@runAccount_consistent account passNumber b H) as H1.
  destruct (runAccount config world account passNumber b) as [b1 t1].
  specialize (IH b1 H1).
  destruct (runAllAccounts config world rest passNumber b1) as [b2 t2].
  exact IH.
Qed.

Lemma retryPasses_consistent accounts additionalRetries retryDelay :
  forall (count : nat) retryNum b,
    count = Z.to_nat (additionalRetries + 1 - retryNum) ->
    Forall consistent (accountResults b) ->
    Forall consistent
      (accountResults
         (fst (retryPasses config world accounts additionalRetries retryDelay retryNum b))).
Proof.
  induction count as [| count IH]; intros retryNum b Hcount H;
    rewrite BotFacts.retryPasses_unfold;
    destruct (Z_le_dec retryNum additionalRetries) as [Hle | Hgt]; try lia;
    try assumption.
  pose proof (@runAllAccounts_consistent accounts (retryNum + 1) b H) as H1.
  destruct (runAllAccounts config world accounts (retryNum + 1) b) as [b1 t1].
  specialize (IH (retryNum + 1) b1 ltac:(lia) H1).
  destruct (retryPasses config world accounts additionalRetries retryDelay (retryNum + 1) b1)
    as [b2 t2].
  exact IH.
Qed.

(** Whatever the accounts and the world, every record a run ends with has
    [pointsGained = max(0, pointsAfter - pointsBefore)]. *)
Lemma runTasks_consistent accounts clock endClock b :
  Forall consistent
    (accountResults (final (runTasks config world accounts clock endClock b))).
Proof.
  unfold runTasks.
  set (b0 := {| pointsInitial := pointsInitial b;
                mobileRetryAttempts := mobileRetryAttempts b;
                accountResults := [];
                executionStartTime := clock |}).
  pose proof (@runAllAccounts_consistent accounts 1 b0 (Forall_nil _)) as H1.
  destruct (runAllAccounts config world accounts 1 b0) as [b1 t1].
  pose proof (@retryPasses_consistent accounts (or_default (dailyRetries config) 0)
                (or_default (retryDelayMinutes config) 30 * 60 * 1000)
                _ 1 b1 eq_refl H1) as H2.
  destruct (retryPasses config world accounts (or_default (dailyRetries config) 0)
              (or_default (retryDelayMinutes config) 30 * 60 * 1000) 1 b1) as [b2 t2].
  exact H2.
Qed.

(** The summary handed to the webhook by a run never reports a negative
    total. *)
Lemma run_summary_total_nonneg accounts clock endClock b s :
  summary (runTasks config world accounts clock endClock b) = Some s ->
  0 <= FW.totalPointsGained s.
Proof.
  intros Hs.
  pose proof (runTasks_consistent accounts clock endClock b) as Hc.
  unfold runTasks in *.
  destruct (runAllAccounts config world accounts 1 _) as [b1 t1].
  destruct (retryPasses config world accounts _ _ 1 b1) as [b2 t2].
  cbn [summary final] in *. unfold sendFinalNotification in Hs.
  destruct (finalWebhookEnabled config); [| discriminate].
  injection Hs as <-.
  cbn [FW.totalPointsGained FW.createFinalSummary].
  rewrite fold_left_pointsGained.
  pose proof (sumPointsGained_nonneg Hc). lia.
Qed.

End Consistency.

End ConsistencyFacts.

(** ** util/Scheduler.ts *)

Module SchedulerFacts.

Import Scheduler.

Local Open Scope Z_scope.

(** *** Exceptions and logs *)

Lemma outcome_bind_ok {A B} (m : Eff.t A) (k : A -> Eff.t B) (a : A) :
  Eff.outcome m = Eff.Ok a -> Eff.outcome (Eff.bind m k) = Eff.outcome (k a).
Proof.
  destruct m as [l [v | e]]; cbn; intros H; [| discriminate].
  injection H as ->. now destruct (k a).
Qed.

Lemma outcome_bind_throw {A B} (m : Eff.t A) (k : A -> Eff.t B) (e : Eff.JSError) :
  Eff.outcome m = Eff.Throw e -> Eff.outcome (Eff.bind m k) = Eff.Throw e.
Proof.
  destruct m as [l [v | e']]; cbn; intros H; [discriminate | congruence].
Qed.

(** *** The persisted state *)

Definition loadWarning : Eff.LogEntry :=
  {| Eff.title := "SCHEDULER";
     Eff.message := "Failed to load scheduler state";
     Eff.level := Eff.LevelWarn |}.

(** C8: [loadState] returns a state for every state file and never throws;
    a missing file gives the default state
    [{lastRunDate: "", nextRunTime: 0, consecutiveFailures: 0, isRunning: false}]
    without a log line, and a file that does not parse (or cannot be read)
    gives the same default state after one warning. *)
Theorem loadState_never_throws :
  (forall file, exists state, Eff.outcome (loadState file) = Eff.Ok state)
  /\ loadState Missing = ([], Eff.Ok defaultState)
  /\ (forall text, loadState (Present (Garbage text)) = ([loadWarning], Eff.Ok defaultState))
  /\ (forall description,
        loadState (Unreadable description) = ([loadWarning], Eff.Ok defaultState))
  /\ lastRunDate defaultState = ""%string
  /\ nextRunTime defaultState = 0
  /\ consecutiveFailures defaultState = 0
  /\ isRunning defaultState = false
  /\ lastFailureTime defaultState = None.
Proof.
  repeat split; try reflexivity.
  intros [| description | [text | fields]]; eexists; reflexivity.
Qed.

(** A file that parses overrides the defaults field by field. *)
Lemma loadState_parsed (fields : StoredFields) :
  loadState (Present (Json fields)) = ([], Eff.Ok (spread defaultState fields)).
Proof. reflexivity. Qed.


(** *** The time of day *)

Lemma digit_not_colon (c : ascii) : isDigit c = true -> Ascii.eqb c ":" = false.
Proof.
  intros H. destruct (Ascii.eqb_spec c ":") as [-> | _]; [| reflexivity].
  vm_compute in H. discriminate H.
Qed.

Lemma charBetween_bounds (lo hi c : ascii) :
  charBetween lo hi c = true ->
  Z.of_nat (nat_of_ascii lo) <= Z.of_nat (nat_of_ascii c) <= Z.of_nat (nat_of_ascii hi).
Proof.
  unfold charBetween. rewrite andb_true_iff, !Nat.leb_le. lia.
Qed.

Lemma charBetween_digit (lo hi c : ascii) :
  isDigit lo = true -> isDigit hi = true -> charBetween lo hi c = true -> isDigit c = true.
Proof.
  unfold isDigit, charBetween. rewrite !andb_true_iff, !Nat.leb_le. lia.
Qed.

Lemma eqb_two_digit (c : ascii) : Ascii.eqb c "2" = true -> isDigit c = true.
Proof. intros H. apply Ascii.eqb_eq in H. now subst. Qed.

(** A time of day accepted by the regular expression splits into an hour in
    0..23 and a minute in 0..59. *)
Lemma timeRegex_hoursMinutes (s : string) :
  timeRegex_test s = true ->
  exists hours minutes,
    hoursMinutes s = Some (hours, minutes)
    /\ 0 <= hours <= 23 /\ 0 <= minutes <= 59.
Proof.
  unfold timeRegex_test.
  destruct s as [| c1 [| c2 [| c3 [| c4 [| c5 [| c6 s]]]]]]; cbn [list_ascii_of_string];
    try discriminate.
  - (* H:MM *)
    rewrite !andb_true_iff. intros [[[H1 H2] H3] H4].
    apply Ascii.eqb_eq in H2. subst c2.
    pose proof (charBetween_digit "0" "5" c3 eq_refl eq_refl H3) as D3.
    unfold hoursMinutes. cbn [split_colon].
    rewrite (digit_not_colon c1 H1), (digit_not_colon c3 D3), (digit_not_colon c4 H4).
    cbn. unfold Number. cbn [digitsValue]. rewrite H1, D3, H4.
    eexists. eexists. split; [reflexivity |].
    apply charBetween_bounds in H1, H3, H4. cbn in H1, H3, H4. lia.
  - (* HH:MM *)
    rewrite !andb_true_iff, orb_true_iff, !andb_true_iff.
    intros [[[[[Ha Hb] | [Ha Hb]] H3] H4] H5];
      apply Ascii.eqb_eq in H3; subst c3.
    + pose proof (charBetween_digit "0" "1" c1 eq_refl eq_refl Ha) as D1.
      pose proof (charBetween_digit "0" "5" c4 eq_refl eq_refl H4) as D4.
      unfold hoursMinutes. cbn [split_colon].
      rewrite (digit_not_colon c1 D1), (digit_not_colon c2 Hb),
        (digit_not_colon c4 D4), (digit_not_colon c5 H5).
      cbn. unfold Number. cbn [digitsValue]. rewrite D1, Hb, D4, H5.
      eexists. eexists. split; [reflexivity |].
      apply charBetween_bounds in Ha, Hb, H4, H5. cbn in Ha, Hb, H4, H5. lia.
    + pose proof (eqb_two_digit c1 Ha) as D1.
      pose proof (charBetween_digit "0" "3" c2 eq_refl eq_refl Hb) as D2.
      pose proof (charBetween_digit "0" "5" c4 eq_refl eq_refl H4) as D4.
      unfold hoursMinutes. cbn [split_colon].
      rewrite (digit_not_colon c1 D1), (digit_not_colon c2 D2),
        (digit_not_colon c4 D4), (digit_not_colon c5 H5).
      cbn. unfold Number. cbn [digitsValue]. rewrite D1, D2, D4, H5.
      eexists. eexists. split; [reflexivity |].
      apply Ascii.eqb_eq in Ha. subst c1.
      apply charBetween_bounds in Hb, H4, H5. cbn in Hb, H4, H5. cbn. lia.
Qed.

Lemma validateConfig_accepts (config : ConfigScheduler) :
  Eff.outcome (validateConfig config) = Eff.Ok true ->
  timeRegex_test (dailyRunTime config) = true
  /\ RandomDelayMinutes.min (randomDelayMinutes config)
     < RandomDelayMinutes.max (randomDelayMinutes config).
Proof.
  unfold validateConfig.
  destruct (timeRegex_test (dailyRunTime config)); cbn; [| discriminate].
  destruct (Z.geb_spec (RandomDelayMinutes.min (randomDelayMinutes config))
                       (RandomDelayMinutes.max (randomDelayMinutes config)));
    cbn; [discriminate |]. intros _. split; [reflexivity | lia].
Qed.

(** *** The zone offset *)

(** The configuration shown in SCHEDULER.md, for a zone and a time of day. *)
Definition documentedConfig (dailyRunTime timezone : string) : ConfigScheduler :=
  {| enabled := true;
     dailyRunTime := dailyRunTime;
     timezone := timezone;
     randomDelayMinutes := {| RandomDelayMinutes.min := 5; RandomDelayMinutes.max := 50 |};
     retryOnFailure := {| RetryOnFailure.enabled := true;
                          RetryOnFailure.maxRetries := 3;
                          RetryOnFailure.retryDelayMinutes := 30 |} |}.

(** The two zone names whose clause reads [now] without declaring it. *)
Definition readsUndeclaredNow (tz : string) : bool :=
  String.eqb tz "America/New_York" || String.eqb tz "EST".

Definition unknownZoneWarning (tz : string) : Eff.LogEntry :=
  {| Eff.title := "SCHEDULER";
     Eff.message := String.append "Unknown timezone "
                      (String.append tz ", using system timezone");
     Eff.level := Eff.LevelWarn |}.

Section OffsetFacts.

Variable host : Host.t.
Variable config : ConfigScheduler.

Lemma offset_UTC clock :
  timezone config = "UTC"%string ->
  getConfiguredTimezoneOffset host config clock = ([], Eff.Ok 0).
Proof. intros E. unfold getConfiguredTimezoneOffset. now rewrite E. Qed.

Lemma offset_Paris clock :
  timezone config = "Europe/Paris"%string \/ timezone config = "CET"%string ->
  getConfiguredTimezoneOffset host config clock
  = ([], Eff.Ok (if (Host.getMonth host clock >=? 2) && (Host.getMonth host clock <=? 9)
                 then -7200000 else -3600000)).
Proof.
  intros [E | E]; unfold getConfiguredTimezoneOffset; rewrite E; cbn;
    destruct (Z.eqb_spec (Host.getMonth host clock) 6) as [-> | _]; cbn; reflexivity.
Qed.

Lemma offset_New_York clock :
  readsUndeclaredNow (timezone config) = true ->
  getConfiguredTimezoneOffset host config clock = ([], Eff.Throw (Eff.ReferenceError "now")).
Proof.
  unfold readsUndeclaredNow, getConfiguredTimezoneOffset.
  rewrite orb_true_iff. intros [E | E]; apply String.eqb_eq in E; rewrite E; reflexivity.
Qed.

Lemma offset_returns clock :
  readsUndeclaredNow (timezone config) = false ->
  exists offset, Eff.outcome (getConfiguredTimezoneOffset host config clock) = Eff.Ok offset.
Proof.
  unfold readsUndeclaredNow, getConfiguredTimezoneOffset. intros E.
  destruct (String.eqb (timezone config) "UTC"); [eexists; reflexivity |].
  destruct (String.eqb (timezone config) "Europe/Paris" || String.eqb (timezone config) "CET");
    [eexists; reflexivity |].
  rewrite E. eexists; reflexivity.
Qed.

(** An unrecognised zone name falls back to the host's offset, with one
    warning. *)
Lemma offset_unknown clock :
  String.eqb (timezone config) "UTC" = false ->
  String.eqb (timezone config) "Europe/Paris" = false ->
  String.eqb (timezone config) "CET" = false ->
  readsUndeclaredNow (timezone config) = false ->
  getConfiguredTimezoneOffset host config clock
  = ([unknownZoneWarning (timezone config)],
     Eff.Ok (- Host.getTimezoneOffset host clock * 60 * 1000)).
Proof.
  unfold readsUndeclaredNow, getConfiguredTimezoneOffset. intros -> -> -> ->. reflexivity.
Qed.

(** For every accepted time of day and every zone name but the two above,
    the scheduled instant is computed. *)
Lemma getScheduledTimeForDate_returns clock date :
  timeRegex_test (dailyRunTime config) = true ->
  readsUndeclaredNow (timezone config) = false ->
  exists instant,
    Eff.outcome (getScheduledTimeForDate host config clock date) = Eff.Ok instant.
Proof.
  intros Htime Hzone. unfold getScheduledTimeForDate.
  destruct (timeRegex_hoursMinutes _ Htime) as (hours & minutes & -> & _).
  destruct (offset_returns clock Hzone) as (offset & Hoffset).
  eexists. erewrite outcome_bind_ok by exact Hoffset. reflexivity.
Qed.

End OffsetFacts.

(** C3: with the documented configuration and the zone name
    'America/New_York' (or 'EST'), computing the scheduled instant throws on
    every host, at every instant and for every date: the clause reads the
    constant [now] that only the 'Europe/Paris' clause initialises. *)
Theorem scheduled_instant_throws_for_New_York (host : Host.t) (clock date : Z) :
  Eff.outcome (getScheduledTimeForDate host (documentedConfig "14:30" "America/New_York")
                 clock date)
  = Eff.Throw (Eff.ReferenceError "now")
  /\ Eff.outcome (getScheduledTimeForDate host (documentedConfig "14:30" "EST") clock date)
     = Eff.Throw (Eff.ReferenceError "now").
Proof. split; reflexivity. Qed.

(** *** Whether a run is due *)

Definition retryDelayMs (config : ConfigScheduler) : Z :=
  RetryOnFailure.retryDelayMinutes (retryOnFailure config) * 60 * 1000.

(** The condition of the specification, in its words: no run date
    recorded; or the recorded date is not today and today's scheduled
    instant has come; or retries are enabled, there are failures, and the
    retry delay has elapsed since the last failure. *)
Definition due_as_specified (config : ConfigScheduler) (state : SchedulerState)
    (today : string) (todayScheduledTime now : Z) : Prop :=
  lastRunDate state = ""%string
  \/ (lastRunDate state <> today /\ todayScheduledTime <= now)
  \/ (RetryOnFailure.enabled (retryOnFailure config) = true
      /\ 0 < consecutiveFailures state
      /\ exists failed, lastFailureTime state = Some failed
                        /\ failed + retryDelayMs config <= now).

(** The condition the code tests: the last failure time must also be
    recorded and not 0. *)
Definition due (config : ConfigScheduler) (state : SchedulerState)
    (today : string) (todayScheduledTime now : Z) : Prop :=
  lastRunDate state = ""%string
  \/ (lastRunDate state <> today /\ todayScheduledTime <= now)
  \/ (RetryOnFailure.enabled (retryOnFailure config) = true
      /\ 0 < consecutiveFailures state
      /\ exists failed, lastFailureTime state = Some failed
                        /\ failed <> 0
                        /\ failed + retryDelayMs config <= now).

(** The statement of the specification at one input. *)
Definition true_exactly_when_specified (host : Host.t) (config : ConfigScheduler)
    (state : SchedulerState) (clock : Z) (today : string) (todayScheduledTime : Z) : Prop :=
  Eff.outcome (shouldRunNow host config state clock) = Eff.Ok true
  <-> due_as_specified config state today todayScheduledTime clock.

Lemma getTodayDateString_ok host clock today :
  Eff.outcome (getTodayDateString host clock) = Eff.Ok today ->
  Host.toISODate host clock = today /\ today <> ""%string.
Proof.
  unfold getTodayDateString.
  destruct (String.eqb_spec (Host.toISODate host clock) ""); cbn; intros H.
  - discriminate H.
  - injection H as <-. auto.
Qed.

(** C6 (as the code has it): when today's date string and today's
    scheduled instant are computed, [shouldRunNow] returns, and it returns
    true exactly when no run date is recorded; or the recorded date is not
    today and now is at or past today's scheduled instant; or retries are
    enabled, [consecutiveFailures > 0], a non-zero [lastFailureTime] is
    recorded and now is at or past it plus the retry delay.  So it is true
    on a state without run date and false when the recorded date is today
    and [consecutiveFailures] is 0. *)
Theorem shouldRunNow_exact (host : Host.t) (config : ConfigScheduler)
    (state : SchedulerState) (clock : Z) (today : string) (todayScheduledTime : Z) :
  Eff.outcome (getTodayDateString host clock) = Eff.Ok today ->
  Eff.outcome (getTodayScheduledTime host config clock) = Eff.Ok todayScheduledTime ->
  exists answer,
    Eff.outcome (shouldRunNow host config state clock) = Eff.Ok answer
    /\ (answer = true <-> due config state today todayScheduledTime clock)
    /\ (lastRunDate state = ""%string -> answer = true)
    /\ (lastRunDate state = today -> consecutiveFailures state = 0 -> answer = false).
Proof.
  intros Htoday Hsched.
  pose proof (getTodayDateString_ok host clock Htoday) as [_ Hnonempty].
  assert (exists answer,
             Eff.outcome (shouldRunNow host config state clock) = Eff.Ok answer
             /\ (answer = true <-> due config state today todayScheduledTime clock))
    as (answer & Hrun & Hiff).
  { unfold shouldRunNow. erewrite outcome_bind_ok by exact Htoday.
    unfold due, retryDelayMs.
    destruct (String.eqb_spec (lastRunDate state) "") as [Hempty | Hrecorded].
    { exists true. cbn. split; [reflexivity |]. split; [| reflexivity]. intros _. now left. }
    destruct (String.eqb_spec (lastRunDate state) today) as [Hsame | Hother]; cbn [negb].
    - (* the recorded date is today *)
      rewrite outcome_bind_ok with (a := false) by reflexivity.
      destruct (RetryOnFailure.enabled (retryOnFailure config)) eqn:Henabled; cbn [andb].
      2: { exists false. cbn. split; [reflexivity |]. split; [discriminate |].
           intros [H | [[H _] | [H _]]]; congruence. }
      destruct (Z.gtb_spec (consecutiveFailures state) 0) as [Hfail | Hnofail]; cbn [andb].
      2: { exists false. cbn. split; [reflexivity |]. split; [discriminate |].
           intros [H | [[H _] | (_ & H & _)]]; try congruence; lia. }
      destruct (lastFailureTime state) as [failed |] eqn:Hfailed; cbn [truthy orElse].
      2: { exists false. cbn. split; [reflexivity |]. split; [discriminate |].
           intros [H | [[H _] | (_ & _ & f & H & _)]]; congruence. }
      destruct (Z.eqb_spec failed 0) as [Hzero | Hnonzero]; cbn [negb].
      { exists false. cbn. split; [reflexivity |]. split; [discriminate |].
        intros [H | [[H _] | (_ & _ & f & H & Hf & _)]]; congruence. }
      destruct (Z.geb_spec clock
                  (failed + RetryOnFailure.retryDelayMinutes (retryOnFailure config) * 60 * 1000))
        as [Hpast | Hearly].
      + exists true. cbn. split; [reflexivity |]. split; [| reflexivity].
        intros _. right. right. repeat split; try lia.
        exists failed. repeat split; [assumption | lia].
      + exists false. cbn. split; [reflexivity |]. split; [discriminate |].
        intros [H | [[H _] | (_ & _ & f & H & _ & Hf)]]; try congruence.
        injection H as <-. lia.
    - (* another date is recorded *)
      erewrite outcome_bind_ok with (a := clock >=? todayScheduledTime).
      2: { erewrite outcome_bind_ok by exact Hsched. reflexivity. }
      destruct (Z.geb_spec clock todayScheduledTime) as [Hpast | Hearly].
      { exists true. cbn. split; [reflexivity |]. split; [| reflexivity].
        intros _. right. left. split; [assumption | lia]. }
      destruct (RetryOnFailure.enabled (retryOnFailure config)) eqn:Henabled; cbn [andb].
      2: { exists false. cbn. split; [reflexivity |]. split; [discriminate |].
           intros [H | [[_ H] | [H _]]]; try congruence; lia. }
      destruct (Z.gtb_spec (consecutiveFailures state) 0) as [Hfail | Hnofail]; cbn [andb].
      2: { exists false. cbn. split; [reflexivity |]. split; [discriminate |].
           intros [H | [[_ H] | (_ & H & _)]]; try congruence; lia. }
      destruct (lastFailureTime state) as [failed |] eqn:Hfailed; cbn [truthy orElse].
      2: { exists false. cbn. split; [reflexivity |]. split; [discriminate |].
           intros [H | [[_ H] | (_ & _ & f & H & _)]]; try congruence; lia. }
      destruct (Z.eqb_spec failed 0) as [Hzero | Hnonzero]; cbn [negb].
      { exists false. cbn. split; [reflexivity |]. split; [discriminate |].
        intros [H | [[_ H] | (_ & _ & f & H & Hf & _)]]; try congruence; lia. }
      destruct (Z.geb_spec clock
                  (failed + RetryOnFailure.retryDelayMinutes (retryOnFailure config) * 60 * 1000))
        as [Hpast' | Hearly'].
      + exists true. cbn. split; [reflexivity |]. split; [| reflexivity].
        intros _. right. right. repeat split; try lia.
        exists failed. repeat split; [assumption | lia].
      + exists false. cbn. split; [reflexivity |]. split; [discriminate |].
        intros [H | [[_ H] | (_ & _ & f & H & _ & Hf)]]; try congruence; try lia.
        injection H as <-. lia. }
  exists answer. repeat split; try assumption; try apply Hiff.
  - intros Hfresh. apply Hiff. now left.
  - intros Hsame Hzero. destruct answer; [| reflexivity].
    destruct (proj1 Hiff eq_refl) as [H | [[H _] | (_ & H & _)]]; try congruence; lia.
Qed.

(** 2025-01-23 07:00 UTC, an hour after the documented run time. *)
Definition jan23_0700 : Z := 1737615600000.

Lemma shouldRunNow_exact_witness :
  exists answer,
    Eff.outcome (shouldRunNow Host.utc (documentedConfig "06:00" "UTC") defaultState jan23_0700)
    = Eff.Ok answer
    /\ answer = true.
Proof.
  destruct (@shouldRunNow_exact Host.utc (documentedConfig "06:00" "UTC") defaultState
              jan23_0700 "2025-01-23" 1737612000000)
    as (answer & Hrun & _ & Hfresh & _).
  - reflexivity.
  - reflexivity.
  - exists answer. split; [exact Hrun | apply Hfresh; reflexivity].
Defined.

(** A state whose last failure is recorded at instant 0. *)
Definition failedAtEpoch : SchedulerState :=
  {| lastRunDate := "2025-01-23";
     nextRunTime := 0;
     consecutiveFailures := 1;
     isRunning := false;
     lastFailureTime := Some 0 |}.

(** Counterexample to C6 as stated: on 2025-01-23 at 07:00 UTC, with one
    failure recorded at instant 0 and a 30 minute retry delay, the
    condition of the specification holds and [shouldRunNow] returns
    false. *)
Lemma shouldRunNow_ignores_failure_at_epoch :
  ~ true_exactly_when_specified Host.utc (documentedConfig "06:00" "UTC") failedAtEpoch
      jan23_0700 "2025-01-23" 1737612000000.
Proof.
  intros [_ H].
  assert (Eff.outcome
            (shouldRunNow Host.utc (documentedConfig "06:00" "UTC") failedAtEpoch jan23_0700)
          = Eff.Ok true) as Habs.
  { apply H. right. right. repeat split.
    exists 0. split; [reflexivity |]. vm_compute. discriminate. }
  vm_compute in Habs. discriminate Habs.
Qed.

(** *** The next run time *)

Lemma Math_floor_scaled (rand : Q) (k : Z) :
  (0 <= rand)%Q -> (rand < 1)%Q -> 0 < k ->
  0 <= JS.Math_floor (rand * inject_Z k)%Q < k.
Proof.
  intros H0 H1 Hk. unfold JS.Math_floor. split.
  - change 0 with (Qfloor 0). apply Qfloor_resp_le.
    apply Qmult_le_0_compat; [assumption |].
    change 0%Q with (inject_Z 0). rewrite <- Zle_Qle. lia.
  - rewrite Zlt_Qlt. eapply Qle_lt_trans; [apply Qfloor_le |].
    rewrite <- (Qmult_1_l (inject_Z k)) at 2.
    apply Qmult_lt_compat_r; [| assumption].
    change 0%Q with (inject_Z 0). rewrite <- Zlt_Qlt. lia.
Qed.

(** The jitter is a whole number of minutes between [min] and [max]. *)
Lemma getRandomDelay_bounds (config : ConfigScheduler) (rand : Q) :
  RandomDelayMinutes.min (randomDelayMinutes config)
  < RandomDelayMinutes.max (randomDelayMinutes config) ->
  (0 <= rand)%Q -> (rand < 1)%Q ->
  exists minutes,
    getRandomDelay config rand = minutes * 60 * 1000
    /\ RandomDelayMinutes.min (randomDelayMinutes config) <= minutes
    /\ minutes <= RandomDelayMinutes.max (randomDelayMinutes config).
Proof.
  intros Hlt H0 H1. unfold getRandomDelay.
  pose proof (@Math_floor_scaled rand
                (RandomDelayMinutes.max (randomDelayMinutes config)
                 - RandomDelayMinutes.min (randomDelayMinutes config) + 1) H0 H1 ltac:(lia)).
  eexists. split; [reflexivity |]. lia.
Qed.

(** The statement of the specification at one input: the next run time is
    computed and lies after now. *)
Definition next_run_after_now (host : Host.t) (config : ConfigScheduler)
    (clock : Z) (rand : Q) : Prop :=
  exists next,
    Eff.outcome (calculateNextRunTime host config clock rand) = Eff.Ok next
    /\ clock < next.

(** The next run time is the target plus the jitter. *)
Lemma calculateNextRunTime_returns (host : Host.t) (config : ConfigScheduler)
    (clock : Z) (rand : Q) (today tomorrow : Z) :
  Eff.outcome (getTodayScheduledTime host config clock) = Eff.Ok today ->
  Eff.outcome (getTomorrowScheduledTime host config clock) = Eff.Ok tomorrow ->
  Eff.outcome (calculateNextRunTime host config clock rand)
  = Eff.Ok ((if clock >=? today then tomorrow else today) + getRandomDelay config rand).
Proof.
  intros Htoday Htomorrow. unfold calculateNextRunTime.
  erewrite outcome_bind_ok by exact Htoday.
  destruct (clock >=? today).
  - erewrite outcome_bind_ok by exact Htomorrow. reflexivity.
  - reflexivity.
Qed.





(** X13: on a host whose local zone is UTC, with the zone 'UTC' configured
    and a non-negative jitter, the next run time is always after now. *)
Lemma next_run_after_now_in_UTC (config : ConfigScheduler) (clock : Z) (rand : Q) :
  Eff.outcome (validateConfig config) = Eff.Ok true ->
  timezone config = "UTC"%string ->
  0 <= RandomDelayMinutes.min (randomDelayMinutes config) ->
  (0 <= rand)%Q -> (rand < 1)%Q ->
  next_run_after_now Host.utc config clock rand.
Proof.
  intros Hvalid Hzone Hnonneg H0 H1.
  destruct (validateConfig_accepts config Hvalid) as [Htime Hlt].
  destruct (timeRegex_hoursMinutes _ Htime) as (hours & minutes & Hhm & Hh & Hm).
  set (today := clock / 86400000 * 86400000 + hours * 3600000 + minutes * 60000).
  set (tomorrow := (clock + 86400000) / 86400000 * 86400000
                   + hours * 3600000 + minutes * 60000).
  assert (Eff.outcome (getTodayScheduledTime Host.utc config clock) = Eff.Ok today) as Htoday.
  { unfold getTodayScheduledTime, getScheduledTimeForDate. rewrite Hhm.
    rewrite (offset_UTC Host.utc config clock Hzone).
    cbn [Eff.outcome Eff.bind Eff.ret snd].
    unfold Host.utc, Host.fixedOffset, Host.msPerDay. cbn [Host.setHours].
    change (24 * 60 * 60 * 1000) with 86400000.
    replace (clock - 0 * 60000) with clock by lia.
    f_equal. subst today. lia. }
  assert (Eff.outcome (getTomorrowScheduledTime Host.utc config clock) = Eff.Ok tomorrow)
    as Htomorrow.
  { unfold getTomorrowScheduledTime, getScheduledTimeForDate. rewrite Hhm.
    rewrite (offset_UTC Host.utc config clock Hzone).
    cbn [Eff.outcome Eff.bind Eff.ret snd].
    unfold Host.utc, Host.fixedOffset, Host.msPerDay. cbn [Host.setHours Host.nextDay].
    change (24 * 60 * 60 * 1000) with 86400000.
    replace (clock + 86400000 - 0 * 60000) with (clock + 86400000) by lia.
    f_equal. subst tomorrow. lia. }
  destruct (getRandomDelay_bounds config Hlt H0 H1) as (jitter & Hdelay & Hmin & _).
  eexists. split.
  - apply (calculateNextRunTime_returns Host.utc config clock rand Htoday Htomorrow).
  - rewrite Hdelay.
    destruct (Z.geb_spec clock today); subst today tomorrow;
      Z.div_mod_to_equations; lia.
Qed.

(** *** Once the retry cap is reached *)

(** The machine after a method, whether it returned or threw. *)
Definition after {A} (c : Method A) (m : Machine) : Machine := fst (c m).

Definition returned {A} (c : Method A) (m : Machine) : bool :=
  match snd (c m) with
  | Eff.Ok _ => true
  | Eff.Throw _ => false
  end.


(** Nothing was run and the failure count did not move. *)
Definition quiet (m m' : Machine) : Prop :=
  scriptRuns m' = scriptRuns m
  /\ inFlight m' = inFlight m
  /\ consecutiveFailures (state m') = consecutiveFailures (state m).

Lemma quiet_refl m : quiet m m.
Proof. repeat split. Qed.

Lemma quiet_trans m1 m2 m3 : quiet m1 m2 -> quiet m2 m3 -> quiet m1 m3.
Proof. unfold quiet. intuition congruence. Qed.

Section Cap.

Variable host : Host.t.
Variable config : ConfigScheduler.
Variable random : nat -> Q.

Lemma scheduleNext_calling_quiet (exec : Method unit) (clock : Z) (m : Machine) :
  (forall m1, quiet m m1 -> quiet m1 (after exec m1)) ->
  quiet m (after (scheduleNext_calling host config random exec clock) m).
Proof.
  intros Hexec.
  unfold scheduleNext_calling, after, mbind, get, Math_random, lift, mlog, modify,
    saveState, mret.
  cbn [fst snd]. destruct (isShuttingDown m); cbn [fst snd]; [apply quiet_refl |].
  destruct (calculateNextRunTime host config clock (random (draws m)))
    as [lines [next | error]]; cbn [fst snd Eff.outcome Eff.logs];
    [| repeat split].
  destruct (next - clock <=? 0); cbn [fst snd].
  - eapply quiet_trans; [| apply Hexec]; repeat split.
  - repeat split.
Qed.

(** With retries enabled and [consecutiveFailures >= maxRetries], a call
    of [executeWithRetry] starts no run and leaves the count as it is:
    whenever it happens, on whatever day. *)
Lemma executeWithRetry_at_cap (depth : nat) (clock : Z) :
  forall m,
    RetryOnFailure.enabled (retryOnFailure config) = true ->
    RetryOnFailure.maxRetries (retryOnFailure config) <= consecutiveFailures (state m) ->
    quiet m (after (executeWithRetry host config random depth clock) m).
Proof.
  induction depth as [| depth IH]; intros m Henabled Hcap; [apply quiet_refl |].
  assert (forall m1, quiet m m1 ->
                     quiet m1 (after (executeWithRetry host config random depth clock) m1))
    as Hnested.
  { intros m1 (_ & _ & Hsame). apply IH; [assumption | lia]. }
  cbn [executeWithRetry].
  unfold after, mbind at 1, get. cbn [fst snd].
  destruct (isRunning (state m)); [repeat split |].
  unfold mbind at 1, lift at 1.
  destruct (getTodayDateString host clock) as [lines [today | error]];
    cbn [fst snd Eff.outcome Eff.logs]; [| repeat split].
  set (m0 := with_journal (journal m ++ lines) m).
  assert (quiet m m0) as Hm0 by repeat split.
  destruct (String.eqb (lastRunDate (state m)) today && (consecutiveFailures (state m) =? 0)).
  - unfold mbind at 1, mlog, lift. cbn [fst snd Eff.outcome Eff.logs Eff.log].
    eapply quiet_trans; [| apply scheduleNext_calling_quiet].
    + repeat split.
    + intros m1 H1. apply Hnested.
      eapply quiet_trans; [| exact H1]. repeat split.
  - rewrite Henabled.
    destruct (Z.geb_spec (consecutiveFailures (state m))
                         (RetryOnFailure.maxRetries (retryOnFailure config))) as [_ | Hlt];
      [| lia].
    cbn [andb]. unfold mbind at 1, mlog, lift. cbn [fst snd Eff.outcome Eff.logs Eff.log].
    eapply quiet_trans; [| apply scheduleNext_calling_quiet].
    + repeat split.
    + intros m1 H1. apply Hnested.
      eapply quiet_trans; [| exact H1]. repeat split.
Qed.

(** So does any timer that fires. *)
Lemma timerFires_at_cap (depth : nat) (timer : Timer) (clock : Z) (m : Machine) :
  RetryOnFailure.enabled (retryOnFailure config) = true ->
  RetryOnFailure.maxRetries (retryOnFailure config) <= consecutiveFailures (state m) ->
  quiet m (after (timerFires host config random depth timer clock) m).
Proof.
  intros Henabled Hcap. unfold timerFires, after, mbind, modify. cbn [fst snd].
  eapply quiet_trans;
    [| apply (@executeWithRetry_at_cap depth clock
                (with_timers (schedulerTimer m) (clearTimeout timer (pending m)) m)
                Henabled Hcap)].
  repeat split.
Qed.

End Cap.

(** *** Three failed runs in a row *)

(** The documented configuration, every draw of [Math.random()] being
    0.5 (28 minutes of jitter). *)
Definition documented : ConfigScheduler := documentedConfig "06:00" "UTC".

Definition halves : nat -> Q := fun _ => 1 # 2.

Section Scenario.

Let config := documented.
Let random := halves.
Let depth : nat := 8%nat.

(** 2025-01-23, 07:00 UTC: the scheduler starts without a state file; the
    run is due at once and fails at 07:10. *)
Definition started : Machine :=
  after (start Host.utc config random depth jan23_0700) (create Missing).

Definition failedOnce : Machine :=
  after (executeWithRetry_resume Host.utc config random depth
           (Some "Microsoft Rewards bot execution failed"%string) (jan23_0700 + 600000)) started.

(** The retry timer fires at 07:40; the second run fails at 07:50. *)
Definition retry1 : Timer := {| kind := RetryTimer; fireAt := jan23_0700 + 2400000 |}.

Definition failedTwice : Machine :=
  after (executeWithRetry_resume Host.utc config random depth
           (Some "Microsoft Rewards bot execution failed"%string) (jan23_0700 + 3000000))
    (after (timerFires Host.utc config random depth retry1 (fireAt retry1)) failedOnce).

(** The second retry timer fires at 08:20; the third run fails at 08:30. *)
Definition retry2 : Timer := {| kind := RetryTimer; fireAt := jan23_0700 + 4800000 |}.

Definition failedThrice : Machine :=
  after (executeWithRetry_resume Host.utc config random depth
           (Some "Microsoft Rewards bot execution failed"%string) (jan23_0700 + 5400000))
    (after (timerFires Host.utc config random depth retry2 (fireAt retry2)) failedTwice).

(** The daily timer armed after the third failure: 2025-01-24, 06:28 UTC. *)
Definition daily1 : Timer := {| kind := DailyTimer; fireAt := 1737700080000 |}.

Definition nextDay : Machine :=
  after (timerFires Host.utc config random depth daily1 (fireAt daily1)) failedThrice.

End Scenario.

(** C2: with retries enabled, [maxRetries = 3] and a 30 minute delay, three
    failed runs in a row leave [consecutiveFailures = 3] and no retry timer
    (only the daily timer, armed for the next day at 06:28); but when that
    timer fires on the next day, no run is started: the counter is still 3,
    the call ends in the "Max retries exceeded for today" branch and only
    arms the daily timer again.  The same holds for any timer firing at any
    later instant. *)
Theorem three_failures_block_the_next_day :
  consecutiveFailures (state failedThrice) = 3
  /\ pending failedThrice = [daily1]
  /\ Host.toISODate Host.utc (fireAt daily1) = "2025-01-24"%string
  /\ scriptRuns failedThrice = [jan23_0700; fireAt retry1; fireAt retry2]
  /\ scriptRuns nextDay = scriptRuns failedThrice
  /\ returned (timerFires Host.utc documented halves 8 daily1 (fireAt daily1)) failedThrice
     = true
  /\ inFlight nextDay = None
  /\ consecutiveFailures (state nextDay) = 3
  /\ pending nextDay = [{| kind := DailyTimer; fireAt := fireAt daily1 + Host.msPerDay |}]
  /\ map Eff.message (skipn (length (journal failedThrice)) (journal nextDay))
     = ["Max retries exceeded for today"; "Next run scheduled"]%string
  /\ (forall depth timer clock,
        let later := after (timerFires Host.utc documented halves depth timer clock)
                       failedThrice in
        scriptRuns later = scriptRuns failedThrice
        /\ inFlight later = None
        /\ consecutiveFailures (state later) = 3).
Proof.
  do 10 (split; [vm_compute; reflexivity |]).
  intros depth timer clock later.
  assert (consecutiveFailures (state failedThrice) = 3) as Hthree
    by (vm_compute; reflexivity).
  assert (inFlight failedThrice = None) as Hnone by (vm_compute; reflexivity).
  destruct (@timerFires_at_cap Host.utc documented halves depth timer clock failedThrice)
    as (Hruns & Hflight & Hcount).
  - reflexivity.
  - rewrite Hthree. cbn. lia.
  - subst later. rewrite Hruns, Hflight, Hcount. auto.
Qed.


End SchedulerFacts.

(** ** util/Scheduler.ts: the life cycle of the scheduler object *)

Module SchedulerLifecycle.

Import Scheduler.
Import SchedulerFacts.

Local Open Scope Z_scope.

(** Unfolds the plumbing of methods. *)
Ltac unfold_method :=
  cbv beta iota delta [after mbind get modify lift mlog saveState mret Math_random
                       fst snd Eff.outcome Eff.logs Eff.log].


(** One call made to the scheduler object from outside: [start()], a timer
    that fires, the reward script settling. *)
Inductive Call : Type :=
| CallStart (clock : Z)
| CallTimer (timer : Timer) (clock : Z)
| CallSettle (failure : option string) (clock : Z)
| CallStop
| CallShutdown.

Section Lifecycle.

Variable host : Host.t.
Variable config : ConfigScheduler.
Variable random : nat -> Q.
Variable depth : nat.

Definition perform (call : Call) : Method unit :=
  match call with
  | CallStart clock => start host config random depth clock
  | CallTimer timer clock => timerFires host config random depth timer clock
  | CallSettle failure clock => executeWithRetry_resume host config random depth failure clock
  | CallStop => stop
  | CallShutdown => shutdown
  end.

(** The machine after a sequence of calls, in order. *)
Fixpoint performAll (calls : list Call) (m : Machine) : Machine :=
  match calls with
  | [] => m
  | call :: rest => performAll rest (after (perform call) m)
  end.







End Lifecycle.


(** *** A scheduler that can no longer run *)

(** The scheduler will not start a run: a run is marked as running, or
    retries are enabled and the failure count has reached the cap. *)
Definition blocked (config : ConfigScheduler) (m : Machine) : Prop :=
  isRunning (state m) = true
  \/ (RetryOnFailure.enabled (retryOnFailure config) = true
      /\ RetryOnFailure.maxRetries (retryOnFailure config) <= consecutiveFailures (state m)).

(** Nothing was run, and what blocks the scheduler did not move. *)
Definition still (m m' : Machine) : Prop :=
  scriptRuns m' = scriptRuns m
  /\ inFlight m' = inFlight m
  /\ consecutiveFailures (state m') = consecutiveFailures (state m)
  /\ isRunning (state m') = isRunning (state m).

Lemma still_refl m : still m m.
Proof. repeat split. Qed.

Lemma still_trans m1 m2 m3 : still m1 m2 -> still m2 m3 -> still m1 m3.
Proof. unfold still. intuition congruence. Qed.

Lemma still_blocked config m m' : still m m' -> blocked config m -> blocked config m'.
Proof.
  intros (_ & _ & Hcount & Hrun) [H | [He Hcap]]; [left | right].
  - congruence.
  - split; [assumption | lia].
Qed.

Definition isSettle (call : Call) : bool :=
  match call with
  | CallSettle _ _ => true
  | _ => false
  end.

Section Blocked.

Variable host : Host.t.
Variable config : ConfigScheduler.
Variable random : nat -> Q.

Lemma scheduleNext_calling_still (exec : Method unit) (clock : Z) (m : Machine) :
  (forall m1, still m m1 -> still m1 (after exec m1)) ->
  still m (after (scheduleNext_calling host config random exec clock) m).
Proof.
  intros Hexec. unfold scheduleNext_calling. unfold_method.
  destruct (isShuttingDown m); [apply still_refl |].
  destruct (calculateNextRunTime host config clock (random (draws m)))
    as [lines [next | error]]; [| repeat split].
  destruct (next - clock <=? 0).
  - eapply still_trans; [| apply Hexec]; repeat split.
  - repeat split.
Qed.

Lemma executeWithRetry_still (d : nat) (clock : Z) :
  forall m, blocked config m ->
            still m (after (executeWithRetry host config random d clock) m).
Proof.
  induction d as [| d IH]; intros m Hblocked; [apply still_refl |].
  assert (forall m1, still m m1 ->
                     still m1 (after (executeWithRetry host config random d clock) m1))
    as Hnested.
  { intros m1 H1. apply IH. eapply still_blocked; eassumption. }
  cbn [executeWithRetry]. unfold_method.
  destruct (isRunning (state m)) eqn:Hrunning; [repeat split |].
  destruct Hblocked as [Habs | [Henabled Hcap]]; [congruence |].
  destruct (getTodayDateString host clock) as [lines [today | error]]; [| repeat split].
  cbn [state with_journal].
  destruct (String.eqb (lastRunDate (state m)) today && (consecutiveFailures (state m) =? 0)).
  - eapply still_trans; [| apply scheduleNext_calling_still].
    + repeat split.
    + intros m1 H1. apply Hnested. eapply still_trans; [| exact H1]. repeat split.
  - rewrite Henabled.
    destruct (Z.geb_spec (consecutiveFailures (state m))
                         (RetryOnFailure.maxRetries (retryOnFailure config))) as [_ | Hlt];
      [| lia].
    cbn [andb].
    eapply still_trans; [| apply scheduleNext_calling_still].
    + repeat split.
    + intros m1 H1. apply Hnested. eapply still_trans; [| exact H1]. repeat split.
Qed.

Lemma stop_still (m : Machine) : still m (after stop m).
Proof.
  unfold stop. unfold_method. cbn [schedulerTimer with_journal].
  destruct (schedulerTimer m); repeat split.
Qed.

Lemma perform_still (depth : nat) (call : Call) (m : Machine) :
  blocked config m ->
  inFlight m = None \/ isSettle call = false ->
  still m (after (perform host config random depth call) m).
Proof.
  intros Hblocked Hsettle.
  destruct call as [clock | timer clock | failure clock | |]; cbn [perform].
  - unfold start. destruct (negb (enabled config)); [repeat split |].
    unfold_method.
    destruct (validateConfig config) as [lines [valid | error]]; [| repeat split].
    destruct valid; cbn [negb]; [| repeat split].
    match goal with
    | |- context [shouldRunNow ?h ?c ?s ?k] =>
        destruct (shouldRunNow h c s k) as [lines' [due | error]]
    end; [| repeat split].
    destruct due.
    + eapply still_trans; [| apply executeWithRetry_still].
      * repeat split.
      * eapply still_blocked; [| exact Hblocked]. repeat split.
    + eapply still_trans; [| apply scheduleNext_calling_still].
      * repeat split.
      * intros m1 H1. apply executeWithRetry_still.
        eapply still_blocked; [| exact Hblocked].
        eapply still_trans; [| exact H1]. repeat split.
  - unfold timerFires. unfold_method.
    eapply still_trans; [| apply executeWithRetry_still].
    + repeat split.
    + eapply still_blocked; [| exact Hblocked]. repeat split.
  - destruct Hsettle as [Hnone | Habs]; [| discriminate Habs].
    unfold executeWithRetry_resume. unfold_method. rewrite Hnone. apply still_refl.
  - apply stop_still.
  - unfold shutdown. unfold_method.
    destruct (isShuttingDown m); [apply still_refl |].
    eapply still_trans; [| apply stop_still]. repeat split.
Qed.

Lemma performAll_still (depth : nat) (calls : list Call) :
  forall m,
    blocked config m ->
    inFlight m = None \/ forallb (fun call => negb (isSettle call)) calls = true ->
    still m (performAll host config random depth calls m).
Proof.
  induction calls as [| call rest IH]; intros m Hblocked Hsettle; cbn [performAll];
    [apply still_refl |].
  assert (still m (after (perform host config random depth call) m)) as Hstep.
  { apply perform_still; [assumption |].
    destruct Hsettle as [H | H]; [now left | right].
    cbn [forallb] in H. apply andb_true_iff in H as [H _].
    now apply negb_true_iff in H. }
  eapply still_trans; [exact Hstep |].
  apply IH.
  - eapply still_blocked; eassumption.
  - destruct Hsettle as [H | H]; [left | right].
    + destruct Hstep as (_ & Hflight & _). congruence.
    + cbn [forallb] in H. now apply andb_true_iff in H as [_ H].
Qed.

End Blocked.

(** X2: a state file left by a process that died during a run
    ([isRunning: true]) blocks the scheduler for good.  Loaded by a new
    process, it makes every call of [executeWithRetry] return at the
    "already running" guard: whatever the configuration and whatever calls
    follow ([start], timers firing, [stop], [shutdown]), the reward script
    is never run and [isRunning] stays true. *)
Theorem crashed_state_file_blocks_every_run (host : Host.t) (config : ConfigScheduler)
    (random : nat -> Q) (depth : nat) (fields : StoredFields) (calls : list Call) :
  stored_isRunning fields = Some true ->
  let m := performAll host config random depth calls (create (Present (Json fields))) in
  scriptRuns m = [] /\ inFlight m = None /\ isRunning (state m) = true.
Proof.
  intros Hrunning m.
  assert (isRunning (state (create (Present (Json fields)))) = true) as Hstart.
  { cbn. now rewrite Hrunning. }
  destruct (@performAll_still host config random depth calls
              (create (Present (Json fields))) (or_introl Hstart) (or_introl eq_refl))
    as (Hruns & Hflight & _ & Hstill).
  subst m. rewrite Hruns, Hflight, Hstill. auto.
Qed.

Lemma crashed_state_file_blocks_every_run_witness :
  scriptRuns
    (performAll Host.utc documented halves 8
       [CallStart jan23_0700;
        CallTimer {| kind := DailyTimer; fireAt := 1737700080000 |} 1737700080000]
       (create (Present (Json {| stored_lastRunDate := Some "2025-01-22"%string;
                                 stored_nextRunTime := Some 0;
                                 stored_consecutiveFailures := Some 0;
                                 stored_isRunning := Some true;
                                 stored_lastFailureTime := None |}))))
  = [].
Proof.
  apply (@crashed_state_file_blocks_every_run Host.utc documented halves 8
           {| stored_lastRunDate := Some "2025-01-22"%string;
              stored_nextRunTime := Some 0;
              stored_consecutiveFailures := Some 0;
              stored_isRunning := Some true;
              stored_lastFailureTime := None |}).
  reflexivity.
Defined.

(** X3: no two runs overlap.  While [isRunning] is set, no call of
    [start], no timer that fires and no [stop] or [shutdown] starts the
    reward script again or changes the failure count; only the settling of
    the run in flight ends this. *)
Theorem no_overlapping_runs (host : Host.t) (config : ConfigScheduler)
    (random : nat -> Q) (depth : nat) (calls : list Call) (m : Machine) :
  isRunning (state m) = true ->
  forallb (fun call => negb (isSettle call)) calls = true ->
  let m' := performAll host config random depth calls m in
  scriptRuns m' = scriptRuns m
  /\ inFlight m' = inFlight m
  /\ consecutiveFailures (state m') = consecutiveFailures (state m)
  /\ isRunning (state m') = true.
Proof.
  intros Hrunning Hcalls m'.
  destruct (@performAll_still host config random depth calls m
              (or_introl Hrunning) (or_intror Hcalls))
    as (Hruns & Hflight & Hcount & Hstill).
  subst m'. rewrite Hruns, Hflight, Hcount, Hstill. auto.
Qed.

Lemma no_overlapping_runs_witness :
  scriptRuns
    (performAll Host.utc documented halves 8
       [CallTimer {| kind := RetryTimer; fireAt := jan23_0700 + 60000 |} (jan23_0700 + 60000);
        CallStart (jan23_0700 + 120000)]
       started)
  = scriptRuns started.
Proof.
  apply (@no_overlapping_runs Host.utc documented halves 8
           [CallTimer {| kind := RetryTimer; fireAt := jan23_0700 + 60000 |}
              (jan23_0700 + 60000);
            CallStart (jan23_0700 + 120000)]
           started).
  - reflexivity.
  - reflexivity.
Defined.

(** X4: the retry cap is never lifted by time.  With retries enabled, once
    [consecutiveFailures] has reached [maxRetries] and no run is in
    flight, no sequence of calls ([start] after a restart, daily or retry
    timers on any later day, [stop], [shutdown]) runs the reward script or
    lowers the count. *)
Theorem retry_cap_blocks_every_later_run (host : Host.t) (config : ConfigScheduler)
    (random : nat -> Q) (depth : nat) (calls : list Call) (m : Machine) :
  RetryOnFailure.enabled (retryOnFailure config) = true ->
  RetryOnFailure.maxRetries (retryOnFailure config) <= consecutiveFailures (state m) ->
  inFlight m = None ->
  let m' := performAll host config random depth calls m in
  scriptRuns m' = scriptRuns m
  /\ consecutiveFailures (state m') = consecutiveFailures (state m).
Proof.
  intros Henabled Hcap Hnone m'.
  destruct (@performAll_still host config random depth calls m
              (or_intror (conj Henabled Hcap)) (or_introl Hnone))
    as (Hruns & _ & Hcount & _).
  subst m'. auto.
Qed.

Lemma retry_cap_blocks_every_later_run_witness :
  scriptRuns
    (performAll Host.utc documented halves 8
       [CallTimer daily1 (fireAt daily1); CallStart (fireAt daily1 + 86400000)]
       failedThrice)
  = scriptRuns failedThrice.
Proof.
  apply (@retry_cap_blocks_every_later_run Host.utc documented halves 8
           [CallTimer daily1 (fireAt daily1); CallStart (fireAt daily1 + 86400000)]
           failedThrice).
  - reflexivity.
  - vm_compute. discriminate.
  - reflexivity.
Defined.

(** *** The transitions of a run *)






Ltac simpl_machine :=
  cbn [state schedulerTimer pending isShuttingDown stateFile inFlight scriptRuns journal
       draws with_state with_timers with_isShuttingDown with_stateFile with_inFlight
       with_journal with_draws
       lastRunDate nextRunTime consecutiveFailures isRunning lastFailureTime
       set_lastRunDate set_nextRunTime set_consecutiveFailures set_isRunning
       set_lastFailureTime] in *.

Section Transitions.

Variable host : Host.t.
Variable config : ConfigScheduler.
Variable random : nat -> Q.






End Transitions.





(** X7: with retries disabled, a failed run below [maxRetries] leaves the
    scheduler without any new timer.  The failure path arms no retry timer
    (retries are off) and the final block re-arms the daily timer only
    when the count is 0 or has reached [maxRetries]: the pending timers are
    exactly those from before the run, so with none pending nothing will
    ever call the scheduler again. *)
Theorem failure_with_retries_disabled_arms_nothing (host : Host.t)
    (config : ConfigScheduler) (random : nat -> Q) (depth : nat) (clock : Z)
    (error today : string) (startTime : Z) (m : Machine) :
  inFlight m = Some (today, startTime) ->
  0 <= consecutiveFailures (state m) ->
  RetryOnFailure.enabled (retryOnFailure config) = false ->
  consecutiveFailures (state m) + 1 < RetryOnFailure.maxRetries (retryOnFailure config) ->
  let m' := after (executeWithRetry_resume host config random depth (Some error) clock) m in
  pending m' = pending m
  /\ schedulerTimer m' = schedulerTimer m
  /\ isRunning (state m') = false
  /\ inFlight m' = None
  /\ scriptRuns m' = scriptRuns m.
Proof.
  intros Hflight Hnonneg Hdisabled Hbelow m'.
  assert ((consecutiveFailures (state m) + 1 =? 0) = false) as Hnonzero
    by (apply Z.eqb_neq; lia).
  subst m'. unfold executeWithRetry_resume, scheduleNext. unfold_method.
  rewrite Hflight. simpl_machine. rewrite Hdisabled. cbn [andb].
  simpl_machine. rewrite Hnonzero. cbn [orb].
  destruct (Z.geb_spec (consecutiveFailures (state m) + 1)
                       (RetryOnFailure.maxRetries (retryOnFailure config))); [lia |].
  simpl_machine. repeat split.
Qed.

(** The documented configuration after [scheduler retry false 0 0]. *)
Definition retriesOff : ConfigScheduler :=
  {| enabled := true;
     dailyRunTime := "06:00";
     timezone := "UTC";
     randomDelayMinutes := {| RandomDelayMinutes.min := 5; RandomDelayMinutes.max := 50 |};
     retryOnFailure := {| RetryOnFailure.enabled := false;
                          RetryOnFailure.maxRetries := 3;
                          RetryOnFailure.retryDelayMinutes := 30 |} |}.

Lemma failure_with_retries_disabled_arms_nothing_witness :
  pending
    (after (executeWithRetry_resume Host.utc retriesOff halves 8
              (Some "Error: x"%string) (jan23_0700 + 600000))
       (after (start Host.utc retriesOff halves 8 jan23_0700) (create Missing)))
  = [].
Proof.
  apply (@failure_with_retries_disabled_arms_nothing Host.utc retriesOff halves 8
           (jan23_0700 + 600000) "Error: x" "2025-01-23" jan23_0700
           (after (start Host.utc retriesOff halves 8 jan23_0700) (create Missing))).
  - reflexivity.
  - vm_compute. discriminate.
  - reflexivity.
  - reflexivity.
Defined.

(** *** Starting and shutting down *)

(** X8: [start] refuses without throwing.  When the scheduler is disabled,
    when [dailyRunTime] is not of the form H:MM or HH:MM, or when the
    jitter bounds are not [min < max], [start] returns after writing at
    least one log line and changes nothing else: no run, no timer, no
    change of state or state file. *)
Theorem start_refuses_bad_configuration (host : Host.t) (config : ConfigScheduler)
    (random : nat -> Q) (depth : nat) (clock : Z) (m : Machine) :
  enabled config = false
  \/ timeRegex_test (dailyRunTime config) = false
  \/ RandomDelayMinutes.max (randomDelayMinutes config)
     <= RandomDelayMinutes.min (randomDelayMinutes config) ->
  exists lines,
    lines <> []
    /\ start host config random depth clock m
       = (with_journal (journal m ++ lines) m, Eff.Ok tt).
Proof.
  intros Hbad. unfold start.
  destruct (enabled config); cbn [negb].
  2: { eexists. split; [| reflexivity]. discriminate. }
  destruct Hbad as [Habs | Hbad]; [discriminate |].
  unfold validateConfig. unfold_method.
  destruct (timeRegex_test (dailyRunTime config)) eqn:Htime; cbn [negb].
  - destruct Hbad as [Habs | Hjitter]; [discriminate |].
    destruct (Z.geb_spec (RandomDelayMinutes.min (randomDelayMinutes config))
                         (RandomDelayMinutes.max (randomDelayMinutes config))); [| lia].
    cbn. eexists. split; [| rewrite <- !app_assoc; reflexivity]. discriminate.
  - cbn. eexists. split; [| rewrite <- !app_assoc; reflexivity]. discriminate.
Qed.

Lemma start_refuses_bad_configuration_witness :
  exists lines,
    start Host.utc (documentedConfig "6 o'clock" "UTC") halves 8 jan23_0700 (create Missing)
    = (with_journal (journal (create Missing) ++ lines) (create Missing), Eff.Ok tt).
Proof.
  destruct (@start_refuses_bad_configuration Host.utc (documentedConfig "6 o'clock" "UTC")
              halves 8 jan23_0700 (create Missing)) as (lines & _ & H).
  - right. left. reflexivity.
  - exists lines. exact H.
Defined.





Section Handle.

Variable host : Host.t.
Variable config : ConfigScheduler.
Variable random : nat -> Q.







End Handle.



(** *** Jitter and time of day *)

(** X11: the jitter takes exactly the whole minutes from [min] to [max].
    For [min < max], every draw in [0, 1) gives a delay of a whole number
    of minutes between [min] and [max] inclusive, and every such number of
    minutes is given by some draw. *)
Theorem getRandomDelay_takes_every_minute (config : ConfigScheduler) :
  RandomDelayMinutes.min (randomDelayMinutes config)
  < RandomDelayMinutes.max (randomDelayMinutes config) ->
  (forall rand, (0 <= rand)%Q -> (rand < 1)%Q ->
     exists minutes,
       getRandomDelay config rand = minutes * 60 * 1000
       /\ RandomDelayMinutes.min (randomDelayMinutes config) <= minutes
          <= RandomDelayMinutes.max (randomDelayMinutes config))
  /\ (forall minutes,
        RandomDelayMinutes.min (randomDelayMinutes config) <= minutes
        <= RandomDelayMinutes.max (randomDelayMinutes config) ->
        exists rand, (0 <= rand)%Q /\ (rand < 1)%Q
                     /\ getRandomDelay config rand = minutes * 60 * 1000).
Proof.
  intros Hlt. split.
  - intros rand H0 H1.
    destruct (getRandomDelay_bounds config Hlt H0 H1) as (minutes & E & Hmin & Hmax).
    exists minutes. auto.
  - intros minutes [Hmin Hmax].
    set (lo := RandomDelayMinutes.min (randomDelayMinutes config)) in *.
    set (hi := RandomDelayMinutes.max (randomDelayMinutes config)) in *.
    set (k := hi - lo + 1).
    assert (0 < k) as Hk by (subst k; lia).
    assert (~ inject_Z k == 0)%Q as Hk0.
    { intros E. unfold Qeq in E. simpl in E. lia. }
    exists (inject_Z (minutes - lo) / inject_Z k)%Q. repeat split.
    + apply Qle_shift_div_l.
      * change 0%Q with (inject_Z 0). rewrite <- Zlt_Qlt. exact Hk.
      * rewrite Qmult_0_l. change 0%Q with (inject_Z 0). rewrite <- Zle_Qle. lia.
    + apply Qlt_shift_div_r.
      * change 0%Q with (inject_Z 0). rewrite <- Zlt_Qlt. exact Hk.
      * rewrite Qmult_1_l. rewrite <- Zlt_Qlt. subst k. lia.
    + unfold getRandomDelay. fold lo hi k. unfold JS.Math_floor.
      rewrite (Qfloor_comp _ (inject_Z (minutes - lo))).
      * rewrite Qfloor_Z. lia.
      * rewrite Qmult_comm. apply Qmult_div_r. exact Hk0.
Qed.

Lemma getRandomDelay_takes_every_minute_witness :
  exists rand, (0 <= rand)%Q /\ (rand < 1)%Q
               /\ getRandomDelay documented rand = 50 * 60 * 1000.
Proof.
  destruct (@getRandomDelay_takes_every_minute documented) as [_ H].
  - reflexivity.
  - apply (H 50). split; discriminate.
Defined.

(** A time of day written with [digits] hour digits. *)
Definition timeOfDay (digits : nat) (hours minutes : Z) : string :=
  String.append (Host.padded digits hours)
    (String.append ":" (Host.padded 2 minutes)).

Definition readsBack (digits : nat) (hours minutes : nat) : bool :=
  let s := timeOfDay digits (Z.of_nat hours) (Z.of_nat minutes) in
  timeRegex_test s
  && match hoursMinutes s with
     | Some (h, m) => (h =? Z.of_nat hours) && (m =? Z.of_nat minutes)
     | None => false
     end.

Lemma readsBack_two_digits :
  forallb (fun h => forallb (readsBack 2 h) (seq 0 60)) (seq 0 24) = true.
Proof. vm_compute. reflexivity. Qed.

Lemma readsBack_one_digit :
  forallb (fun h => forallb (readsBack 1 h) (seq 0 60)) (seq 0 10) = true.
Proof. vm_compute. reflexivity. Qed.

Lemma readsBack_spec (digits : nat) (hours minutes : Z) :
  readsBack digits (Z.to_nat hours) (Z.to_nat minutes) = true ->
  0 <= hours -> 0 <= minutes ->
  timeRegex_test (timeOfDay digits hours minutes) = true
  /\ hoursMinutes (timeOfDay digits hours minutes) = Some (hours, minutes).
Proof.
  intros H Hh Hm. unfold readsBack in H. rewrite !Z2Nat.id in H by assumption.
  apply andb_true_iff in H as [Hregex Hparse]. split; [exact Hregex |].
  destruct (hoursMinutes (timeOfDay digits hours minutes)) as [[h m] |]; [| discriminate].
  apply andb_true_iff in Hparse as [Eh Em].
  apply Z.eqb_eq in Eh, Em. now subst.
Qed.

(** X12: the time-of-day check and the parser agree.  A string accepted by
    the regular expression of [validateConfig] splits into an hour between
    0 and 23 and a minute between 0 and 59; conversely every hour 0..23 and
    minute 0..59 written HH:MM (and every hour 0..9 written H:MM) is
    accepted and is read back as that hour and minute. *)
Theorem time_of_day_is_accepted_and_read_back :
  (forall s, timeRegex_test s = true ->
     exists hours minutes,
       hoursMinutes s = Some (hours, minutes)
       /\ 0 <= hours <= 23 /\ 0 <= minutes <= 59)
  /\ (forall hours minutes, 0 <= hours <= 23 -> 0 <= minutes <= 59 ->
        timeRegex_test (timeOfDay 2 hours minutes) = true
        /\ hoursMinutes (timeOfDay 2 hours minutes) = Some (hours, minutes))
  /\ (forall hours minutes, 0 <= hours <= 9 -> 0 <= minutes <= 59 ->
        timeRegex_test (timeOfDay 1 hours minutes) = true
        /\ hoursMinutes (timeOfDay 1 hours minutes) = Some (hours, minutes)).
Proof.
  split; [exact timeRegex_hoursMinutes |]. split.
  - intros hours minutes Hh Hm. apply readsBack_spec; try lia.
    pose proof readsBack_two_digits as H.
    rewrite forallb_forall in H. specialize (H (Z.to_nat hours)).
    rewrite forallb_forall in H. apply H; apply in_seq; lia.
  - intros hours minutes Hh Hm. apply readsBack_spec; try lia.
    pose proof readsBack_one_digit as H.
    rewrite forallb_forall in H. specialize (H (Z.to_nat hours)).
    rewrite forallb_forall in H. apply H; apply in_seq; lia.
Qed.

Lemma time_of_day_is_accepted_and_read_back_witness :
  hoursMinutes "23:59" = Some (23, 59).
Proof.
  destruct time_of_day_is_accepted_and_read_back as (_ & H & _).
  apply (H 23 59); split; discriminate.
Defined.

Lemma next_run_after_now_in_UTC_witness :
  next_run_after_now Host.utc documented jan23_0700 (1 # 2).
Proof.
  apply (@next_run_after_now_in_UTC documented jan23_0700 (1 # 2)).
  - reflexivity.
  - reflexivity.
  - discriminate.
  - discriminate.
  - reflexivity.
Defined.

End SchedulerLifecycle.

(** ** index.ts: what a run records and reports *)

Module RunFacts.

Import Bot.
Import FinalWebhookFacts.

Local Open Scope Z_scope.

(** The delays of the [utils.wait] calls recorded in a trace. *)
Definition waits (t : list Event) : list Z :=
  flat_map (fun e => match e with
                     | Waited ms => [ms]
                     | _ => []
                     end) t.

Section RunShape.

Variable config : Config.
Variable world : Z -> Account -> Work.

(** What the record of [account] keeps from its creation on: the address,
    the duration measured in pass 1, and a success flag that is set exactly
    when no error message is stored. *)
Definition recordOf (account : Account) (r : FW.AccountResult) : Prop :=
  FW.email r = email account
  /\ FW.executionDuration r = elapsedSeconds (world 1 account)
  /\ (FW.success r = true <-> FW.errorMessage r = None).

Lemma updateFound_Forall2 (R : Account -> FW.AccountResult -> Prop) p f :
  (forall a r, R a r -> R a (f r)) ->
  forall done results,
    Forall2 R done results -> Forall2 R done (updateFound p f results).
Proof.
  intros Hf done results H.
  induction H as [| a r done results Hr Hrest IH]; cbn; [constructor |].
  destruct (p r); constructor; auto.
Qed.

Lemma desktopUpdate_recordOf initial after tasks a r :
  recordOf a r -> recordOf a (desktopUpdate initial after tasks r).
Proof. intros H. exact H. Qed.

Lemma mobileUpdate_recordOf after tasks a r :
  recordOf a r -> recordOf a (mobileUpdate after tasks r).
Proof. intros H. exact H. Qed.

Lemma Desktop_records run account passNumber done b :
  Forall2 recordOf done (accountResults b) ->
  Forall2 recordOf done (accountResults (fst (Desktop config run account passNumber b))).
Proof.
  intros H. destruct run as [error | available error | available earnable after saveError];
    cbn; try assumption.
  destruct (negb (runOnZeroPoints config) && (earnable =? 0)); cbn; [assumption |].
  destruct (passNumber =? 1); cbn; [| assumption].
  apply updateFound_Forall2; [| assumption].
  intros a r. apply desktopUpdate_recordOf.
Qed.

Lemma mobileFinish_records account passNumber after tasks closeError done b :
  Forall2 recordOf done (accountResults b) ->
  Forall2 recordOf done
    (accountResults (fst (mobileFinish account passNumber after tasks closeError b))).
Proof.
  intros H. unfold mobileFinish. destruct (passNumber =? 1); cbn; [| assumption].
  apply updateFound_Forall2; [| assumption].
  intros a r. apply mobileUpdate_recordOf.
Qed.

Lemma Mobile_records run account passNumber done :
  forall b,
    Forall2 recordOf done (accountResults b) ->
    Forall2 recordOf done (accountResults (fst (Mobile config run account passNumber b))).
Proof.
  induction run as [error | earnable incomplete error
                   | earnable mobileSearch after closeError again IH]; intros b H;
    cbn [Mobile]; [assumption | |].
  { destruct (negb (runOnZeroPoints config) && (earnable =? 0)); [assumption |].
    now destruct (doMobileSearch (workers config) && incomplete). }
  destruct (negb (runOnZeroPoints config) && (earnable =? 0)); [assumption |].
  destruct (doMobileSearch (workers config)); [| now apply mobileFinish_records].
  destruct mobileSearch as [incomplete |]; [| now apply mobileFinish_records].
  set (b' := if incomplete then set_mobileRetryAttempts (mobileRetryAttempts b + 1) b else b).
  assert (Forall2 recordOf done (accountResults b')) as H'
      by (subst b'; now destruct incomplete).
  destruct (mobileRetryAttempts b' >? retryMobileSearchAmount config);
    [now apply mobileFinish_records |].
  destruct (negb (mobileRetryAttempts b' =? 0));
    [now apply IH | now apply mobileFinish_records].
Qed.

Lemma runAccount_records account done b :
  Forall2 recordOf done (accountResults b) ->
  Forall2 recordOf (done ++ [account])
    (accountResults (fst (runAccount config world account 1 b))).
Proof.
  intros H. unfold runAccount.
  pose proof (@Desktop_records (desktop (world 1 account)) account 1 done b H) as HD.
  destruct (Desktop config (desktop (world 1 account)) account 1 b) as [b1 [| error]];
    cbn [fst] in HD.
  - pose proof (@Mobile_records (mobile (world 1 account)) account 1 done b1 HD) as HM.
    destruct (Mobile config (mobile (world 1 account)) account 1 b1) as [b2 outcome];
      cbn [fst] in HM.
    destruct outcome; cbn; (apply Forall2_app; [assumption |]);
      repeat constructor; cbn; intros; congruence.
  - cbn. apply Forall2_app; [assumption |].
    repeat constructor; cbn; intros; congruence.
Qed.

Lemma runAllAccounts_records accounts :
  forall done b,
    Forall2 recordOf done (accountResults b) ->
    Forall2 recordOf (done ++ accounts)
      (accountResults (fst (runAllAccounts config world accounts 1 b))).
Proof.
  induction accounts as [| account rest IH]; intros done b H; cbn [runAllAccounts].
  - now rewrite app_nil_r.
  - pose proof (@runAccount_records account done b H) as H1.
    destruct (runAccount config world account 1 b) as [b1 t1]. cbn [fst] in H1.
    specialize (IH (done ++ [account]) b1 H1).
    destruct (runAllAccounts config world rest 1 b1) as [b2 t2]. cbn [fst] in *.
    now rewrite <- app_assoc in IH.
Qed.

(** The records a run ends with are those of pass 1. *)
Lemma runTasks_results accounts clock endClock b :
  accountResults (final (runTasks config world accounts clock endClock b))
  = accountResults
      (fst (runAllAccounts config world accounts 1
              {| pointsInitial := pointsInitial b;
                 mobileRetryAttempts := mobileRetryAttempts b;
                 accountResults := [];
                 executionStartTime := clock |})).
Proof.
  unfold runTasks.
  destruct (runAllAccounts config world accounts 1 _) as [b1 t1].
  pose proof (@RecordFacts.retryPasses_leaves_results config world accounts
                (or_default (dailyRetries config) 0)
                (or_default (retryDelayMinutes config) 30 * 60 * 1000)
                _ 1 b1 eq_refl ltac:(lia)) as Hr.
  destruct (retryPasses config world accounts (or_default (dailyRetries config) 0)
              (or_default (retryDelayMinutes config) 30 * 60 * 1000) 1 b1) as [b2 t2].
  exact Hr.
Qed.

Lemma runTasks_records accounts clock endClock b :
  Forall2 recordOf accounts
    (accountResults (final (runTasks config world accounts clock endClock b))).
Proof.
  rewrite runTasks_results.
  apply (@runAllAccounts_records accounts [] _). constructor.
Qed.

Lemma recordOf_emails accounts results :
  Forall2 recordOf accounts results -> map FW.email results = map email accounts.
Proof.
  induction 1 as [| a r accounts results (He & _) _ IH]; cbn; [reflexivity |].
  now rewrite He, IH.
Qed.

Lemma Desktop_startTime run account passNumber b :
  executionStartTime (fst (Desktop config run account passNumber b)) = executionStartTime b.
Proof.
  destruct run as [error | available error | available earnable after saveError];
    cbn; try reflexivity.
  destruct (negb (runOnZeroPoints config) && (earnable =? 0)); cbn; [reflexivity |].
  now destruct (passNumber =? 1).
Qed.

Lemma mobileFinish_startTime account passNumber after tasks closeError b :
  executionStartTime (fst (mobileFinish account passNumber after tasks closeError b))
  = executionStartTime b.
Proof. unfold mobileFinish. now destruct (passNumber =? 1). Qed.

Lemma Mobile_startTime run account passNumber :
  forall b,
    executionStartTime (fst (Mobile config run account passNumber b))
    = executionStartTime b.
Proof.
  induction run as [error | earnable incomplete error
                   | earnable mobileSearch after closeError again IH]; intros b;
    cbn [Mobile]; [reflexivity | |].
  { destruct (negb (runOnZeroPoints config) && (earnable =? 0)); [reflexivity |].
    now destruct (doMobileSearch (workers config) && incomplete). }
  destruct (negb (runOnZeroPoints config) && (earnable =? 0)); [reflexivity |].
  destruct (doMobileSearch (workers config)); [| now apply mobileFinish_startTime].
  destruct mobileSearch as [incomplete |]; [| now apply mobileFinish_startTime].
  set (b' := if incomplete then set_mobileRetryAttempts (mobileRetryAttempts b + 1) b else b).
  assert (executionStartTime b' = executionStartTime b) as E
      by (subst b'; now destruct incomplete).
  destruct (mobileRetryAttempts b' >? retryMobileSearchAmount config);
    [now rewrite mobileFinish_startTime |].
  destruct (negb (mobileRetryAttempts b' =? 0));
    [now rewrite IH | now rewrite mobileFinish_startTime].
Qed.

Lemma runAccount_startTime account passNumber b :
  executionStartTime (fst (runAccount config world account passNumber b))
  = executionStartTime b.
Proof.
  unfold runAccount.
  pose proof (Desktop_startTime (desktop (world passNumber account)) account passNumber b)
    as HD.
  destruct (Desktop config (desktop (world passNumber account)) account passNumber b)
    as [b1 [| error]]; cbn [fst] in HD.
  - pose proof (Mobile_startTime (mobile (world passNumber account)) account passNumber b1)
      as HM.
    destruct (Mobile config (mobile (world passNumber account)) account passNumber b1)
      as [b2 outcome]; cbn [fst] in HM.
    destruct outcome; destruct (passNumber =? 1); cbn; congruence.
  - destruct (passNumber =? 1); cbn; congruence.
Qed.

Lemma runAllAccounts_startTime accounts passNumber :
  forall b,
    executionStartTime (fst (runAllAccounts config world accounts passNumber b))
    = executionStartTime b.
Proof.
  induction accounts as [| account rest IH]; intros b; cbn [runAllAccounts];
    [reflexivity |].
  pose proof (runAccount_startTime account passNumber b) as H1.
  destruct (runAccount config world account passNumber b) as [b1 t1].
  specialize (IH b1).
  destruct (runAllAccounts config world rest passNumber b1) as [b2 t2].
  cbn [fst] in *. congruence.
Qed.

Lemma retryPasses_startTime accounts additionalRetries retryDelay :
  forall (count : nat) retryNum b,
    count = Z.to_nat (additionalRetries + 1 - retryNum) ->
    executionStartTime
      (fst (retryPasses config world accounts additionalRetries retryDelay retryNum b))
    = executionStartTime b.
Proof.
  induction count as [| count IH]; intros retryNum b Hcount;
    rewrite BotFacts.retryPasses_unfold;
    destruct (Z_le_dec retryNum additionalRetries) as [Hle | Hgt]; try lia;
    try reflexivity.
  pose proof (runAllAccounts_startTime accounts (retryNum + 1) b) as H1.
  destruct (runAllAccounts config world accounts (retryNum + 1) b) as [b1 t1].
  specialize (IH (retryNum + 1) b1 ltac:(lia)).
  destruct (retryPasses config world accounts additionalRetries retryDelay (retryNum + 1) b1)
    as [b2 t2].
  cbn [fst] in *. congruence.
Qed.

Lemma runTasks_startTime accounts clock endClock b :
  executionStartTime (final (runTasks config world accounts clock endClock b)) = clock.
Proof.
  unfold runTasks.
  pose proof (runAllAccounts_startTime accounts 1
                {| pointsInitial := pointsInitial b;
                   mobileRetryAttempts := mobileRetryAttempts b;
                   accountResults := [];
                   executionStartTime := clock |}) as H1.
  destruct (runAllAccounts config world accounts 1 _) as [b1 t1].
  pose proof (@retryPasses_startTime accounts (or_default (dailyRetries config) 0)
                (or_default (retryDelayMinutes config) 30 * 60 * 1000)
                _ 1 b1 eq_refl) as H2.
  destruct (retryPasses config world accounts _ _ 1 b1) as [b2 t2].
  cbn [fst final executionStartTime] in *. congruence.
Qed.

Lemma waits_app t1 t2 : waits (t1 ++ t2) = waits t1 ++ waits t2.
Proof. unfold waits. apply flat_map_app. Qed.

Lemma runAccount_waits account passNumber b :
  waits (snd (runAccount config world account passNumber b)) = [].
Proof.
  unfold runAccount.
  destruct (Desktop config (desktop (world passNumber account)) account passNumber b)
    as [b1 [| error]].
  - destruct (Mobile config (mobile (world passNumber account)) account passNumber b1)
      as [b2 outcome].
    destruct outcome; destruct (passNumber =? 1); reflexivity.
  - destruct (passNumber =? 1); reflexivity.
Qed.

Lemma runAllAccounts_waits accounts passNumber :
  forall b, waits (snd (runAllAccounts config world accounts passNumber b)) = [].
Proof.
  induction accounts as [| account rest IH]; intros b; cbn [runAllAccounts];
    [reflexivity |].
  pose proof (runAccount_waits account passNumber b) as H1.
  destruct (runAccount config world account passNumber b) as [b1 t1].
  specialize (IH b1).
  destruct (runAllAccounts config world rest passNumber b1) as [b2 t2].
  cbn [snd] in *. now rewrite waits_app, H1, IH.
Qed.

Lemma retryPasses_waits accounts additionalRetries retryDelay :
  forall (count : nat) retryNum b,
    count = Z.to_nat (additionalRetries + 1 - retryNum) ->
    waits (snd (retryPasses config world accounts additionalRetries retryDelay retryNum b))
    = repeat retryDelay count.
Proof.
  induction count as [| count IH]; intros retryNum b Hcount;
    rewrite BotFacts.retryPasses_unfold;
    destruct (Z_le_dec retryNum additionalRetries) as [Hle | Hgt]; try lia;
    try reflexivity.
  pose proof (runAllAccounts_waits accounts (retryNum + 1) b) as H1.
  destruct (runAllAccounts config world accounts (retryNum + 1) b) as [b1 t1].
  specialize (IH (retryNum + 1) b1 ltac:(lia)).
  destruct (retryPasses config world accounts additionalRetries retryDelay (retryNum + 1) b1)
    as [b2 t2].
  cbn [snd] in *. cbn [waits flat_map app].
  fold (waits (t1 ++ t2)). rewrite waits_app, H1, IH. reflexivity.
Qed.

Lemma runTasks_waits accounts clock endClock b :
  waits (trace (runTasks config world accounts clock endClock b))
  = repeat (or_default (retryDelayMinutes config) 30 * 60 * 1000)
           (Z.to_nat (or_default (dailyRetries config) 0)).
Proof.
  unfold runTasks.
  pose proof (runAllAccounts_waits accounts 1
                {| pointsInitial := pointsInitial b;
                   mobileRetryAttempts := mobileRetryAttempts b;
                   accountResults := [];
                   executionStartTime := clock |}) as H1.
  destruct (runAllAccounts config world accounts 1 _) as [b1 t1].
  pose proof (@retryPasses_waits accounts
                (or_default (dailyRetries config) 0)
                (or_default (retryDelayMinutes config) 30 * 60 * 1000)
                _ 1 b1 eq_refl) as H2.
  destruct (retryPasses config world accounts _ _ 1 b1) as [b2 t2].
  cbn [trace snd] in *. rewrite waits_app, H1, H2. cbn [app].
  f_equal. lia.
Qed.










End RunShape.








(** X16: what a run reports to the final webhook.  With the final webhook
    enabled the summary counts every account of the list once, successes
    and failures add up to that number, the total of points is never
    negative, the start and end instants are those of the run, and the
    field [retryPassesUsed] holds the number of passes [1 + dailyRetries],
    the first pass included. *)
Theorem run_summary_counts_every_account (config : Config)
    (world : Z -> Account -> Work) (accounts : list Account) (clock endClock : Z)
    (b : State) :
  finalWebhookEnabled config = true ->
  exists s,
    summary (runTasks config world accounts clock endClock b) = Some s
    /\ FW.totalAccounts s = Z.of_nat (length accounts)
    /\ FW.successfulAccounts s + FW.failedAccounts s = FW.totalAccounts s
    /\ 0 <= FW.successfulAccounts s
    /\ 0 <= FW.failedAccounts s
    /\ 0 <= FW.totalPointsGained s
    /\ FW.retryPassesUsed s = 1 + or_default (dailyRetries config) 0
    /\ FW.startTime s = clock
    /\ FW.endTime s = endClock
    /\ map FW.email (FW.accountResults s) = map email accounts.
Proof.
  intros Henabled.
  pose proof (runTasks_records config world accounts clock endClock b) as Hrec.
  pose proof (ConsistencyFacts.runTasks_consistent config world accounts clock endClock b)
    as Hcons.
  pose proof (runTasks_startTime config world accounts clock endClock b) as Hstart.
  unfold runTasks in *.
  destruct (runAllAccounts config world accounts 1 _) as [b1 t1].
  destruct (retryPasses config world accounts _ _ 1 b1) as [b2 t2].
  cbn [summary final] in *. unfold sendFinalNotification. rewrite Henabled.
  eexists. split; [reflexivity |].
  cbn [FW.totalAccounts FW.successfulAccounts FW.failedAccounts FW.totalPointsGained
       FW.retryPassesUsed FW.startTime FW.endTime FW.accountResults FW.createFinalSummary
       executionStartTime].
  pose proof (filter_length_le (fun account => FW.success account) (accountResults b2))
    as Hle.
  repeat split; try lia.
  - rewrite <- (Forall2_length Hrec). reflexivity.
  - rewrite fold_left_pointsGained. pose proof (sumPointsGained_nonneg Hcons). lia.
  - exact (recordOf_emails Hrec).
Qed.

Lemma run_summary_counts_every_account_witness :
  exists s,
    summary (runTasks (BotFacts.configWith (Some 2)) BotFacts.smoothWorld [BotFacts.alice]
               0 300000 BotFacts.freshBot) = Some s
    /\ FW.totalAccounts s = 1
    /\ FW.retryPassesUsed s = 3.
Proof.
  destruct (@run_summary_counts_every_account (BotFacts.configWith (Some 2))
              BotFacts.smoothWorld [BotFacts.alice] 0 300000 BotFacts.freshBot eq_refl)
    as (s & Hs & Htotal & _ & _ & _ & _ & Hpasses & _).
  exists s. auto.
Defined.

(** X17: a run waits once before each additional pass and nowhere else.
    The delays of its [wait] calls are [dailyRetries] times the retry
    delay (none when [dailyRetries] is absent, 0 or negative), and that
    delay is never 0: a [retryDelayMinutes] that is absent or 0 stands for
    30 minutes. *)
Theorem run_waits_once_per_additional_pass (config : Config)
    (world : Z -> Account -> Work) (accounts : list Account) (clock endClock : Z)
    (b : State) :
  let k := or_default (dailyRetries config) 0 in
  let delay := or_default (retryDelayMinutes config) 30 * 60 * 1000 in
  waits (trace (runTasks config world accounts clock endClock b))
  = repeat delay (Z.to_nat k)
  /\ delay <> 0
  /\ (retryDelayMinutes config = None \/ retryDelayMinutes config = Some 0 ->
      delay = 1800000).
Proof.
  cbv zeta. split; [| split].
  - apply runTasks_waits.
  - destruct (retryDelayMinutes config) as [[| p | p] |]; cbn; lia.
  - intros [-> | ->]; reflexivity.
Qed.

Lemma run_waits_once_per_additional_pass_witness :
  waits (trace (runTasks (BotFacts.configWith (Some 2)) BotFacts.smoothWorld
                  [BotFacts.alice] 0 300000 BotFacts.freshBot))
  = [1800000; 1800000].
Proof.
  destruct (@run_waits_once_per_additional_pass (BotFacts.configWith (Some 2))
              BotFacts.smoothWorld [BotFacts.alice] 0 300000 BotFacts.freshBot)
    as (H & _ & _).
  exact H.
Defined.




End RunFacts.

(** ** index.ts: the primary process and its workers *)

Module ClusterFacts.

Import Bot.
Import Util UtilFacts.

Local Open Scope Z_scope.

(** [chunkArray] returns for every list and every number of chunks of at
    least 1, with chunks that concatenate to the list and are not more
    than asked for. *)
Lemma chunkArray_covers (A : Type) (arr : list A) (n : nat) :
  (0 < n)%nat ->
  exists chunks,
    chunkArray arr n = Some chunks
    /\ concat chunks = arr
    /\ (length chunks <= n)%nat
    /\ (arr = [] -> chunks = []).
Proof.
  intros Hn. unfold chunkArray.
  destruct arr as [| x rest].
  - exists []. cbn [length]. destruct n as [| n]; [lia |].
    rewrite ceilDiv_zero, chunkLoop_unfold. cbn. auto with arith.
  - set (arr := x :: rest).
    assert (0 < length arr)%nat as Hlen by (cbn; lia).
    pose proof (ceilDiv_pos Hn Hlen) as Hpos.
    destruct (ceilDiv (length arr) n) as [| c] eqn:Ec; [lia |].
    destruct (@chunkLoop_chunked A arr c (length arr) 0 ltac:(lia))
      as (chunks & Hrun & Hconcat & Hcount & _).
    exists chunks. repeat split; try assumption.
    + rewrite Hcount, Nat.sub_0_r. apply ceilDiv_least; [lia |].
      rewrite <- Ec, Nat.mul_comm. now apply ceilDiv_upper.
    + discriminate.
Qed.

Lemma afterExits_counts :
  forall (count : nat) (p : Primary),
    exited p = false ->
    0 < activeWorkers p ->
    Z.of_nat count <= activeWorkers p ->
    activeWorkers (afterExits count p) = activeWorkers p - Z.of_nat count
    /\ sent (afterExits count p) = sent p
    /\ (exited (afterExits count p) = true <-> Z.of_nat count = activeWorkers p).
Proof.
  induction count as [| count IH]; intros p Halive Hpos Hle; cbn [afterExits].
  - repeat split; try lia. rewrite Halive. discriminate.
  - unfold onExit at 1 2 3. rewrite Halive.
    destruct (Z.eqb_spec (activeWorkers p - 1) 0) as [E | E].
    + assert (count = 0%nat) as -> by lia. cbn. rewrite E. cbn.
      repeat split; lia.
    + match goal with
      | |- context [afterExits count ?q] =>
          destruct (IH q) as (H1 & H2 & H3); cbn; try lia
      end.
      cbn in H1, H2, H3. rewrite H1, H2, H3. repeat split; lia.
Qed.

(** X19: the primary process ends only when the accounts fill every
    cluster.  With more than one cluster, [runMaster] forks one worker per
    chunk, every account goes to exactly one worker, and there are at most
    [clusters] workers; the counter starts at [clusters], so after [count]
    of the workers have ended it stands at [clusters - count], and
    [process.exit] has been called exactly when [count = clusters]: when
    [chunkArray] yields fewer chunks than clusters, the primary process is
    still waiting after its last worker has ended. *)
Theorem primary_exits_only_when_chunks_fill_clusters (accounts : list Account)
    (clusters : nat) :
  (1 < clusters)%nat ->
  exists p,
    runMaster accounts clusters = Some p
    /\ concat (sent p) = accounts
    /\ (length (sent p) <= clusters)%nat
    /\ (forall count, (count <= length (sent p))%nat ->
          activeWorkers (afterExits count p) = Z.of_nat clusters - Z.of_nat count
          /\ (exited (afterExits count p) = true <-> count = clusters)).
Proof.
  intros Hclusters.
  destruct (@chunkArray_covers Account accounts clusters ltac:(lia))
    as (chunks & Hrun & Hconcat & Hcount & _).
  unfold runMaster. rewrite Hrun. eexists. split; [reflexivity |].
  cbn [sent]. repeat split; try assumption.
  - match goal with
    | |- context [afterExits count ?q] =>
        destruct (@afterExits_counts count q) as (H1 & _ & _); cbn; try lia
    end.
    exact H1.
  - match goal with
    | |- context [afterExits count ?q] =>
        destruct (@afterExits_counts count q) as (_ & _ & H3); cbn; try lia
    end.
    cbn in H3. intros E. apply H3 in E. lia.
  - match goal with
    | |- context [afterExits count ?q] =>
        destruct (@afterExits_counts count q) as (_ & _ & H3); cbn; try lia
    end.
    cbn in H3. intros E. apply H3. lia.
Qed.

Definition fiveAccounts : list Account :=
  map (fun name => {| email := name |})
      ["a@example.com"; "b@example.com"; "c@example.com"; "d@example.com";
       "e@example.com"]%string.

Lemma primary_exits_only_when_chunks_fill_clusters_witness :
  exists p,
    runMaster fiveAccounts 4 = Some p
    /\ length (sent p) = 3%nat
    /\ exited (afterExits 3 p) = false
    /\ activeWorkers (afterExits 3 p) = 1.
Proof.
  destruct (@primary_exits_only_when_chunks_fill_clusters fiveAccounts 4 ltac:(lia))
    as (p & Hrun & _ & _ & Hexits).
  exists p. split; [exact Hrun |].
  assert (length (sent p) = 3%nat) as Hsent.
  { vm_compute in Hrun. injection Hrun as <-. reflexivity. }
  split; [exact Hsent |].
  destruct (Hexits 3%nat ltac:(lia)) as [Hactive Hexited].
  split; [| exact Hactive].
  destruct (exited (afterExits 3 p)); [| reflexivity].
  destruct Hexited as [Hexited _]. specialize (Hexited eq_refl). discriminate Hexited.
Defined.

End ClusterFacts.

(** ** util/Utils.ts: random numbers and shuffling *)

Module RandomFacts.

Import Util.

Local Open Scope Z_scope.

(** A draw of [Math.random()] that makes [Math.floor(rand * k)] equal to
    [j], for [0 <= j < k]. *)
Lemma draw_for (j k : Z) :
  0 <= j < k ->
  (0 <= inject_Z j / inject_Z k)%Q
  /\ (inject_Z j / inject_Z k < 1)%Q
  /\ JS.Math_floor (inject_Z j / inject_Z k * inject_Z k)%Q = j.
Proof.
  intros [Hj Hk].
  assert (0 < inject_Z k)%Q as Hpos
      by (change 0%Q with (inject_Z 0); rewrite <- Zlt_Qlt; lia).
  repeat split.
  - apply Qle_shift_div_l; [exact Hpos |].
    rewrite Qmult_0_l. change 0%Q with (inject_Z 0). rewrite <- Zle_Qle. lia.
  - apply Qlt_shift_div_r; [exact Hpos |].
    rewrite Qmult_1_l. rewrite <- Zlt_Qlt. lia.
  - unfold JS.Math_floor.
    rewrite (Qfloor_comp _ (inject_Z j)); [apply Qfloor_Z |].
    rewrite Qmult_comm. apply Qmult_div_r.
    intros E. rewrite E in Hpos. discriminate Hpos.
Qed.

(** X20: [randomNumber(min, max)] on whole numbers [min <= max] returns a
    whole number between [min] and [max], both included, and each of these
    numbers is returned for some draw. *)
Theorem randomNumber_takes_every_value (min max : Z) :
  min <= max ->
  (forall rand, (0 <= rand)%Q -> (rand < 1)%Q -> min <= randomNumber rand min max <= max)
  /\ (forall n, min <= n <= max ->
        exists rand, (0 <= rand)%Q /\ (rand < 1)%Q /\ randomNumber rand min max = n).
Proof.
  intros Hle. split.
  - intros rand H0 H1. unfold randomNumber.
    pose proof (@SchedulerFacts.Math_floor_scaled rand (max - min + 1) H0 H1 ltac:(lia)).
    lia.
  - intros n Hn.
    destruct (@draw_for (n - min) (max - min + 1) ltac:(lia)) as (H0 & H1 & E).
    exists (inject_Z (n - min) / inject_Z (max - min + 1))%Q.
    repeat split; try assumption.
    unfold randomNumber. rewrite E. lia.
Qed.

Lemma randomNumber_takes_every_value_witness :
  exists rand, (0 <= rand)%Q /\ (rand < 1)%Q /\ randomNumber rand 1 6 = 6.
Proof.
  destruct (@randomNumber_takes_every_value 1 6 ltac:(lia)) as [_ H].
  apply (H 6). lia.
Defined.

Section Shuffle.

Variable A : Type.

(** The entries are in ascending order of their keys. *)
Definition ascending (entries : list (A * Q)) : Prop :=
  forall i j x y,
    (i < j)%nat -> nth_error entries i = Some x -> nth_error entries j = Some y ->
    (snd x <= snd y)%Q.

Lemma ascending_nil : ascending [].
Proof. intros [| i] [| j] x y _ Hx; discriminate Hx. Qed.

Lemma ascending_cons (x : A * Q) (entries : list (A * Q)) :
  (forall y, In y entries -> (snd x <= snd y)%Q) ->
  ascending entries -> ascending (x :: entries).
Proof.
  intros Hx Hrest [| i] [| j] a b Hij Ha Hb; try lia; cbn in Ha, Hb.
  - injection Ha as <-. apply Hx. eapply nth_error_In. exact Hb.
  - eapply (Hrest i j); try eassumption. lia.
Qed.

Lemma ascending_tail (x : A * Q) (entries : list (A * Q)) : ascending (x :: entries) -> ascending entries.
Proof.
  intros H i j a b Hij Ha Hb. apply (H (S i) (S j) a b); [lia | exact Ha | exact Hb].
Qed.

Lemma ascending_head (x : A * Q) (entries : list (A * Q)) (y : A * Q) :
  ascending (x :: entries) -> In y entries -> (snd x <= snd y)%Q.
Proof.
  intros H Hy. apply In_nth_error in Hy as [j Hj].
  apply (H 0%nat (S j) x y); [lia | reflexivity | exact Hj].
Qed.

Lemma insertByKey_perm (x : A * Q) (entries : list (A * Q)) : Permutation (insertByKey x entries) (x :: entries).
Proof.
  induction entries as [| y rest IH]; cbn; [reflexivity |].
  destruct (Qle_bool (snd x) (snd y)); [reflexivity |].
  rewrite IH. apply perm_swap.
Qed.

Lemma sortByKey_perm (entries : list (A * Q)) : Permutation (sortByKey entries) entries.
Proof.
  induction entries as [| x rest IH]; cbn; [reflexivity |].
  rewrite insertByKey_perm. now constructor.
Qed.

Lemma insertByKey_ascending (x : A * Q) (entries : list (A * Q)) :
  ascending entries -> ascending (insertByKey x entries).
Proof.
  induction entries as [| y rest IH]; intros H; cbn.
  - apply ascending_cons; [intros y [] | apply ascending_nil].
  - destruct (Qle_bool (snd x) (snd y)) eqn:E.
    + apply Qle_bool_iff in E. apply ascending_cons; [| exact H].
      intros z [<- | Hz]; [exact E |].
      eapply Qle_trans; [exact E |]. eapply ascending_head; eassumption.
    + assert (snd y <= snd x)%Q as Hyx.
      { destruct (Qlt_le_dec (snd y) (snd x)) as [Hlt | Hle].
        - now apply Qlt_le_weak.
        - apply Qle_bool_iff in Hle. congruence. }
      apply ascending_cons; [| apply IH; eapply ascending_tail; exact H].
      intros z Hz.
      apply (Permutation_in _ (insertByKey_perm x rest)) in Hz as [<- | Hz];
        [exact Hyx | eapply ascending_head; eassumption].
Qed.

Lemma sortByKey_ascending (entries : list (A * Q)) : ascending (sortByKey entries).
Proof.
  induction entries as [| x rest IH]; cbn;
    [apply ascending_nil | now apply insertByKey_ascending].
Qed.

(** Entries that are already in ascending order stay as they are: the sort
    is stable. *)
Lemma sortByKey_sorted (entries : list (A * Q)) : ascending entries -> sortByKey entries = entries.
Proof.
  induction entries as [| x rest IH]; intros H; cbn; [reflexivity |].
  rewrite IH by (eapply ascending_tail; exact H).
  destruct rest as [| y rest']; [reflexivity |]. cbn.
  assert (snd x <= snd y)%Q as Hxy by (eapply ascending_head; [exact H | now left]).
  apply Qle_bool_iff in Hxy. now rewrite Hxy.
Qed.

Lemma withKeys_values (random : nat -> Q) (array : list A) :
  forall first, map fst (withKeys random first array) = array.
Proof.
  induction array as [| value rest IH]; intros first; cbn; [reflexivity |].
  now rewrite IH.
Qed.

Lemma withKeys_In (random : nat -> Q) (array : list A) :
  forall first y,
    In y (withKeys random first array) ->
    exists i, (first <= i)%nat /\ snd y = random i.
Proof.
  induction array as [| value rest IH]; intros first y Hy; cbn in Hy; [contradiction |].
  destruct Hy as [<- | Hy].
  - exists first. split; [lia | reflexivity].
  - destruct (IH _ _ Hy) as (i & Hi & E). exists i. split; [lia | exact E].
Qed.

Lemma withKeys_ascending (random : nat -> Q) (array : list A) :
  (forall i j, (i <= j)%nat -> (random i <= random j)%Q) ->
  forall first, ascending (withKeys random first array).
Proof.
  intros Hmono. induction array as [| value rest IH]; intros first; cbn.
  - apply ascending_nil.
  - apply ascending_cons; [| apply IH].
    intros y Hy. destruct (withKeys_In _ _ _ _ Hy) as (i & Hi & ->).
    cbn. apply Hmono. lia.
Qed.

End Shuffle.

(** X21: [shuffleArray] returns a rearrangement of its argument: the result
    is a permutation of the array (no element is lost or doubled), whatever
    the draws, and it lists the elements by ascending key.  The sort being
    stable, draws that never decrease leave the array as it is; in
    particular a [Math.random] that returns a constant shuffles nothing. *)
Theorem shuffleArray_permutes (A : Type) (random : nat -> Q) (array : list A) :
  Permutation (shuffleArray random array) array
  /\ length (shuffleArray random array) = length array
  /\ (exists entries,
        Permutation entries (withKeys random 0 array)
        /\ ascending entries
        /\ shuffleArray random array = map fst entries)
  /\ ((forall i j, (i <= j)%nat -> (random i <= random j)%Q) ->
      shuffleArray random array = array).
Proof.
  assert (Permutation (shuffleArray random array) array) as Hperm.
  { unfold shuffleArray. rewrite <- (withKeys_values random array 0) at 2.
    apply Permutation_map, sortByKey_perm. }
  repeat split.
  - exact Hperm.
  - now apply Permutation_length.
  - exists (sortByKey (withKeys random 0 array)).
    repeat split; [apply sortByKey_perm | apply sortByKey_ascending].
  - intros Hmono. unfold shuffleArray.
    rewrite sortByKey_sorted by now apply withKeys_ascending.
    apply withKeys_values.
Qed.

Lemma shuffleArray_permutes_witness :
  shuffleArray (fun _ => 1 # 2) [1; 2; 3]%nat = [1; 2; 3]%nat.
Proof.
  destruct (@shuffleArray_permutes nat (fun _ => 1 # 2) [1; 2; 3]%nat) as (_ & _ & _ & H).
  apply H. intros i j _. apply Qle_refl.
Defined.

End RandomFacts.

(** ** util/HumanBehavior.ts *)

Module HumanFacts.
Import Human.
Local Open Scope Q_scope.

Lemma Qlt_bool_iff a b : Qlt_bool a b = true <-> a < b.
Proof.
  unfold Qlt_bool. rewrite negb_true_iff. split.
  - intros H. apply Qnot_le_lt. intros Hle. apply Qle_bool_iff in Hle. congruence.
  - intros H. destruct (Qle_bool b a) eqn:E; [| reflexivity].
    apply Qle_bool_iff in E. lra.
Qed.

Lemma randomInRange_bounds (rand lo hi : Q) :
  0 <= rand -> rand < 1 -> lo <= hi ->
  lo <= randomInRange rand lo hi /\ randomInRange rand lo hi <= hi.
Proof. intros H0 H1 Hle. unfold randomInRange. split; nra. Qed.

(** The value computed by the disabled branch before it is clamped. *)
Definition unclamped (rand minMs maxMs : Q) : Q :=
  (minMs + maxMs) / 2 + (rand - (1 # 2)) * ((maxMs - minMs) * (2 # 10)).

Lemma unclamped_band (rand minMs maxMs : Q) :
  0 <= rand -> rand < 1 -> minMs <= maxMs ->
  minMs + (4 # 10) * (maxMs - minMs) <= unclamped rand minMs maxMs
  /\ unclamped rand minMs maxMs <= minMs + (6 # 10) * (maxMs - minMs).
Proof.
  intros H0 H1 Hle. unfold unclamped.
  assert (0 <= rand * (maxMs - minMs)) by nra.
  assert (rand * (maxMs - minMs) <= maxMs - minMs) by nra.
  assert ((minMs + maxMs) / 2 == (minMs + maxMs) * (1 # 2)) as E by field.
  rewrite E. split; lra.
Qed.

(** X22: with human behaviour disabled, [humanWait(minMs, maxMs)] waits at
    least [minMs]; for [minMs <= maxMs] the two clamps never bind: the
    delay is the midpoint moved by at most a tenth of the range, so it lies
    in the middle fifth of [minMs, maxMs]; for [maxMs < minMs] the delay is
    [minMs]. *)
Theorem humanWait_disabled_stays_in_the_middle (random : nat -> Q) (now : Z)
    (executionStartTime : option Z) (minMs maxMs : Q) (context : Context) :
  0 <= random 0%nat -> random 0%nat < 1 ->
  let w := humanWait false random now executionStartTime minMs maxMs context in
  minMs <= w
  /\ (minMs <= maxMs ->
      w == unclamped (random 0%nat) minMs maxMs
      /\ minMs + (4 # 10) * (maxMs - minMs) <= w
      /\ w <= minMs + (6 # 10) * (maxMs - minMs)
      /\ w <= maxMs)
  /\ (maxMs < minMs -> w == minMs).
Proof.
  intros H0 H1. cbv zeta. unfold humanWait. cbn [negb].
  fold (unclamped (random 0%nat) minMs maxMs). unfold JS.Math_max.
  split; [apply Q.le_max_l | split].
  - intros Hle.
    destruct (unclamped_band H0 H1 Hle) as [Hlow Hhigh].
    assert (Qmax minMs (Qmin maxMs (unclamped (random 0%nat) minMs maxMs))
            == unclamped (random 0%nat) minMs maxMs) as E.
    { rewrite Q.min_r by lra. apply Q.max_r. lra. }
    rewrite E. repeat split; try lra.
  - intros Hlt. apply Q.max_l.
    eapply Qle_trans; [apply Q.le_min_l | lra].
Qed.

Lemma applyFatigue_bounds (now : Z) (start : option Z) (waitTime : Q) :
  0 <= waitTime ->
  waitTime <= applyFatigue now start waitTime
  /\ applyFatigue now start waitTime <= (15 # 10) * waitTime.
Proof.
  intros Hw. unfold applyFatigue.
  set (sessionMinutes := inject_Z _ / 60000).
  destruct (Qlt_bool 45 sessionMinutes) eqn:E; [| split; lra].
  apply Qlt_bool_iff in E.
  destruct (Q.min_spec_le (1 + (sessionMinutes - 45) * (1 # 100)) (15 # 10))
    as [[Hle ->] | [Hle ->]]; split; nra.
Qed.

(** The range from which [calculateContextualWait] draws the multiplier. *)
Definition multiplierRange (context : Context) : Q * Q :=
  match context with
  | Reading => (8 # 10, 14 # 10)
  | Thinking => (9 # 10, 16 # 10)
  | Typing => (7 # 10, 12 # 10)
  | Scanning => (5 # 10, 9 # 10)
  | Loading => (1, 13 # 10)
  end.

Lemma calculateContextualWait_bounds (r1 r2 minMs maxMs : Q) (context : Context) :
  0 <= r1 -> r1 < 1 -> 0 <= r2 -> r2 < 1 -> 0 <= minMs -> minMs <= maxMs ->
  let wait := inject_Z (calculateContextualWait r1 r2 minMs maxMs context) in
  0 <= wait
  /\ fst (multiplierRange context) * minMs - (1 # 2) <= wait
  /\ wait <= snd (multiplierRange context) * maxMs + (1 # 2).
Proof.
  intros Hr1 Hr1' Hr2 Hr2' Hmin Hle. cbv zeta. unfold calculateContextualWait.
  destruct (@randomInRange_bounds r2 minMs maxMs Hr2 Hr2' Hle) as [Hb1 Hb2].
  set (baseTime := randomInRange r2 minMs maxMs) in *.
  set (multiplier := match context with
                     | Thinking => _ | Reading => _ | Typing => _
                     | Loading => _ | Scanning => _ end).
  assert (fst (multiplierRange context) <= multiplier
          /\ multiplier <= snd (multiplierRange context)
          /\ 0 < fst (multiplierRange context)) as (Hm1 & Hm2 & Hm0).
  { subst multiplier. destruct context; cbn [multiplierRange fst snd];
      (split; [| split]; try reflexivity; apply randomInRange_bounds; try assumption;
       discriminate). }
  destruct (UtilFacts.Math_round_nearest (baseTime * multiplier)) as [Hlow Hhigh].
  set (lo := fst (multiplierRange context)) in *.
  set (hi := snd (multiplierRange context)) in *.
  assert (lo * minMs <= baseTime * multiplier) by nra.
  assert (baseTime * multiplier <= hi * maxMs) by nra.
  assert (0 <= lo * minMs) by nra.
  repeat split; try lra.
  change 0 with (inject_Z 0). rewrite <- Zle_Qle.
  assert (inject_Z (-1) < inject_Z (JS.Math_round (baseTime * multiplier))) as Hz.
  { change (inject_Z (-1)) with (-1). lra. }
  rewrite <- Zlt_Qlt in Hz. lia.
Qed.

(** X23: with human behaviour enabled, [humanWait(minMs, maxMs, context)]
    does not keep to [minMs, maxMs].  For [0 <= minMs <= maxMs] the delay
    is never negative, it is at least the smallest multiplier of the
    context times [minMs], less the half lost to rounding, and at most one
    and a half times (fatigue) the largest multiplier times [maxMs], plus
    the rounding half, plus the 8000 ms of a distraction. *)
Theorem humanWait_enabled_bounds (random : nat -> Q) (now : Z)
    (executionStartTime : option Z) (minMs maxMs : Q) (context : Context) :
  (forall i, 0 <= random i /\ random i < 1) ->
  0 <= minMs -> minMs <= maxMs ->
  let w := humanWait true random now executionStartTime minMs maxMs context in
  fst (multiplierRange context) * minMs - (1 # 2) <= w
  /\ w <= (15 # 10) * (snd (multiplierRange context) * maxMs + (1 # 2)) + 8000
  /\ 0 <= w.
Proof.
  intros Hrandom Hmin Hle. cbv zeta. unfold humanWait. cbn [negb].
  destruct (Hrandom 0%nat) as [H0 H0'], (Hrandom 1%nat) as [H1 H1'],
           (Hrandom 3%nat) as [H3 H3'].
  destruct (@calculateContextualWait_bounds (random 0%nat) (random 1%nat) minMs maxMs
              context H0 H0' H1 H1' Hmin Hle) as (Hpos & Hlow & Hhigh).
  set (wait := inject_Z (calculateContextualWait _ _ minMs maxMs context)) in *.
  destruct (@applyFatigue_bounds now executionStartTime wait Hpos) as [Hf1 Hf2].
  set (tired := applyFatigue now executionStartTime wait) in *.
  destruct (@randomInRange_bounds (random 3%nat) 2000 8000 H3 H3' ltac:(discriminate))
    as [Hd1 Hd2].
  destruct (Qlt_bool (random 2%nat) (5 # 100)); repeat split; lra.
Qed.

Definition sum (deltas : list Q) : Q := fold_right Qplus 0 deltas.

Lemma sum_repeat (x : Q) (n : nat) : sum (repeat x n) == inject_Z (Z.of_nat n) * x.
Proof.
  induction n as [| n IH].
  - cbn. rewrite Qmult_0_l. reflexivity.
  - cbn [repeat sum fold_right]. fold (sum (repeat x n)). rewrite IH.
    rewrite Nat2Z.inj_succ. unfold Z.succ. rewrite inject_Z_plus.
    change (inject_Z 1) with 1. lra.
Qed.


(** X24: [humanScroll] turns the wheel in 2 to 8 equal steps of at most 50
    each, which add up to the scroll amount drawn from [100, 400) in
    absolute value; ['down'] gives positive steps only, ['up'] negative
    steps only, and with human behaviour disabled the wheel is not
    touched. *)
Theorem humanScroll_wheel_steps (coin rand : Q) (direction : Direction) :
  0 <= rand -> rand < 1 ->
  let deltas := humanScroll true coin rand direction in
  let amount := randomInRange rand 100 400 in
  (2 <= length deltas <= 8)%nat
  /\ Forall (fun delta => 0 < Qabs delta /\ Qabs delta <= 50) deltas
  /\ Qabs (sum deltas) == amount
  /\ (direction = Down -> Forall (fun delta => 0 < delta) deltas)
  /\ (direction = Up -> Forall (fun delta => delta < 0) deltas)
  /\ humanScroll false coin rand direction = [].
Proof.
  intros H0 H1. cbv zeta. unfold humanScroll. cbn [negb].
  destruct (@randomInRange_bounds rand 100 400 H0 H1 ltac:(discriminate)) as [Hlow Hhigh].
  set (amount := randomInRange rand 100 400) in *.
  set (up := match direction with Up => _ | Down => _ | Random => _ end).
  set (actualScroll := if up then - amount else amount).
  assert (Qabs actualScroll == amount) as Habs.
  { subst actualScroll. destruct up; [rewrite Qabs_opp |]; apply Qabs_pos; lra. }
  set (increments := Qceiling (Qabs actualScroll / 50)).
  assert (Qabs actualScroll / 50 == amount * (1 # 50)) as Hdiv by (rewrite Habs; field).
  assert (2 <= increments <= 8)%Z as Hcount.
  { subst increments. split.
    - change 2%Z with (Qceiling 2). apply Qceiling_resp_le. rewrite Hdiv. lra.
    - change 8%Z with (Qceiling 8). apply Qceiling_resp_le. rewrite Hdiv. lra. }
  assert (amount <= 50 * inject_Z increments) as Hsteps.
  { pose proof (Qle_ceiling (Qabs actualScroll / 50)) as Hc. fold increments in Hc.
    rewrite Hdiv in Hc. lra. }
  assert (2 <= inject_Z increments) as Hn2
      by (change 2 with (inject_Z 2); rewrite <- Zle_Qle; lia).
  assert (~ inject_Z increments == 0) as Hn0 by lra.
  set (increment := actualScroll / inject_Z increments).
  assert (inject_Z increments * increment == actualScroll) as Hmul
      by (subst increment; field; exact Hn0).
  assert (inject_Z increments * Qabs increment == amount) as Hmulabs.
  { rewrite <- Habs, <- Hmul, Qabs_Qmult. rewrite (Qabs_pos (inject_Z increments)) by lra.
    reflexivity. }
  repeat split.
  - rewrite repeat_length. lia.
  - rewrite repeat_length. lia.
  - apply Forall_forall. intros delta Hdelta. apply repeat_spec in Hdelta. subst delta.
    split; nra.
  - rewrite sum_repeat, Z2Nat.id by lia. rewrite Hmul. exact Habs.
  - intros ->. apply Forall_forall. intros delta Hdelta. apply repeat_spec in Hdelta.
    subst delta. subst up. cbv iota in actualScroll. subst actualScroll.
    nra.
  - intros ->. apply Forall_forall. intros delta Hdelta. apply repeat_spec in Hdelta.
    subst delta. subst up. cbv iota in actualScroll. subst actualScroll.
    nra.
Qed.


Lemma sessionMinutes_le (elapsed : Z) :
  (elapsed <= 2700000)%Z -> Qlt_bool 45 (inject_Z elapsed / 60000) = false.
Proof.
  intros H. destruct (Qlt_bool 45 (inject_Z elapsed / 60000)) eqn:E; [| reflexivity].
  apply Qlt_bool_iff in E.
  assert (inject_Z elapsed <= inject_Z 2700000) as Hq by (rewrite <- Zle_Qle; exact H).
  change (inject_Z 2700000) with 2700000 in Hq.
  assert (inject_Z elapsed / 60000 == inject_Z elapsed * (1 # 60000)) as Hdiv by field.
  rewrite Hdiv in E. lra.
Qed.

(** X25: fatigue slows a wait down by at most one half and never speeds
    it up.  The wait is unchanged while the session is at most 45 minutes
    old, and also when no start time is set (or it is 0): the session then
    counts as just started.  From 95 minutes on the factor is 1.5. *)
Theorem applyFatigue_slows_by_at_most_half (now : Z) (executionStartTime : option Z)
    (waitTime : Q) :
  0 <= waitTime ->
  waitTime <= applyFatigue now executionStartTime waitTime
  /\ applyFatigue now executionStartTime waitTime <= (15 # 10) * waitTime
  /\ (executionStartTime = None \/ executionStartTime = Some 0%Z ->
      applyFatigue now executionStartTime waitTime = waitTime)
  /\ (forall start, executionStartTime = Some start -> (now - start <= 2700000)%Z ->
        applyFatigue now executionStartTime waitTime = waitTime)
  /\ (forall start, executionStartTime = Some start -> start <> 0%Z ->
        (5700000 <= now - start)%Z ->
        applyFatigue now executionStartTime waitTime == (15 # 10) * waitTime).
Proof.
  intros Hw.
  destruct (@applyFatigue_bounds now executionStartTime waitTime Hw) as [H1 H2].
  repeat split; try assumption.
  - intros [-> | ->]; unfold applyFatigue; rewrite Z.sub_diag;
      now rewrite sessionMinutes_le.
  - intros start -> Hle. unfold applyFatigue.
    destruct start as [| p | p]; [rewrite Z.sub_diag; now rewrite sessionMinutes_le | |];
      now rewrite sessionMinutes_le.
  - intros start -> Hstart Hlate. unfold applyFatigue.
    destruct start as [| p | p]; [congruence | |];
      match goal with
      | |- context [inject_Z ?elapsed / 60000] =>
          set (sessionMinutes := inject_Z elapsed / 60000);
          assert (95 <= sessionMinutes) as Hm
      end;
      try (subst sessionMinutes;
           match goal with
           | |- 95 <= inject_Z ?elapsed / 60000 =>
               assert (inject_Z 5700000 <= inject_Z elapsed) as Hq
                   by (rewrite <- Zle_Qle; exact Hlate);
               change (inject_Z 5700000) with 5700000 in Hq;
               assert (inject_Z elapsed / 60000 == inject_Z elapsed * (1 # 60000)) as Hdiv
                   by field;
               rewrite Hdiv; lra
           end);
      (assert (Qlt_bool 45 sessionMinutes = true) as -> by (apply Qlt_bool_iff; lra));
      rewrite Q.min_r by lra; ring.
Qed.

Definition always (rand : Q) (i : nat) : Q := rand.

Lemma humanWait_disabled_stays_in_the_middle_witness :
  humanWait false (always (1 # 4)) 0 None 1000 3000 Thinking <= 3000.
Proof.
  destruct (@humanWait_disabled_stays_in_the_middle (always (1 # 4)) 0 None 1000 3000
              Thinking ltac:(discriminate) ltac:(reflexivity)) as (_ & H & _).
  apply H. discriminate.
Defined.

Lemma humanWait_enabled_bounds_witness :
  3000 < humanWait true (always (9 # 10)) 0 None 1000 3000 Thinking
  /\ humanWait true (always (9 # 10)) 0 None 1000 3000 Thinking
     <= (15 # 10) * ((16 # 10) * 3000 + (1 # 2)) + 8000.
Proof.
  split; [reflexivity |].
  apply (@humanWait_enabled_bounds (always (9 # 10)) 0 None 1000 3000 Thinking).
  - intros i. split; [discriminate | reflexivity].
  - discriminate.
  - discriminate.
Defined.

Lemma applyFatigue_slows_by_at_most_half_witness :
  applyFatigue 6000000 (Some 1%Z) 1000 == (15 # 10) * 1000.
Proof.
  destruct (@applyFatigue_slows_by_at_most_half 6000000 (Some 1%Z) 1000
              ltac:(discriminate)) as (_ & _ & _ & _ & H).
  apply (H 1%Z); [reflexivity | discriminate | discriminate].
Defined.

Lemma humanScroll_wheel_steps_witness :
  Forall (fun delta => 0 < delta) (humanScroll true (1 # 2) (1 # 2) Down).
Proof.
  destruct (@humanScroll_wheel_steps (1 # 2) (1 # 2) Down ltac:(discriminate)
              ltac:(reflexivity)) as (_ & _ & _ & H & _).
  apply H. reflexivity.
Defined.

End HumanFacts.

(** ** util/FinalWebhook.ts: what the notification shows *)

Module WebhookFacts.
Import FinalWebhook.
Import FinalWebhookFacts.
Local Open Scope Z_scope.

(** No character of [s] is [@]. *)
Fixpoint noAt (s : string) : bool :=
  match s with
  | EmptyString => true
  | String c rest => negb (Ascii.eqb c "@") && noAt rest
  end.

Lemma split_noAt (s : string) : noAt s = true -> split "@" s = [s].
Proof.
  induction s as [| c rest IH]; cbn; [reflexivity |].
  intros H. apply andb_true_iff in H as [Hc Hrest].
  apply negb_true_iff in Hc. rewrite Hc, (IH Hrest). reflexivity.
Qed.

Lemma split_append (localPart rest : string) :
  noAt localPart = true ->
  split "@" (String.append localPart (String "@" rest)) = localPart :: split "@" rest.
Proof.
  induction localPart as [| c localPart' IH]; cbn.
  - reflexivity.
  - intros H. apply andb_true_iff in H as [Hc Hrest].
    apply negb_true_iff in Hc. rewrite Hc, (IH Hrest). reflexivity.
Qed.

Definition maskedLocal (localPart : string) : string :=
  if (3 <? String.length localPart)%nat
  then String.append (substring 0 2 localPart) "***"
  else "***"%string.

(** X26: a masked address shows at most the first two characters of the
    local part.  For an address [local@domain] with both parts non-empty,
    [maskEmail] keeps the domain and replaces the local part by its first
    two characters and three stars when it has more than three characters,
    and by three stars alone otherwise; what follows a second [@] is
    dropped; an address without [@], or with an empty part, is shown as
    [***@***.com]. *)
Theorem maskEmail_shows_two_characters_at_most :
  (forall localPart domain,
     noAt localPart = true -> noAt domain = true ->
     localPart <> ""%string -> domain <> ""%string ->
     maskEmail (String.append localPart (String "@" domain))
     = String.append (maskedLocal localPart) (String "@" domain))
  /\ (forall localPart domain rest,
        noAt localPart = true -> noAt domain = true ->
        maskEmail (String.append localPart
                     (String "@" (String.append domain (String "@" rest))))
        = maskEmail (String.append localPart (String "@" domain)))
  /\ (forall email,
        noAt email = true -> maskEmail email = "***@***.com"%string)
  /\ (forall domain, maskEmail (String "@" domain) = "***@***.com"%string)
  /\ (forall localPart, noAt localPart = true ->
        maskEmail (String.append localPart "@") = "***@***.com"%string).
Proof.
  repeat split.
  - intros localPart domain Hl Hd Hl0 Hd0. unfold maskEmail.
    rewrite (@split_append localPart _ Hl), (@split_noAt domain Hd). cbn [nth_error].
    apply String.eqb_neq in Hl0, Hd0. rewrite Hl0, Hd0. reflexivity.
  - intros localPart domain rest Hl Hd. unfold maskEmail.
    rewrite !(@split_append localPart _ Hl), (@split_append domain _ Hd), (@split_noAt domain Hd).
    reflexivity.
  - intros email H. unfold maskEmail. rewrite (@split_noAt email H). reflexivity.
  - intros domain. unfold maskEmail. cbn [split Ascii.eqb]. 
    change (Ascii.eqb "@" "@") with true. cbn. destruct (split "@" domain); reflexivity.
  - intros localPart Hl. unfold maskEmail.
    rewrite (@split_append localPart _ Hl). cbn. rewrite orb_true_r. reflexivity.
Qed.

(** The limits read from the security settings. *)
Definition shownLimit (security : option Security) : Z :=
  or_default (match security with
              | Some s => maxAccountsDisplayed s
              | None => None
              end) 8.

Definition failedLimit (security : option Security) : Z :=
  or_default (match security with
              | Some s => maxFailedAccountsDisplayed s
              | None => None
              end) 3.

Lemma slice0_length (A : Type) (l : list A) (stop : Z) :
  0 <= stop -> Z.of_nat (length (slice0 l stop)) = Z.min stop (Z.of_nat (length l)).
Proof.
  intros H. unfold slice0.
  destruct (Z.ltb_spec stop 0) as [Hneg | _]; [lia |].
  rewrite length_firstn. lia.
Qed.

Lemma firstn_Forall (A : Type) (P : A -> Prop) (l : list A) :
  Forall P l -> forall n, Forall P (firstn n l).
Proof.
  induction 1 as [| x l Hx _ IH]; intros [| n]; cbn; constructor; auto.
Qed.

Lemma slice0_Forall (A : Type) (P : A -> Prop) (l : list A) (stop : Z) :
  Forall P l -> Forall P (slice0 l stop).
Proof.
  intros H. unfold slice0. destruct (stop <? 0); now apply firstn_Forall.
Qed.

Lemma filter_Forall (A : Type) (p : A -> bool) (l : list A) :
  Forall (fun x => p x = true) (filter p l).
Proof.
  apply Forall_forall. intros x Hx. now apply filter_In in Hx.
Qed.

Lemma successRate_percentage (s t : Z) :
  0 <= s <= t -> 0 < t ->
  0 <= JS.Math_round (inject_Z s / inject_Z t * 100)%Q <= 100
  /\ (s = t -> JS.Math_round (inject_Z s / inject_Z t * 100)%Q = 100)
  /\ (s = 0 -> JS.Math_round (inject_Z s / inject_Z t * 100)%Q = 0).
Proof.
  intros [Hs Hst] Ht.
  assert (0 < inject_Z t)%Q as Hpos
      by (change 0%Q with (inject_Z 0); rewrite <- Zlt_Qlt; lia).
  assert (0 <= inject_Z s / inject_Z t)%Q as Hlow.
  { apply Qle_shift_div_l; [exact Hpos |]. rewrite Qmult_0_l.
    change 0%Q with (inject_Z 0). rewrite <- Zle_Qle. lia. }
  assert (inject_Z s / inject_Z t <= 1)%Q as Hhigh.
  { apply Qle_shift_div_r; [exact Hpos |]. rewrite Qmult_1_l. rewrite <- Zle_Qle. lia. }
  unfold JS.Math_round. repeat split.
  - apply (Z.le_trans _ (Qfloor 0)); [discriminate |]. apply Qfloor_resp_le.
    set (q := (inject_Z s / inject_Z t)%Q) in *. lra.
  - apply (Z.le_trans _ (Qfloor (100 + (1 # 2)))); [| discriminate].
    apply Qfloor_resp_le.
    set (q := (inject_Z s / inject_Z t)%Q) in *. lra.
  - intros ->.
    rewrite (Qfloor_comp _ (100 + (1 # 2))%Q); [reflexivity |].
    assert (inject_Z t / inject_Z t == 1)%Q as E by (field; lra).
    rewrite E. reflexivity.
  - intros ->.
    rewrite (Qfloor_comp _ (1 # 2)%Q); [reflexivity |].
    assert (inject_Z 0 / inject_Z t == 0)%Q as E by (field; lra).
    rewrite E. reflexivity.
Qed.

(** X27: the numbers of the embed built from a summary of
    [createFinalSummary].  The success rate is a percentage between 0 and
    100: 100 and green when every account succeeded, 0 and red when none
    did (also for an empty summary).  The field of successful accounts
    lists successful accounts only, as many as there are up to the limit
    [maxAccountsDisplayed] (8 when absent or 0), the field of failed
    accounts lists failed accounts only, up to [maxFailedAccountsDisplayed]
    (3 when absent or 0); with a positive limit each field is present
    exactly when there is such an account. *)
Theorem embed_of_a_summary (results : list AccountResult) (passes start stop : Z)
    (security : option Security) :
  let summary := createFinalSummary results passes start stop in
  let embed := createSecureDiscordEmbed summary security in
  0 <= successRate embed <= 100
  /\ (results <> [] -> Forall (fun r => success r = true) results ->
      successRate embed = 100 /\ color embed = green /\ failedField embed = None)
  /\ (Forall (fun r => success r = false) results ->
      successRate embed = 0 /\ color embed = red /\ successfulField embed = None)
  /\ (forall shown, successfulField embed = Some shown ->
        Forall (fun r => success r = true) shown
        /\ (0 <= shownLimit security ->
            Z.of_nat (length shown)
            = Z.min (successfulAccounts summary) (shownLimit security)))
  /\ (forall shown, failedField embed = Some shown ->
        Forall (fun r => success r = false) shown
        /\ (0 <= failedLimit security ->
            Z.of_nat (length shown)
            = Z.min (failedAccounts summary) (failedLimit security)))
  /\ (0 < shownLimit security -> 0 < successfulAccounts summary ->
      successfulField embed <> None)
  /\ (0 < failedLimit security -> 0 < failedAccounts summary ->
      failedField embed <> None).
Proof.
  cbv zeta. unfold createSecureDiscordEmbed.
  fold (shownLimit security). fold (failedLimit security).
  cbn [createFinalSummary totalAccounts successfulAccounts failedAccounts accountResults
       totalExecutionTime successRate color successfulField failedField].
  set (winners := filter (fun account => success account) results).
  set (losers := filter (fun account => negb (success account)) results).
  assert (length winners + length losers = length results)%nat as Hsplit
      by apply (filter_length (fun account => success account) results).
  set (ns := Z.of_nat (length winners)) in *.
  set (n := Z.of_nat (length results)) in *.
  assert (n - ns = Z.of_nat (length losers)) as Hnf by (subst ns n; lia).
  assert (0 <= ns <= n) as Hns by (subst ns n; lia).
  assert (Forall (fun r => success r = true) winners) as Hwin by apply filter_Forall.
  assert (Forall (fun r => success r = false) losers) as Hlose.
  { eapply Forall_impl; [| apply (filter_Forall (fun account => negb (success account)))].
    intros r Hr. now apply negb_true_iff in Hr. }
  set (rate := if n >? 0 then JS.Math_round (inject_Z ns / inject_Z n * 100)%Q else 0).
  assert (0 <= rate <= 100
          /\ (0 < n -> ns = n -> rate = 100)
          /\ (ns = 0 -> rate = 0)) as (Hrate & Hall & Hnone).
  { subst rate. destruct (Z.gtb_spec n 0) as [Hn | Hn].
    - destruct (@successRate_percentage ns n ltac:(lia) Hn) as (H1 & H2 & H3).
      repeat split; try lia; auto.
    - repeat split; lia. }
  split; [exact Hrate |].
  split; [| split; [| split; [| split; [| split]]]].
  - intros Hne Hsucc.
    assert (winners = results) as Ew.
    { subst winners. apply forallb_filter_id. apply forallb_forall.
      intros r Hr. exact (proj1 (Forall_forall _ _) Hsucc r Hr). }
    assert (0 < n) as Hn by (subst n; destruct results; [congruence | cbn; lia]).
    assert (ns = n) as En by (subst ns n; now rewrite Ew).
    rewrite (Hall Hn En). repeat split.
    destruct (Z.gtb_spec (n - ns) 0); [lia | reflexivity].
  - intros Hfail.
    assert (winners = []) as Ew.
    { subst winners. clear -Hfail. induction Hfail as [| r rest Hr _ IH]; cbn;
        [reflexivity |]. now rewrite Hr. }
    assert (ns = 0) as En by (subst ns; now rewrite Ew).
    rewrite (Hnone En), En. repeat split.
  - intros shown Hshown.
    destruct (ns >? 0); [| discriminate].
    destruct (slice0 winners (shownLimit security)) as [| r rest] eqn:Es; [discriminate |].
    injection Hshown as <-. rewrite <- Es. split.
    + now apply slice0_Forall.
    + intros Hlimit. rewrite slice0_length by exact Hlimit. subst ns. lia.
  - intros shown Hshown.
    destruct (n - ns >? 0); [| discriminate].
    destruct (slice0 losers (Z.min (n - ns) (failedLimit security))) as [| r rest] eqn:Es;
      [discriminate |].
    injection Hshown as <-. rewrite <- Es. split.
    + now apply slice0_Forall.
    + intros Hlimit. rewrite slice0_length by lia. lia.
  - intros Hlimit Hsome.
    destruct (Z.gtb_spec ns 0) as [_ | Hn]; [| lia].
    destruct (slice0 winners (shownLimit security)) as [| r rest] eqn:Es; [| discriminate].
    apply (f_equal (@length _)) in Es. apply (f_equal Z.of_nat) in Es.
    rewrite slice0_length in Es by lia. cbn in Es. subst ns. lia.
  - intros Hlimit Hsome.
    destruct (Z.gtb_spec (n - ns) 0) as [_ | Hn]; [| lia].
    destruct (slice0 losers (Z.min (n - ns) (failedLimit security))) as [| r rest] eqn:Es;
      [| discriminate].
    apply (f_equal (@length _)) in Es. apply (f_equal Z.of_nat) in Es.
    rewrite slice0_length in Es by lia. cbn in Es. lia.
Qed.
Lemma maskEmail_shows_two_characters_at_most_witness :
  maskEmail "alice@example.com" = "al***@example.com"%string.
Proof.
  destruct maskEmail_shows_two_characters_at_most as (H & _).
  apply (H "alice"%string "example.com"%string); try reflexivity; discriminate.
Defined.

Lemma embed_of_a_summary_witness :
  successRate
    (createSecureDiscordEmbed
       (createFinalSummary [createAccountResult "alice@example.com" 100 180 7 240 true None]
          1 0 300000)
       None)
  = 100.
Proof.
  destruct (@embed_of_a_summary
              [createAccountResult "alice@example.com" 100 180 7 240 true None]
              1 0 300000 None) as (_ & H & _).
  apply H; [discriminate | repeat constructor].
Defined.

End WebhookFacts.

(** ** The scheduler manager and the programs that read its file *)

Module ManagerFacts.

Import Scheduler.
Import Manager.

Local Open Scope Z_scope.

Lemma validateConfig_ok (config : ConfigScheduler) :
  timeRegex_test (dailyRunTime config) = true ->
  RandomDelayMinutes.min (randomDelayMinutes config)
  < RandomDelayMinutes.max (randomDelayMinutes config) ->
  Eff.outcome (validateConfig config) = Eff.Ok true.
Proof.
  intros Htime Hlt. unfold validateConfig. rewrite Htime. cbn [negb].
  destruct (Z.geb_spec (RandomDelayMinutes.min (randomDelayMinutes config))
              (RandomDelayMinutes.max (randomDelayMinutes config))); [lia | reflexivity].
Qed.

Lemma scheduled_instant_throws (host : Host.t) (config : ConfigScheduler) (clock date : Z) :
  timeRegex_test (dailyRunTime config) = true ->
  SchedulerFacts.readsUndeclaredNow (timezone config) = true ->
  Eff.outcome (getScheduledTimeForDate host config clock date)
  = Eff.Throw (Eff.ReferenceError "now").
Proof.
  intros Htime Hzone. unfold getScheduledTimeForDate.
  destruct (SchedulerFacts.timeRegex_hoursMinutes _ Htime) as (hours & minutes & -> & _).
  now rewrite (SchedulerFacts.offset_New_York host config clock Hzone).
Qed.

(** X28: [enableScheduler] accepts exactly the times of day that the
    scheduler accepts, and any zone name.  When the time has the form H:MM
    or HH:MM the block it writes is enabled with that time and zone, and
    the scheduler's own [validateConfig] accepts it, provided the jitter
    already stored (if any) has [min < max]; the values it fills in for
    [dailyRetries] and [retryDelayMinutes] are those the orchestrator
    assumes anyway.  The zone is not checked: for 'America/New_York' and
    'EST' the block is written although the scheduled instant cannot be
    computed from it.  Any other time is refused before anything is
    saved. *)
Theorem enableScheduler_writes_an_accepted_block (time zone : string)
    (config : ConfigFile) :
  (timeRegex_test time = false ->
   exists error, enableScheduler time zone config = Eff.Throw error)
  /\ (timeRegex_test time = true ->
      exists config' block,
        enableScheduler time zone config = Eff.Ok config'
        /\ scheduler config' = Some block
        /\ enabled block = true
        /\ dailyRunTime block = time
        /\ timezone block = zone
        /\ Bot.or_default (dailyRetries config') 0 = Bot.or_default (dailyRetries config) 0
        /\ Bot.or_default (retryDelayMinutes config') 30
           = Bot.or_default (retryDelayMinutes config) 30
        /\ dailyRetries config' <> None
        /\ retryDelayMinutes config' <> None
        /\ ((forall old, scheduler config = Some old ->
               RandomDelayMinutes.min (randomDelayMinutes old)
               < RandomDelayMinutes.max (randomDelayMinutes old)) ->
            Eff.outcome (validateConfig block) = Eff.Ok true)
        /\ (SchedulerFacts.readsUndeclaredNow zone = true ->
            forall host clock date,
              Eff.outcome (getScheduledTimeForDate host block clock date)
              = Eff.Throw (Eff.ReferenceError "now"))).
Proof.
  split; intros Htime; unfold enableScheduler; rewrite Htime; cbn [negb].
  - eexists. reflexivity.
  - eexists. eexists. split; [reflexivity |]. cbn [scheduler dailyRetries retryDelayMinutes].
    split; [reflexivity |]. cbn [enabled dailyRunTime timezone].
    repeat split.
    + now destruct (dailyRetries config).
    + now destruct (retryDelayMinutes config) as [[| p | p] |].
    + now destruct (dailyRetries config).
    + now destruct (retryDelayMinutes config) as [[| p | p] |].
    + intros Hold. apply validateConfig_ok; cbn [dailyRunTime randomDelayMinutes].
      * exact Htime.
      * destruct (scheduler config) as [old |]; [now apply Hold | reflexivity].
    + intros Hzone host clock date. now apply scheduled_instant_throws.
Qed.

Definition emptyFile : ConfigFile :=
  {| scheduler := None; dailyRetries := None; retryDelayMinutes := None |}.

Lemma enableScheduler_writes_an_accepted_block_witness :
  exists config' block,
    enableScheduler "14:30" "America/New_York" emptyFile = Eff.Ok config'
    /\ scheduler config' = Some block
    /\ Eff.outcome (validateConfig block) = Eff.Ok true
    /\ Eff.outcome (getScheduledTimeForDate Host.utc block 0 0)
       = Eff.Throw (Eff.ReferenceError "now").
Proof.
  destruct (@enableScheduler_writes_an_accepted_block "14:30" "America/New_York" emptyFile)
    as [_ H].
  destruct (H eq_refl) as (config' & block & H1 & H2 & _ & _ & _ & _ & _ & _ & _ & H3 & H4).
  exists config', block. repeat split; try assumption.
  - apply H3. intros old Hold. discriminate Hold.
  - apply H4. reflexivity.
Defined.

(** X29: [setRandomDelay] stores exactly the jitter bounds with
    [0 <= min < max], and only when a scheduler block exists.  The block it
    writes differs from the old one in the bounds alone, the scheduler's
    [validateConfig] accepts it whenever the time of day is well formed,
    and every jitter then drawn from it is a delay between [min] and [max]
    minutes, never negative. *)
Theorem setRandomDelay_stores_valid_bounds (min max : Z) (config : ConfigFile) :
  ((exists config', setRandomDelay min max config = Eff.Ok config')
   <-> 0 <= min < max /\ scheduler config <> None)
  /\ (forall config',
        setRandomDelay min max config = Eff.Ok config' ->
        exists old block,
          scheduler config = Some old
          /\ scheduler config' = Some block
          /\ dailyRetries config' = dailyRetries config
          /\ retryDelayMinutes config' = retryDelayMinutes config
          /\ enabled block = enabled old
          /\ dailyRunTime block = dailyRunTime old
          /\ timezone block = timezone old
          /\ retryOnFailure block = retryOnFailure old
          /\ (timeRegex_test (dailyRunTime old) = true ->
              Eff.outcome (validateConfig block) = Eff.Ok true)
          /\ (forall rand, (0 <= rand)%Q -> (rand < 1)%Q ->
                0 <= min * 60000 <= getRandomDelay block rand
                /\ getRandomDelay block rand <= max * 60000)).
Proof.
  unfold setRandomDelay. split.
  - destruct (Z.ltb_spec min 0) as [Hneg | Hmin]; cbn [orb].
    { split; [intros [config' H]; discriminate H | lia]. }
    destruct (Z.leb_spec max min) as [Hle | Hlt].
    { split; [intros [config' H]; discriminate H | lia]. }
    destruct (scheduler config) as [old |].
    + split; [intros _; split; [lia | discriminate] | intros _; eexists; reflexivity].
    + split; [intros [config' H]; discriminate H | intros [_ H]; congruence].
  - intros config'.
    destruct (Z.ltb_spec min 0) as [Hneg | Hmin]; cbn [orb]; [discriminate |].
    destruct (Z.leb_spec max min) as [Hle | Hlt]; [discriminate |].
    destruct (scheduler config) as [old |]; [| discriminate].
    intros H. injection H as <-. eexists. eexists.
    split; [reflexivity |]. split; [reflexivity |].
    cbn [with_scheduler dailyRetries retryDelayMinutes enabled dailyRunTime timezone
         retryOnFailure].
    repeat split.
    + intros Htime. now apply validateConfig_ok.
    + lia.
    + destruct (@SchedulerFacts.getRandomDelay_bounds
                  {| enabled := enabled old;
                     dailyRunTime := dailyRunTime old;
                     timezone := timezone old;
                     randomDelayMinutes := {| RandomDelayMinutes.min := min;
                                              RandomDelayMinutes.max := max |};
                     retryOnFailure := retryOnFailure old |} rand Hlt H H0)
        as (minutes & -> & H1 & H2).
      cbn in H1, H2. lia.
    + destruct (@SchedulerFacts.getRandomDelay_bounds
                  {| enabled := enabled old;
                     dailyRunTime := dailyRunTime old;
                     timezone := timezone old;
                     randomDelayMinutes := {| RandomDelayMinutes.min := min;
                                              RandomDelayMinutes.max := max |};
                     retryOnFailure := retryOnFailure old |} rand Hlt H H0)
        as (minutes & -> & H1 & H2).
      cbn in H1, H2. lia.
Qed.

Lemma setRandomDelay_stores_valid_bounds_witness :
  exists config',
    setRandomDelay 10 60
      {| scheduler := Some initialScheduler; dailyRetries := None;
         retryDelayMinutes := None |}
    = Eff.Ok config'.
Proof.
  destruct (@setRandomDelay_stores_valid_bounds 10 60
              {| scheduler := Some initialScheduler; dailyRetries := None;
                 retryDelayMinutes := None |}) as [[_ H] _].
  apply H. split; [lia | discriminate].
Defined.



End ManagerFacts.
